(** * WTE: a shallow embedding of the installer/manager CLI

    The Go packages of the repository are embedded package by package
    ([updater], [config], [gost], [system], [security], [cli]); each Go
    function keeps its name.  Conventions of the embedding:

    - a Go [string] is a byte string ([string] of [Strings.String]);
      comparison is bytewise, as in Go;
    - a Go [int] is a [Z];
    - a Go [error] is its message; [nil] is [None];
    - a Go function returning [(T, error)] returns a [result T];
    - calls that leave the process (network, file system, systemd, the
      random source) read their outcome from an explicit environment value,
      and where the claim is about the order of such calls they are logged
      in a trace. *)

From stdpp Require Import gmap strings list fin_maps pretty.
From Stdlib Require Import ZArith NArith Lia Ascii String.

Definition error : Type := string.

Inductive result (A : Type) : Type :=
| Ok (a : A)
| Err (e : error).
Arguments Ok {A} a.
Arguments Err {A} e.

Definition result_err {A} (r : result A) : option error :=
  match r with Ok _ => None | Err e => Some e end.

(** ** Go's operators on strings *)

Module Go.

(** [a > b]: bytewise lexicographic order. *)
Definition string_gt (a b : string) : bool := String.ltb b a.

(** [a >= b] *)
Definition string_ge (a b : string) : bool := String.leb b a.

(** [a != b] *)
Definition string_ne (a b : string) : bool := negb (String.eqb a b).

(** The bytes [l] as a string. *)
Definition bytes (l : list nat) : string :=
  string_of_list_ascii (map ascii_of_nat l).

End Go.

(** ** Go's [strings] package, the functions the code uses *)

Module strings.

(** [strings.CutPrefix]: [s] without the leading [prefix], if it has it. *)
Fixpoint CutPrefix (s prefix : string) {struct prefix} : option string :=
  match prefix with
  | EmptyString => Some s
  | String a prefix' =>
      match s with
      | EmptyString => None
      | String b s' => if Ascii.eqb a b then CutPrefix s' prefix' else None
      end
  end.

(** [strings.HasPrefix] *)
Definition HasPrefix (s prefix : string) : bool :=
  match CutPrefix s prefix with Some _ => true | None => false end.

(** [strings.TrimPrefix]: [s] without the leading [prefix], or [s] itself. *)
Definition TrimPrefix (s prefix : string) : string :=
  match CutPrefix s prefix with Some rest => rest | None => s end.

Fixpoint ReplaceAll_fuel (fuel : nat) (s old new : string) : string :=
  match fuel with
  | O => s
  | S fuel' =>
      match s with
      | EmptyString => EmptyString
      | String c s' =>
          match CutPrefix s old with
          | Some rest => new +:+ ReplaceAll_fuel fuel' rest old new
          | None => String c (ReplaceAll_fuel fuel' s' old new)
          end
      end
  end.

(** [strings.ReplaceAll], for a non-empty [old]: the occurrences of [old]
    that do not overlap, from the left, are replaced by [new]. *)
Definition ReplaceAll (s old new : string) : string :=
  ReplaceAll_fuel (String.length s) s old new.

(** The UTF-8 encodings of the code points [unicode.IsSpace] accepts. *)
Definition spaces : list string :=
  [ Go.bytes [9]; Go.bytes [10]; Go.bytes [11]; Go.bytes [12]; Go.bytes [13];
    Go.bytes [32]; Go.bytes [194; 133]; Go.bytes [194; 160];
    Go.bytes [225; 154; 128];
    Go.bytes [226; 128; 128]; Go.bytes [226; 128; 129]; Go.bytes [226; 128; 130];
    Go.bytes [226; 128; 131]; Go.bytes [226; 128; 132]; Go.bytes [226; 128; 133];
    Go.bytes [226; 128; 134]; Go.bytes [226; 128; 135]; Go.bytes [226; 128; 136];
    Go.bytes [226; 128; 137]; Go.bytes [226; 128; 138]; Go.bytes [226; 128; 168];
    Go.bytes [226; 128; 169]; Go.bytes [226; 128; 175]; Go.bytes [226; 129; 159];
    Go.bytes [227; 128; 128] ].

(** [s] without one leading code point of [sp], if it starts with one. *)
Fixpoint drop_one (sp : list string) (s : string) : option string :=
  match sp with
  | [] => None
  | p :: sp' =>
      match CutPrefix s p with
      | Some s' => Some s'
      | None => drop_one sp' s
      end
  end.

Fixpoint TrimLeft_fuel (n : nat) (sp : list string) (s : string) : string :=
  match n with
  | O => s
  | S n' =>
      match drop_one sp s with
      | Some s' => TrimLeft_fuel n' sp s'
      | None => s
      end
  end.

(** [strings.TrimSpace]: all leading and trailing white space removed. *)
Definition TrimSpace (s : string) : string :=
  let left := TrimLeft_fuel (String.length s) spaces s in
  String.rev (TrimLeft_fuel (String.length left) (map String.rev spaces) (String.rev left)).

(** [strings.Cut]: [s] before and after the first instance of [sep]. *)
Fixpoint Cut (s sep : string) : option (string * string) :=
  match CutPrefix s sep with
  | Some after => Some (EmptyString, after)
  | None =>
      match s with
      | EmptyString => None
      | String c s' =>
          match Cut s' sep with
          | Some (before, after) => Some (String c before, after)
          | None => None
          end
      end
  end.

(** [strings.Contains] *)
Definition Contains (s substr : string) : bool :=
  match Cut s substr with Some _ => true | None => false end.

(** [strings.SplitN(s, sep, n)], for a non-empty [sep] and [n >= 0]: at most
    [n] pieces, the last of them the remainder that is not split. *)
Fixpoint SplitN (s sep : string) (n : nat) : list string :=
  match n with
  | O => []
  | S n' =>
      match n' with
      | O => [s]
      | S _ =>
          match Cut s sep with
          | Some (before, after) => before :: SplitN after sep n'
          | None => [s]
          end
      end
  end.

(** [strings.Split], for a non-empty [sep]. *)
Definition Split (s sep : string) : list string :=
  SplitN s sep (S (String.length s)).

Definition in_cutset (cutset : string) (c : ascii) : bool :=
  existsb (Ascii.eqb c) (list_ascii_of_string cutset).

(** [strings.TrimLeft], [strings.TrimRight] and [strings.Trim], for a
    cutset of ASCII bytes. *)
Fixpoint TrimLeft (s cutset : string) : string :=
  match s with
  | EmptyString => EmptyString
  | String c s' => if in_cutset cutset c then TrimLeft s' cutset else s
  end.

Definition TrimRight (s cutset : string) : string :=
  String.rev (TrimLeft (String.rev s) cutset).

Definition Trim (s cutset : string) : string :=
  TrimLeft (TrimRight s cutset) cutset.

(** The field that ends here, if any, goes in front of the fields found
    later. *)
Definition Fields_emit (field : string) (fields : list string) : list string :=
  if String.eqb field "" then fields else field :: fields.

Fixpoint Fields_fuel (fuel : nat) (s field : string) : list string :=
  match fuel with
  | O => Fields_emit field []
  | S fuel' =>
      match drop_one spaces s with
      | Some s' => Fields_emit field (Fields_fuel fuel' s' "")
      | None =>
          match s with
          | EmptyString => Fields_emit field []
          | String c s' => Fields_fuel fuel' s' (field +:+ String c "")
          end
      end
  end.

(** [strings.Fields]: the pieces of [s] between runs of white space. *)
Definition Fields (s : string) : list string :=
  Fields_fuel (S (String.length s)) s "".

End strings.

(** ** Go's [bufio.Scanner], splitting into lines *)

Module bufio.

Definition MaxScanTokenSize : N := 65536.

Definition ErrTooLong : error := "bufio.Scanner: token too long".

(** [dropCR]: a line without its terminal carriage return. *)
Definition dropCR (data : string) : string :=
  match String.rev data with
  | String c r => if Ascii.eqb c (ascii_of_nat 13) then String.rev r else data
  | EmptyString => data
  end.

(** The tokens the scanner delivers from [data] before [Scan] returns
    false, and the error it stopped with: a line that does not fit the
    buffer, together with its newline, ends the scan. *)
Fixpoint ScanLines_fuel (fuel : nat) (data : string) : list string * option error :=
  match fuel with
  | O => ([], None)
  | S fuel' =>
      if String.eqb data "" then ([], None)
      else
        match strings.Cut data (String (ascii_of_nat 10) "") with
        | Some (line, rest) =>
            if (MaxScanTokenSize <=? N.of_nat (String.length line))%N
            then ([], Some ErrTooLong)
            else let '(tokens, err) := ScanLines_fuel fuel' rest in
                 (dropCR line :: tokens, err)
        | None =>
            if (MaxScanTokenSize <=? N.of_nat (String.length data))%N
            then ([], Some ErrTooLong)
            else ([dropCR data], None)
        end
  end.

(** A scanner over a reader that delivers [data] and then end of file, or
    the error [read_err]: the lines of the calls of [Scan] that return
    true, and [scanner.Err()]. *)
Definition Scan (data : string) (read_err : option error) : list string * option error :=
  let '(tokens, err) := ScanLines_fuel (S (String.length data)) data in
  (tokens, match err with Some e => Some e | None => read_err end).

End bufio.

(** ** Go's [encoding/base64], standard encoding with padding *)

Module base64.

Definition encodeStd : string :=
  "ABCDEFGHIJKLMNOPQRSTUVWXYZabcdefghijklmnopqrstuvwxyz0123456789+/".

(** [enc.encode[v]] *)
Definition encode (v : N) : ascii :=
  match String.get (N.to_nat v) encodeStd with
  | Some c => c
  | None => "000"%char
  end.

Definition padChar : ascii := "="%char.

(** [StdEncoding.EncodeToString]: three bytes give four characters; a
    remainder of one or two bytes gives two or three characters and padding. *)
Fixpoint EncodeToString (src : string) : string :=
  match src with
  | EmptyString => EmptyString
  | String s0 EmptyString =>
      let val := N.shiftl (N_of_ascii s0) 16 in
      String (encode (N.land (N.shiftr val 18) 63))
        (String (encode (N.land (N.shiftr val 12) 63))
           (String padChar (String padChar EmptyString)))
  | String s0 (String s1 EmptyString) =>
      let val := N.lor (N.shiftl (N_of_ascii s0) 16) (N.shiftl (N_of_ascii s1) 8) in
      String (encode (N.land (N.shiftr val 18) 63))
        (String (encode (N.land (N.shiftr val 12) 63))
           (String (encode (N.land (N.shiftr val 6) 63))
              (String padChar EmptyString)))
  | String s0 (String s1 (String s2 rest)) =>
      let val := N.lor (N.lor (N.shiftl (N_of_ascii s0) 16) (N.shiftl (N_of_ascii s1) 8))
                       (N_of_ascii s2) in
      String (encode (N.land (N.shiftr val 18) 63))
        (String (encode (N.land (N.shiftr val 12) 63))
           (String (encode (N.land (N.shiftr val 6) 63))
              (String (encode (N.land val 63)) (EncodeToString rest))))
  end.

Definition encodeURL : string :=
  "ABCDEFGHIJKLMNOPQRSTUVWXYZabcdefghijklmnopqrstuvwxyz0123456789-_".

(** [enc.encode[v]], for an encoding with the alphabet [encoder]. *)
Definition encode_with (encoder : string) (v : N) : ascii :=
  match String.get (N.to_nat v) encoder with
  | Some c => c
  | None => "000"%char
  end.

(** [enc.EncodeToString], for a padded encoding with the alphabet
    [encoder]. *)
Fixpoint Encoding_EncodeToString (encoder : string) (src : string) : string :=
  match src with
  | EmptyString => EmptyString
  | String s0 EmptyString =>
      let val := N.shiftl (N_of_ascii s0) 16 in
      String (encode_with encoder (N.land (N.shiftr val 18) 63))
        (String (encode_with encoder (N.land (N.shiftr val 12) 63))
           (String padChar (String padChar EmptyString)))
  | String s0 (String s1 EmptyString) =>
      let val := N.lor (N.shiftl (N_of_ascii s0) 16) (N.shiftl (N_of_ascii s1) 8) in
      String (encode_with encoder (N.land (N.shiftr val 18) 63))
        (String (encode_with encoder (N.land (N.shiftr val 12) 63))
           (String (encode_with encoder (N.land (N.shiftr val 6) 63))
              (String padChar EmptyString)))
  | String s0 (String s1 (String s2 rest)) =>
      let val := N.lor (N.lor (N.shiftl (N_of_ascii s0) 16) (N.shiftl (N_of_ascii s1) 8))
                       (N_of_ascii s2) in
      String (encode_with encoder (N.land (N.shiftr val 18) 63))
        (String (encode_with encoder (N.land (N.shiftr val 12) 63))
           (String (encode_with encoder (N.land (N.shiftr val 6) 63))
              (String (encode_with encoder (N.land val 63))
                 (Encoding_EncodeToString encoder rest))))
  end.

(** [base64.URLEncoding.EncodeToString] *)
Definition URLEncoding_EncodeToString (src : string) : string :=
  Encoding_EncodeToString encodeURL src.

End base64.

(** ** Strings as sequences of runes

    What the Go runtime does for [for _, c := range s], [[]rune(s)] and
    [string(runes)]: a byte below [0x80] is its own rune; a well-formed
    sequence of two to four bytes is decoded; any other byte gives
    [U+FFFD] and is stepped over alone. *)

Module utf8.

Definition runeError : Z := 65533.    (* U+FFFD *)
Definition runeSelf : Z := 128.
Definition maxRune : Z := 1114111.    (* U+10FFFF *)
Definition surrogateMin : Z := 55296. (* 0xD800 *)
Definition surrogateMax : Z := 57343. (* 0xDFFF *)

Definition tx : Z := 128.  (* 0x80 *)
Definition t2 : Z := 192.  (* 0xC0 *)
Definition t3 : Z := 224.  (* 0xE0 *)
Definition t4 : Z := 240.  (* 0xF0 *)
Definition t5 : Z := 248.  (* 0xF8 *)

Definition maskx : Z := 63.
Definition mask2 : Z := 31.
Definition mask3 : Z := 15.
Definition mask4 : Z := 7.

Definition rune1Max : Z := 127.
Definition rune2Max : Z := 2047.
Definition rune3Max : Z := 65535.

Definition locb : Z := 128.  (* 0x80 *)
Definition hicb : Z := 191.  (* 0xBF *)

(** A byte as a number, and back ([byte(x)] keeps the low eight bits). *)
Definition byte (c : ascii) : Z := Z.of_N (N_of_ascii c).
Definition to_byte (x : Z) : ascii := ascii_of_N (Z.to_N (x mod 256)).

(** A continuation byte. *)
Definition cont (c : ascii) : bool := (locb <=? byte c)%Z && (byte c <=? hicb)%Z.

(** [decoderune]: the rune at the head of [s] (which starts with a byte that
    is not below [runeSelf]) and the number of bytes it takes. *)
Definition decoderune (s : string) : Z * nat :=
  match s with
  | EmptyString => (runeError, 1)
  | String s0 rest =>
      if (t2 <=? byte s0)%Z && (byte s0 <? t3)%Z then
        (* 0080-07FF two byte sequence *)
        match rest with
        | String s1 _ =>
            if cont s1 then
              let r := Z.lor (Z.shiftl (Z.land (byte s0) mask2) 6)
                             (Z.land (byte s1) maskx) in
              if (rune1Max <? r)%Z then (r, 2) else (runeError, 1)
            else (runeError, 1)
        | _ => (runeError, 1)
        end
      else if (t3 <=? byte s0)%Z && (byte s0 <? t4)%Z then
        (* 0800-FFFF three byte sequence *)
        match rest with
        | String s1 (String s2 _) =>
            if cont s1 && cont s2 then
              let r := Z.lor (Z.lor (Z.shiftl (Z.land (byte s0) mask3) 12)
                                    (Z.shiftl (Z.land (byte s1) maskx) 6))
                             (Z.land (byte s2) maskx) in
              if (rune2Max <? r)%Z
                 && negb ((surrogateMin <=? r)%Z && (r <=? surrogateMax)%Z)
              then (r, 3) else (runeError, 1)
            else (runeError, 1)
        | _ => (runeError, 1)
        end
      else if (t4 <=? byte s0)%Z && (byte s0 <? t5)%Z then
        (* 10000-1FFFFF four byte sequence *)
        match rest with
        | String s1 (String s2 (String s3 _)) =>
            if cont s1 && cont s2 && cont s3 then
              let r := Z.lor (Z.lor (Z.lor (Z.shiftl (Z.land (byte s0) mask4) 18)
                                           (Z.shiftl (Z.land (byte s1) maskx) 12))
                                    (Z.shiftl (Z.land (byte s2) maskx) 6))
                             (Z.land (byte s3) maskx) in
              if (rune3Max <? r)%Z && (r <=? maxRune)%Z
              then (r, 4) else (runeError, 1)
            else (runeError, 1)
        | _ => (runeError, 1)
        end
      else (runeError, 1)
  end.

(** [s[n:]], for [n] up to the length of [s]. *)
Fixpoint skip (n : nat) (s : string) : string :=
  match n, s with
  | S n', String _ s' => skip n' s'
  | _, _ => s
  end.

Fixpoint runes_fuel (fuel : nat) (s : string) : list Z :=
  match fuel with
  | O => []
  | S fuel' =>
      match s with
      | EmptyString => []
      | String c s' =>
          if (byte c <? runeSelf)%Z then byte c :: runes_fuel fuel' s'
          else let '(r, width) := decoderune s in r :: runes_fuel fuel' (skip width s)
      end
  end.

(** [[]rune(s)], and the runes [for _, c := range s] goes through. *)
Definition runes (s : string) : list Z := runes_fuel (String.length s) s.

(** [encoderune]: the bytes of a rune (an [int32]); a rune out of range or a
    surrogate is written as [U+FFFD]. *)
Definition encoderune (r : Z) : string :=
  let three (r : Z) : string :=
    String (to_byte (Z.lor t3 (Z.shiftr r 12)))
      (String (to_byte (Z.lor tx (Z.land (Z.shiftr r 6) maskx)))
         (String (to_byte (Z.lor tx (Z.land r maskx))) EmptyString)) in
  let i := (r mod 4294967296)%Z in  (* uint32(r) *)
  if (i <=? rune1Max)%Z then String (to_byte r) EmptyString
  else if (i <=? rune2Max)%Z then
    String (to_byte (Z.lor t2 (Z.shiftr r 6)))
      (String (to_byte (Z.lor tx (Z.land r maskx))) EmptyString)
  else if (maxRune <? i)%Z || ((surrogateMin <=? i)%Z && (i <=? surrogateMax)%Z)
  then three runeError
  else if (i <=? rune3Max)%Z then three r
  else
    String (to_byte (Z.lor t4 (Z.shiftr r 18)))
      (String (to_byte (Z.lor tx (Z.land (Z.shiftr r 12) maskx)))
         (String (to_byte (Z.lor tx (Z.land (Z.shiftr r 6) maskx)))
            (String (to_byte (Z.lor tx (Z.land r maskx))) EmptyString))).

(** [string(runes)] *)
Fixpoint of_runes (rs : list Z) : string :=
  match rs with
  | [] => EmptyString
  | r :: rs' => encoderune r +:+ of_runes rs'
  end.

End utf8.

(** ** package updater (internal/updater/updater.go) *)

Module updater.

Record Asset := {
  Asset_Name : string;
  BrowserDownloadURL : string;
  Size : Z
}.

Record Release := {
  TagName : string;
  Body : string;
  Assets : list Asset
}.

Record Updater := {
  currentVersion : string;
  repoURL : string
}.

(** [CheckForUpdate].  [latest] is what [u.GetLatestRelease()] returned (an
    HTTP round trip).  The triple is Go's [( *Release, bool, error)]. *)
Definition CheckForUpdate (u : Updater) (latest : result Release)
  : option Release * bool * option error :=
  match latest with
  | Err err => (None, false, Some err)
  | Ok release =>
      let latestVersion := strings.TrimPrefix (TagName release) "v" in
      let currentVersion := strings.TrimPrefix (currentVersion u) "v" in
      let hasUpdate := Go.string_ne latestVersion currentVersion
                       && Go.string_gt latestVersion currentVersion in
      (Some release, hasUpdate, None)
  end.

(** *** The file system the swap of [Update] works on *)

Record file := { content : string; perm : Z }.

(** How one [copyFile] goes wrong, when it does. *)
Inductive copy_fault :=
| CopyFine
| OpenFails (e : error)              (* os.Open(src) *)
| CreateFails (e : error)            (* os.Create(dst) *)
| WriteFails (written : nat) (e : error). (* io.Copy stops after [written] bytes *)

(** The faults the operating system injects into the six file operations of
    the swap, in program order. *)
Record faults := {
  f_backup : option error;        (* os.Rename(execPath, backupPath) *)
  f_copy : copy_fault;            (* u.copyFile(binaryPath, execPath) *)
  f_chmod : option error;         (* os.Chmod(execPath, 0755) *)
  f_remove_exec : option error;   (* os.Remove(execPath), on the chmod path *)
  f_restore : option error;       (* os.Rename(backupPath, execPath) *)
  f_remove_backup : option error  (* os.Remove(backupPath) *)
}.

(** The calls the swap makes, as they are logged. *)
Inductive fsop :=
| OpRename (old new : string)
| OpCopy (src dst : string)
| OpChmod (path : string) (mode : Z)
| OpRemove (path : string).

Definition ENOENT : error := "no such file or directory".

(** [os.Rename]: atomically replaces [new] by [old]'s file. *)
Definition Rename (fault : option error) (old new : string) (fs : gmap string file)
  : gmap string file * option error :=
  match fault with
  | Some e => (fs, Some e)
  | None =>
      match fs !! old with
      | None => (fs, Some ENOENT)
      | Some f => (<[new := f]> (delete old fs), None)
      end
  end.

(** [os.Remove]. *)
Definition Remove (fault : option error) (path : string) (fs : gmap string file)
  : gmap string file * option error :=
  match fault with
  | Some e => (fs, Some e)
  | None =>
      match fs !! path with
      | None => (fs, Some ENOENT)
      | Some _ => (delete path fs, None)
      end
  end.

(** [os.Chmod]. *)
Definition Chmod (fault : option error) (path : string) (mode : Z) (fs : gmap string file)
  : gmap string file * option error :=
  match fault with
  | Some e => (fs, Some e)
  | None =>
      match fs !! path with
      | None => (fs, Some ENOENT)
      | Some f => (<[path := {| content := content f; perm := mode |}]> fs, None)
      end
  end.

(** [os.Create]: truncates an existing file (keeping its mode) or creates
    one with mode [0666] before umask. *)
Definition Create (umask : Z) (path : string) (fs : gmap string file) : gmap string file :=
  match fs !! path with
  | Some f => <[path := {| content := ""; perm := perm f |}]> fs
  | None => <[path := {| content := ""; perm := Z.land 438 (Z.lnot umask) |}]> fs
  end.

(** [(u *Updater) copyFile]: open [src], create [dst], [io.Copy]. *)
Definition copyFile (fault : copy_fault) (umask : Z) (src dst : string)
  (fs : gmap string file) : gmap string file * option error :=
  match fault with
  | OpenFails e => (fs, Some e)
  | _ =>
      match fs !! src with
      | None => (fs, Some ENOENT)
      | Some sourceFile =>
          match fault with
          | CreateFails e => (fs, Some e)
          | _ =>
              let fs1 := Create umask dst fs in
              let destMode := default 0%Z (perm <$> fs1 !! dst) in
              match fault with
              | WriteFails n e =>
                  (<[dst := {| content := String.substring 0 n (content sourceFile);
                               perm := destMode |}]> fs1, Some e)
              | _ =>
                  (<[dst := {| content := content sourceFile; perm := destMode |}]> fs1, None)
              end
          end
      end
  end.

(** What [Update] leaves behind: the file system, the file operations it
    issued (oldest first) and the error it returns. *)
Record update_outcome := {
  fs_after : gmap string file;
  ops : list fsop;
  returned : option error
}.

(** [Update], from "Installing new version..." on (the swap).  What comes
    before (asset selection, download, extraction, [os.Executable],
    [filepath.EvalSymlinks]) is summed up in [staged]: the error [Update]
    returns there, or the pair [(binaryPath, execPath)]. *)
Definition Update (flt : faults) (umask : Z) (staged : result (string * string))
  (fs : gmap string file) : update_outcome :=
  match staged with
  | Err err => {| fs_after := fs; ops := []; returned := Some err |}
  | Ok (binaryPath, execPath) =>
      (* Backup current binary *)
      let backupPath := execPath +:+ ".backup" in
      let '(fs1, err) := Rename (f_backup flt) execPath backupPath fs in
      let log1 := [OpRename execPath backupPath] in
      match err with
      | Some err =>
          {| fs_after := fs1; ops := log1;
             returned := Some ("failed to backup current binary: " +:+ err) |}
      | None =>
          (* Copy new binary *)
          let '(fs2, err) := copyFile (f_copy flt) umask binaryPath execPath fs1 in
          let log2 := log1 ++ [OpCopy binaryPath execPath] in
          match err with
          | Some err =>
              (* Restore backup on failure *)
              let '(fs3, _) := Rename (f_restore flt) backupPath execPath fs2 in
              {| fs_after := fs3; ops := log2 ++ [OpRename backupPath execPath];
                 returned := Some ("failed to install new binary: " +:+ err) |}
          | None =>
              (* Make executable *)
              let '(fs3, err) := Chmod (f_chmod flt) execPath 493 fs2 in
              let log3 := log2 ++ [OpChmod execPath 493] in
              match err with
              | Some err =>
                  (* Restore backup on failure *)
                  let '(fs4, _) := Remove (f_remove_exec flt) execPath fs3 in
                  let '(fs5, _) := Rename (f_restore flt) backupPath execPath fs4 in
                  {| fs_after := fs5;
                     ops := log3 ++ [OpRemove execPath; OpRename backupPath execPath];
                     returned := Some ("failed to set permissions: " +:+ err) |}
              | None =>
                  (* Remove backup *)
                  let '(fs4, _) := Remove (f_remove_backup flt) backupPath fs3 in
                  {| fs_after := fs4; ops := log3 ++ [OpRemove backupPath];
                     returned := None |}
              end
          end
      end
  end.

(** [GetAssetForPlatform]; [GOOS] and [GOARCH] are [runtime.GOOS] and
    [runtime.GOARCH].  A [for] loop that returns the first asset it accepts
    is [List.find]. *)
Definition GetAssetForPlatform (GOOS GOARCH : string) (release : Release)
  : result Asset :=
  let os := GOOS in
  let arch := GOARCH in
  (* Expected asset name pattern: wte-linux-amd64.tar.gz *)
  let expectedName := "wte-" +:+ os +:+ "-" +:+ arch +:+ ".tar.gz" in
  let expectedNameAlt := "wte_" +:+ os +:+ "_" +:+ arch +:+ ".tar.gz" in
  match List.find (fun asset => String.eqb (Asset_Name asset) expectedName
                                || String.eqb (Asset_Name asset) expectedNameAlt)
                  (Assets release) with
  | Some asset => Ok asset
  | None =>
      (* Try without extension for direct binary *)
      let expectedBinary := "wte-" +:+ os +:+ "-" +:+ arch in
      let expectedBinaryAlt := "wte_" +:+ os +:+ "_" +:+ arch in
      match List.find (fun asset => String.eqb (Asset_Name asset) expectedBinary
                                    || String.eqb (Asset_Name asset) expectedBinaryAlt)
                      (Assets release) with
      | Some asset => Ok asset
      | None => Err ("no asset found for " +:+ os +:+ "/" +:+ arch)
      end
  end.

(** [GetReleaseNotes] *)
Definition GetReleaseNotes (release : Release) : string :=
  if String.eqb (Body release) "" then "No release notes available."
  else Body release.

End updater.

(** ** package config (types, defaults) *)

Module config.

Record GOSTConfig := {
  Version : string;
  BinaryPath : string;
  ConfigDir : string;
  ConfigFile : string
}.

Record AuthConfig := {
  Auth_Enabled : bool;
  Username : string;
  Auth_Password : string
}.

Record HTTPConfig := {
  HTTP_Enabled : bool;
  HTTP_Port : Z;
  HTTP_Auth : AuthConfig
}.

Record HTTPSConfig := {
  HTTPS_Enabled : bool;
  HTTPS_Port : Z;
  CertPath : string;
  KeyPath : string;
  HTTPS_Auth : AuthConfig
}.

Record ShadowsocksConfig := {
  SS_Enabled : bool;
  SS_Port : Z;
  Method : string;
  SS_Password : string
}.

Record FirewallConfig := { AutoConfigure : bool }.

Record LoggingConfig := { Level : string }.

Record Config := {
  GOST : GOSTConfig;
  HTTP : HTTPConfig;
  HTTPS : HTTPSConfig;
  Shadowsocks : ShadowsocksConfig;
  Firewall : FirewallConfig;
  Logging : LoggingConfig
}.

Record PortInfo := {
  Port : Z;
  Protocol : string;
  Service : string
}.

(** [GetRequiredPorts]: the ports that need to be opened. *)
Definition GetRequiredPorts (c : Config) : list PortInfo :=
  let ports := [] in
  let ports :=
    if HTTP_Enabled (HTTP c)
    then ports ++ [{| Port := HTTP_Port (HTTP c); Protocol := "tcp"; Service := "HTTP Proxy" |}]
    else ports in
  let ports :=
    if HTTPS_Enabled (HTTPS c)
    then ports ++ [{| Port := HTTPS_Port (HTTPS c); Protocol := "tcp"; Service := "HTTPS Proxy" |}]
    else ports in
  let ports :=
    if SS_Enabled (Shadowsocks c)
    then (ports ++ [{| Port := SS_Port (Shadowsocks c); Protocol := "tcp"; Service := "Shadowsocks" |}])
           ++ [{| Port := SS_Port (Shadowsocks c); Protocol := "udp"; Service := "Shadowsocks" |}]
    else ports in
  ports.

Definition DefaultGOSTVersion : string := "3.0.0-rc10".
Definition DefaultGOSTBinaryPath : string := "/usr/local/bin/gost".
Definition DefaultConfigDir : string := "/etc/wte".
Definition DefaultGOSTConfigDir : string := "/etc/gost".
Definition DefaultGOSTConfigFile : string := "/etc/gost/config.yaml".
Definition DefaultHTTPPort : Z := 8080.
Definition DefaultHTTPSPort : Z := 8443.
Definition DefaultShadowsocksPort : Z := 9500.
Definition DefaultShadowsocksMethod : string := "aes-128-gcm".
Definition DefaultUsername : string := "proxyuser".
Definition DefaultLogLevel : string := "info".
Definition CredentialsFile : string := "/root/proxy-credentials.txt".
Definition SystemdServiceFile : string := "/etc/systemd/system/gost.service".
Definition WTEConfigFile : string := "/etc/wte/config.yaml".

(** [DefaultConfig]: a new [Config] with default values. *)
Definition DefaultConfig : Config :=
  {| GOST := {| Version := DefaultGOSTVersion;
                BinaryPath := DefaultGOSTBinaryPath;
                ConfigDir := DefaultGOSTConfigDir;
                ConfigFile := DefaultGOSTConfigFile |};
     HTTP := {| HTTP_Enabled := true;
                HTTP_Port := DefaultHTTPPort;
                HTTP_Auth := {| Auth_Enabled := true;
                                Username := DefaultUsername;
                                Auth_Password := "" |} |};
     HTTPS := {| HTTPS_Enabled := false;
                 HTTPS_Port := DefaultHTTPSPort;
                 CertPath := DefaultGOSTConfigDir +:+ "/cert.pem";
                 KeyPath := DefaultGOSTConfigDir +:+ "/key.pem";
                 HTTPS_Auth := {| Auth_Enabled := true;
                                  Username := DefaultUsername;
                                  Auth_Password := "" |} |};
     Shadowsocks := {| SS_Enabled := true;
                       SS_Port := DefaultShadowsocksPort;
                       Method := DefaultShadowsocksMethod;
                       SS_Password := "" |};
     Firewall := {| AutoConfigure := true |};
     Logging := {| Level := DefaultLogLevel |} |}.

(** *** loader.go: the configuration file

    The YAML library and viper are outside the repository.  A YAML file is
    represented by the document it holds (scalars and nested mappings), as
    [yaml.Marshal] produces it from the [yaml] tags and as viper reads it
    back; viper looks a key up, in this order, among the values set with
    [viper.Set], the environment ([AutomaticEnv], prefix [WTE], [.] replaced
    by [_]), the configuration file and the defaults, and
    [viper.Unmarshal] decodes what it finds by the [mapstructure] tags with
    weakly typed input.  Scalars are null, booleans, integers and strings.
    A key whose path runs into a scalar, or ends on a mapping, counts as
    absent from the file; no file written by [SaveTo] has such a key. *)

Inductive scalar :=
| Null
| Bool (b : bool)
| Int (n : Z)
| Str (s : string).

#[warnings="-register-all"] Inductive node :=
| Scalar (v : scalar)
| Mapping (entries : list (string * node)).

Fixpoint assoc {A} (k : string) (l : list (string * A)) : option A :=
  match l with
  | [] => None
  | (k', a) :: l' => if String.eqb k k' then Some a else assoc k l'
  end.

(** The node at a path of keys. *)
Fixpoint at_path (path : list string) (n : node) : option node :=
  match path with
  | [] => Some n
  | k :: path' =>
      match n with
      | Mapping entries =>
          match assoc k entries with
          | Some n' => at_path path' n'
          | None => None
          end
      | Scalar _ => None
      end
  end.

Definition yaml_AuthConfig (a : AuthConfig) : node :=
  Mapping [("enabled", Scalar (Bool (Auth_Enabled a)));
           ("username", Scalar (Str (Username a)));
           ("password", Scalar (Str (Auth_Password a)))].

(** [yaml.Marshal(cfg)], by the [yaml] tags of the structs; a nil pointer
    gives [null]. *)
Definition yaml_Marshal (cfg : option Config) : node :=
  match cfg with
  | None => Scalar Null
  | Some c =>
      Mapping
        [("gost", Mapping [("version", Scalar (Str (Version (GOST c))));
                           ("binary_path", Scalar (Str (BinaryPath (GOST c))));
                           ("config_dir", Scalar (Str (ConfigDir (GOST c))));
                           ("config_file", Scalar (Str (ConfigFile (GOST c))))]);
         ("http", Mapping [("enabled", Scalar (Bool (HTTP_Enabled (HTTP c))));
                           ("port", Scalar (Int (HTTP_Port (HTTP c))));
                           ("auth", yaml_AuthConfig (HTTP_Auth (HTTP c)))]);
         ("https", Mapping [("enabled", Scalar (Bool (HTTPS_Enabled (HTTPS c))));
                            ("port", Scalar (Int (HTTPS_Port (HTTPS c))));
                            ("cert_path", Scalar (Str (CertPath (HTTPS c))));
                            ("key_path", Scalar (Str (KeyPath (HTTPS c))));
                            ("auth", yaml_AuthConfig (HTTPS_Auth (HTTPS c)))]);
         ("shadowsocks",
          Mapping [("enabled", Scalar (Bool (SS_Enabled (Shadowsocks c))));
                   ("port", Scalar (Int (SS_Port (Shadowsocks c))));
                   ("method", Scalar (Str (Method (Shadowsocks c))));
                   ("password", Scalar (Str (SS_Password (Shadowsocks c))))]);
         ("firewall", Mapping [("auto_configure",
                                Scalar (Bool (AutoConfigure (Firewall c))))]);
         ("logging", Mapping [("level", Scalar (Str (Level (Logging c))))])]
  end.

(** The state of the viper singleton. *)
Record Viper := {
  v_override : list (list string * scalar);   (* viper.Set *)
  v_config : option node;                     (* the file read last *)
  v_defaults : list (list string * scalar);   (* viper.SetDefault *)
  v_configType : string                       (* viper.SetConfigType *)
}.

(** The package-level variables of [config], and viper's. *)
Record Globals := {
  cfg : option Config;
  ConfigPath : string;
  viper : Viper
}.

Definition path_eqb (p q : list string) : bool :=
  if decide (p = q) then true else false.

Fixpoint assoc_path {A} (k : list string) (l : list (list string * A)) : option A :=
  match l with
  | [] => None
  | (k', a) :: l' => if path_eqb k k' then Some a else assoc_path k l'
  end.

(** [viper.SetDefault]: the latest default of a key wins. *)
Definition SetDefault (key : list string) (value : scalar) (v : Viper) : Viper :=
  {| v_override := v_override v; v_config := v_config v;
     v_defaults := (key, value) :: v_defaults v;
     v_configType := v_configType v |}.

(** [setDefaults] *)
Definition setDefaults (v : Viper) : Viper :=
  (* GOST defaults *)
  let v := SetDefault ["gost"; "version"] (Str DefaultGOSTVersion) v in
  let v := SetDefault ["gost"; "binary_path"] (Str DefaultGOSTBinaryPath) v in
  let v := SetDefault ["gost"; "config_dir"] (Str DefaultGOSTConfigDir) v in
  let v := SetDefault ["gost"; "config_file"] (Str DefaultGOSTConfigFile) v in
  (* HTTP defaults *)
  let v := SetDefault ["http"; "enabled"] (Bool true) v in
  let v := SetDefault ["http"; "port"] (Int DefaultHTTPPort) v in
  let v := SetDefault ["http"; "auth"; "enabled"] (Bool true) v in
  let v := SetDefault ["http"; "auth"; "username"] (Str DefaultUsername) v in
  let v := SetDefault ["http"; "auth"; "password"] (Str "") v in
  (* HTTPS defaults *)
  let v := SetDefault ["https"; "enabled"] (Bool false) v in
  let v := SetDefault ["https"; "port"] (Int DefaultHTTPSPort) v in
  let v := SetDefault ["https"; "cert_path"] (Str (DefaultGOSTConfigDir +:+ "/cert.pem")) v in
  let v := SetDefault ["https"; "key_path"] (Str (DefaultGOSTConfigDir +:+ "/key.pem")) v in
  let v := SetDefault ["https"; "auth"; "enabled"] (Bool true) v in
  let v := SetDefault ["https"; "auth"; "username"] (Str DefaultUsername) v in
  let v := SetDefault ["https"; "auth"; "password"] (Str "") v in
  (* Shadowsocks defaults *)
  let v := SetDefault ["shadowsocks"; "enabled"] (Bool true) v in
  let v := SetDefault ["shadowsocks"; "port"] (Int DefaultShadowsocksPort) v in
  let v := SetDefault ["shadowsocks"; "method"] (Str DefaultShadowsocksMethod) v in
  let v := SetDefault ["shadowsocks"; "password"] (Str "") v in
  (* Firewall defaults *)
  let v := SetDefault ["firewall"; "auto_configure"] (Bool true) v in
  (* Logging defaults *)
  let v := SetDefault ["logging"; "level"] (Str DefaultLogLevel) v in
  v.

Fixpoint Ext_rev (rpath acc : string) : string :=
  match rpath with
  | EmptyString => ""
  | String c r =>
      if Ascii.eqb c "/" then ""
      else if Ascii.eqb c "." then String "." acc
      else Ext_rev r (String c acc)
  end.

(** [filepath.Ext]: the suffix of the last element of [path] that starts at
    its last dot; empty if there is no dot. *)
Definition Ext (path : string) : string := Ext_rev (String.rev path) "".

(** [%q] of a string without quotes or escapes in it. *)
Definition quote (s : string) : string := Go.bytes [34] +:+ s +:+ Go.bytes [34].

(** [viper.SupportedExts] *)
Definition SupportedExts : list string :=
  ["json"; "toml"; "yaml"; "yml"; "properties"; "props"; "prop"; "hcl";
   "tfvars"; "dotenv"; "env"; "ini"].

(** The format viper reads the file [path] in: the type set with
    [SetConfigType], else the extension of the file. *)
Definition getConfigType (v : Viper) (path : string) : string :=
  if Go.string_ne (v_configType v) "" then v_configType v
  else
    let ext := Ext path in
    if 1 <? String.length ext
    then String.substring 1 (String.length ext - 1) ext
    else "".

Definition upper (c : ascii) : ascii :=
  let n := nat_of_ascii c in
  if (97 <=? n) && (n <=? 122) then ascii_of_nat (n - 32) else c.

Fixpoint ToUpper (s : string) : string :=
  match s with
  | EmptyString => EmptyString
  | String c s' => String (upper c) (ToUpper s')
  end.

(** The environment variable of a key: [WTE_] and the key in upper case
    with [_] between its parts. *)
Definition env_name (key : list string) : string :=
  "WTE_" +:+ ToUpper (String.concat "_" key).

Section Reading.

(** [strconv.ParseInt(s, 0, 0)] and [strconv.ParseBool], which decode the
    strings that stand where a number or a boolean is expected. *)
Variable ParseInt : string -> option Z.
Variable ParseBool : string -> option bool.

(** [os.LookupEnv] *)
Variable env : string -> option string.

(** What viper's decoder of a format other than YAML makes of a file. *)
Variable other_codec : string -> node -> result node.

(** What viper finds for a key. *)
Definition find (v : Viper) (key : list string) : option scalar :=
  match assoc_path key (v_override v) with
  | Some x => Some x
  | None =>
      match (match env (env_name key) with
             | Some val => if String.eqb val "" then None else Some (Str val)
             | None => None
             end) with
      | Some x => Some x
      | None =>
          match (match v_config v with
                 | Some doc =>
                     match at_path key doc with
                     | Some (Scalar x) => Some x
                     | _ => None
                     end
                 | None => None
                 end) with
          | Some x => Some x
          | None => assoc_path key (v_defaults v)
          end
      end
  end.

(** Weakly typed decoding into a [string], an [int] and a [bool] field; a
    key that is not found, or is null, leaves the zero value. *)
Definition decode_string (x : option scalar) : option string :=
  match x with
  | None | Some Null => Some ""
  | Some (Str s) => Some s
  | Some (Int n) => Some (pretty n)
  | Some (Bool b) => Some (if b then "1" else "0")
  end.

Definition decode_int (x : option scalar) : option Z :=
  match x with
  | None | Some Null => Some 0%Z
  | Some (Int n) => Some n
  | Some (Bool b) => Some (if b then 1%Z else 0%Z)
  | Some (Str s) => if String.eqb s "" then Some 0%Z else ParseInt s
  end.

Definition decode_bool (x : option scalar) : option bool :=
  match x with
  | None | Some Null => Some false
  | Some (Bool b) => Some b
  | Some (Int n) => Some (negb (n =? 0)%Z)
  | Some (Str s) => if String.eqb s "" then Some false else ParseBool s
  end.

(** The zero value of [Config]. *)
Definition zero_auth : AuthConfig :=
  {| Auth_Enabled := false; Username := ""; Auth_Password := "" |}.

Definition zero : Config :=
  {| GOST := {| Version := ""; BinaryPath := ""; ConfigDir := ""; ConfigFile := "" |};
     HTTP := {| HTTP_Enabled := false; HTTP_Port := 0; HTTP_Auth := zero_auth |};
     HTTPS := {| HTTPS_Enabled := false; HTTPS_Port := 0; CertPath := "";
                 KeyPath := ""; HTTPS_Auth := zero_auth |};
     Shadowsocks := {| SS_Enabled := false; SS_Port := 0; Method := "";
                       SS_Password := "" |};
     Firewall := {| AutoConfigure := false |};
     Logging := {| Level := "" |} |}.

(** [viper.Unmarshal(cfg)], [cfg] pointing to [c0]: every field is decoded
    by its [mapstructure] tag; a field that cannot be decoded keeps the value
    it has in [c0] and makes the call return an error. *)
Definition Unmarshal (v : Viper) (c0 : Config) : Config * option error :=
  let str key := decode_string (find v key) in
  let int key := decode_int (find v key) in
  let bool key := decode_bool (find v key) in
  let auth (pre : list string) (a0 : AuthConfig) :=
    {| Auth_Enabled := default (Auth_Enabled a0) (bool (pre ++ ["auth"; "enabled"]));
       Username := default (Username a0) (str (pre ++ ["auth"; "username"]));
       Auth_Password := default (Auth_Password a0) (str (pre ++ ["auth"; "password"])) |} in
  let c :=
    {| GOST := {| Version := default (Version (GOST c0)) (str ["gost"; "version"]);
                  BinaryPath := default (BinaryPath (GOST c0)) (str ["gost"; "binary_path"]);
                  ConfigDir := default (ConfigDir (GOST c0)) (str ["gost"; "config_dir"]);
                  ConfigFile := default (ConfigFile (GOST c0)) (str ["gost"; "config_file"]) |};
       HTTP := {| HTTP_Enabled := default (HTTP_Enabled (HTTP c0)) (bool ["http"; "enabled"]);
                  HTTP_Port := default (HTTP_Port (HTTP c0)) (int ["http"; "port"]);
                  HTTP_Auth := auth ["http"] (HTTP_Auth (HTTP c0)) |};
       HTTPS := {| HTTPS_Enabled := default (HTTPS_Enabled (HTTPS c0)) (bool ["https"; "enabled"]);
                   HTTPS_Port := default (HTTPS_Port (HTTPS c0)) (int ["https"; "port"]);
                   CertPath := default (CertPath (HTTPS c0)) (str ["https"; "cert_path"]);
                   KeyPath := default (KeyPath (HTTPS c0)) (str ["https"; "key_path"]);
                   HTTPS_Auth := auth ["https"] (HTTPS_Auth (HTTPS c0)) |};
       Shadowsocks :=
         {| SS_Enabled := default (SS_Enabled (Shadowsocks c0)) (bool ["shadowsocks"; "enabled"]);
            SS_Port := default (SS_Port (Shadowsocks c0)) (int ["shadowsocks"; "port"]);
            Method := default (Method (Shadowsocks c0)) (str ["shadowsocks"; "method"]);
            SS_Password := default (SS_Password (Shadowsocks c0))
                             (str ["shadowsocks"; "password"]) |};
       Firewall := {| AutoConfigure := default (AutoConfigure (Firewall c0))
                                         (bool ["firewall"; "auto_configure"]) |};
       Logging := {| Level := default (Level (Logging c0)) (str ["logging"; "level"]) |} |} in
  let ok :=
    forallb (fun key => bool_decide (is_Some (bool key)))
      [["http"; "enabled"]; ["http"; "auth"; "enabled"]; ["https"; "enabled"];
       ["https"; "auth"; "enabled"]; ["shadowsocks"; "enabled"];
       ["firewall"; "auto_configure"]]
    && forallb (fun key => bool_decide (is_Some (int key)))
         [["http"; "port"]; ["https"; "port"]; ["shadowsocks"; "port"]] in
  (c, if ok then None else Some "cannot decode the configuration").

(** [Init].  [fs] holds the files, each with the YAML document in it;
    [searched] is the file viper finds when no path is given and it searches
    [/etc/wte] and the working directory for a file named [config]. *)
Definition Init (fs : gmap string node) (searched : option node)
  (configPath : string) (g : Globals) : Globals * option error :=
  (* Set defaults *)
  let v := setDefaults (viper g) in
  (* Configure viper *)
  let v := if Go.string_ne configPath "" then v
           else {| v_override := v_override v; v_config := v_config v;
                   v_defaults := v_defaults v; v_configType := "yaml" |} in
  let loaded (doc : node) : Viper :=
    {| v_override := v_override v; v_config := Some doc;
       v_defaults := v_defaults v; v_configType := v_configType v |} in
  (* Try to read config file *)
  let read : result Viper :=
    if Go.string_ne configPath ""
    then
      let configType := getConfigType v configPath in
      if negb (existsb (String.eqb configType) SupportedExts)
      then Err ("Unsupported Config Type " +:+ quote configType)
      else match fs !! configPath with
           | None => Err ("open " +:+ configPath +:+ ": no such file or directory")
           | Some doc =>
               if String.eqb configType "yaml" || String.eqb configType "yml"
               then Ok (loaded doc)
               else match other_codec configType doc with
                    | Ok doc' => Ok (loaded doc')
                    | Err err => Err err
                    end
           end
    else match searched with
         | Some doc => Ok (loaded doc)
         | None => Ok v   (* Config file not found; use defaults *)
         end in
  match read with
  | Err err =>
      ({| cfg := cfg g; ConfigPath := configPath; viper := v |},
       Some ("error reading config file: " +:+ err))
  | Ok v =>
      (* Unmarshal into config struct *)
      let '(c, err) := Unmarshal v zero in
      ({| cfg := Some c; ConfigPath := configPath; viper := v |},
       match err with
       | Some err => Some ("error unmarshaling config: " +:+ err)
       | None => None
       end)
  end.

(** [Set] (a keyword here, hence the underscore); the key is given by its
    parts.  The value goes to viper's overrides and the configuration is
    decoded again, into the struct [cfg] points to. *)
Definition Set_ (key : list string) (value : scalar) (g : Globals)
  : Globals * option error :=
  let v := {| v_override := (key, value) :: v_override (viper g);
              v_config := v_config (viper g);
              v_defaults := v_defaults (viper g);
              v_configType := v_configType (viper g) |} in
  (* Re-unmarshal to update the config struct *)
  match cfg g with
  | None =>
      ({| cfg := None; ConfigPath := ConfigPath g; viper := v |},
       Some "error updating config: result must be addressable (a pointer)")
  | Some c0 =>
      let '(c, err) := Unmarshal v c0 in
      ({| cfg := Some c; ConfigPath := ConfigPath g; viper := v |},
       match err with
       | Some err => Some ("error updating config: " +:+ err)
       | None => None
       end)
  end.

(** [Load] *)
Definition Load (fs : gmap string node) (searched : option node)
  (path : string) (g : Globals) : Globals * option error :=
  Init fs searched path g.

(** [Reload] *)
Definition Reload (fs : gmap string node) (searched : option node) (g : Globals)
  : Globals * option error :=
  Init fs searched (ConfigPath g) g.

End Reading.

(** [SaveTo].  [mkdir] and [write] are the errors of [os.MkdirAll] and
    [os.WriteFile], if any. *)
Definition SaveTo (mkdir write : option error) (path : string) (g : Globals)
  (fs : gmap string node) : gmap string node * option error :=
  (* Ensure directory exists *)
  match mkdir with
  | Some err => (fs, Some ("failed to create config directory: " +:+ err))
  | None =>
      (* Marshal config to YAML *)
      let data := yaml_Marshal (cfg g) in
      (* Write to file *)
      match write with
      | Some err => (fs, Some ("failed to write config file: " +:+ err))
      | None => (<[path := data]> fs, None)
      end
  end.

(** [Save] *)
Definition Save (mkdir write : option error) (g : Globals) (fs : gmap string node)
  : gmap string node * option error :=
  SaveTo mkdir write WTEConfigFile g fs.

(** [Get]: the current configuration, the default one if none was loaded. *)
Definition Get (g : Globals) : Globals * Config :=
  match cfg g with
  | None =>
      ({| cfg := Some DefaultConfig; ConfigPath := ConfigPath g; viper := viper g |},
       DefaultConfig)
  | Some c => (g, c)
  end.

(** [Reset] *)
Definition Reset (g : Globals) : Globals :=
  {| cfg := Some DefaultConfig; ConfigPath := ConfigPath g; viper := viper g |}.

End config.

(** ** package gost: the configuration generator's [Validate] *)

Module gost.

Import config.

(** [fmt.Errorf("port %d conflict: %s and %s", port, service, existing)]. *)
Definition port_conflict (port : Z) (service existing : string) : error :=
  "port " +:+ pretty port +:+ " conflict: " +:+ service +:+ " and " +:+ existing.

Definition no_service : error := "at least one service must be enabled".

(** [(g *ConfigGenerator) Validate]; [cfg] is [g.cfg].  [ports] is the Go map
    from port number to the name of the service that claimed it. *)
Definition Validate (cfg : Config) : option error :=
  if negb (HTTP_Enabled (HTTP cfg)) && negb (HTTPS_Enabled (HTTPS cfg))
     && negb (SS_Enabled (Shadowsocks cfg))
  then Some no_service
  else
    (* Check port conflicts *)
    let ports : gmap Z string := ∅ in
    match (if HTTP_Enabled (HTTP cfg)
           then match ports !! HTTP_Port (HTTP cfg) with
                | Some existing => Err (port_conflict (HTTP_Port (HTTP cfg)) "HTTP" existing)
                | None => Ok (<[HTTP_Port (HTTP cfg) := "HTTP"]> ports)
                end
           else Ok ports) with
    | Err err => Some err
    | Ok ports =>
    match (if HTTPS_Enabled (HTTPS cfg)
           then match ports !! HTTPS_Port (HTTPS cfg) with
                | Some existing => Err (port_conflict (HTTPS_Port (HTTPS cfg)) "HTTPS" existing)
                | None => Ok (<[HTTPS_Port (HTTPS cfg) := "HTTPS"]> ports)
                end
           else Ok ports) with
    | Err err => Some err
    | Ok ports =>
    match (if SS_Enabled (Shadowsocks cfg)
           then match ports !! SS_Port (Shadowsocks cfg) with
                | Some existing =>
                    Err (port_conflict (SS_Port (Shadowsocks cfg)) "Shadowsocks" existing)
                | None => Ok (<[SS_Port (Shadowsocks cfg) := "Shadowsocks"]> ports)
                end
           else Ok ports) with
    | Err err => Some err
    | Ok _ => None
    end end end.

End gost.

(** ** Go's [regexp], as far as [GetPublicIP] needs it

    Regular expressions over bytes without iteration (the pattern of
    [GetPublicIP] has bounded repetition only), matched by Brzozowski
    derivatives.  A pattern anchored by [^] and [$] (no flags) matches a
    string exactly when the enclosed expression matches the whole string. *)

Module regexp.

Inductive Regexp :=
| NoMatch
| EmptyMatch
| CharClass (p : ascii -> bool)
| Concat (r1 r2 : Regexp)
| Alternate (r1 r2 : Regexp).

Fixpoint nullable (r : Regexp) : bool :=
  match r with
  | NoMatch => false
  | EmptyMatch => true
  | CharClass _ => false
  | Concat r1 r2 => nullable r1 && nullable r2
  | Alternate r1 r2 => nullable r1 || nullable r2
  end.

Fixpoint deriv (c : ascii) (r : Regexp) : Regexp :=
  match r with
  | NoMatch => NoMatch
  | EmptyMatch => NoMatch
  | CharClass p => if p c then EmptyMatch else NoMatch
  | Concat r1 r2 =>
      if nullable r1
      then Alternate (Concat (deriv c r1) r2) (deriv c r2)
      else Concat (deriv c r1) r2
  | Alternate r1 r2 => Alternate (deriv c r1) (deriv c r2)
  end.

(** Whole-string match. *)
Fixpoint matches (r : Regexp) (s : string) : bool :=
  match s with
  | EmptyString => nullable r
  | String c s' => matches (deriv c r) s'
  end.

(** [r{n}] *)
Fixpoint Exactly (n : nat) (r : Regexp) : Regexp :=
  match n with
  | O => EmptyMatch
  | S n' => Concat r (Exactly n' r)
  end.

(** [r{0,n}] *)
Fixpoint AtMost (n : nat) (r : Regexp) : Regexp :=
  match n with
  | O => EmptyMatch
  | S n' => Alternate EmptyMatch (Concat r (AtMost n' r))
  end.

(** [r{min,max}] *)
Definition Repeat (min max : nat) (r : Regexp) : Regexp :=
  Concat (Exactly min r) (AtMost (max - min) r).

(** [\d]: an ASCII digit. *)
Definition Digit : Regexp :=
  CharClass (fun c => (48 <=? nat_of_ascii c) && (nat_of_ascii c <=? 57)).

(** A literal byte. *)
Definition Lit (a : ascii) : Regexp := CharClass (Ascii.eqb a).

End regexp.

(** ** package system *)

Module system.

(** *** os.go: operating system and architecture *)

Record OSInfo := {
  OS : string;
  Version : string;
  PrettyName : string;
  Arch : string;
  GOSTArch : string;
  IsSupported : bool;
  PackageManager : string
}.

Definition set_Arch (info : OSInfo) (arch gostArch : string) : OSInfo :=
  {| OS := OS info; Version := Version info; PrettyName := PrettyName info;
     Arch := arch; GOSTArch := gostArch;
     IsSupported := IsSupported info; PackageManager := PackageManager info |}.

(** [detectArch]; [GOARCH] is [runtime.GOARCH].  On success the updated
    [info], otherwise the error ([info] is then left as it was). *)
Definition detectArch (GOARCH : string) (info : OSInfo) : result OSInfo :=
  let arch := GOARCH in
  if String.eqb arch "amd64" then Ok (set_Arch info "x86_64" "amd64")
  else if String.eqb arch "arm64" then Ok (set_Arch info "aarch64" "arm64")
  else if String.eqb arch "arm" then Ok (set_Arch info "armv7l" "armv7")
  else Err ("unsupported architecture: " +:+ arch).

(** The two release files: what [detectOSRelease] and [detectRedHatRelease]
    make of [info] when they read them, and the error they return. *)
Record ReleaseFiles := {
  detectOSRelease : OSInfo -> OSInfo * option error;
  detectRedHatRelease : OSInfo -> OSInfo * option error
}.

Definition member (x : string) (l : list string) : bool :=
  existsb (String.eqb x) l.

(** [setPackageManager]. *)
Definition setPackageManager (info : OSInfo) : OSInfo :=
  let pm :=
    if member (OS info) ["ubuntu"; "debian"; "linuxmint"; "pop"] then "apt"
    else if member (OS info) ["centos"; "rhel"; "rocky"; "almalinux"; "oracle"]
         then (if Go.string_ge (Version info) "8" then "dnf" else "yum")
    else if member (OS info) ["fedora"] then "dnf"
    else if member (OS info) ["arch"; "manjaro"; "endeavouros"] then "pacman"
    else if member (OS info) ["opensuse"; "opensuse-leap"; "opensuse-tumbleweed"]
         then "zypper"
    else if member (OS info) ["alpine"] then "apk"
    else "unknown" in
  {| OS := OS info; Version := Version info; PrettyName := PrettyName info;
     Arch := Arch info; GOSTArch := GOSTArch info;
     IsSupported := IsSupported info; PackageManager := pm |}.

(** [checkSupported]. *)
Definition checkSupported (info : OSInfo) : OSInfo :=
  let supported := ["ubuntu"; "debian"; "centos"; "rhel"; "rocky"; "almalinux";
                    "fedora"; "arch"; "manjaro"] in
  {| OS := OS info; Version := Version info; PrettyName := PrettyName info;
     Arch := Arch info; GOSTArch := GOSTArch info;
     IsSupported := member (OS info) supported;
     PackageManager := PackageManager info |}.

(** [DetectOS]. *)
Definition DetectOS (GOARCH : string) (files : ReleaseFiles) : result OSInfo :=
  let info := {| OS := ""; Version := ""; PrettyName := ""; Arch := GOARCH;
                 GOSTArch := ""; IsSupported := false; PackageManager := "" |} in
  (* Detect architecture *)
  match detectArch GOARCH info with
  | Err err => Err err
  | Ok info =>
      (* Detect OS *)
      let detected :=
        match detectOSRelease files info with
        | (info, None) => Ok info
        | (info, Some _) =>
            (* Try fallback for older systems *)
            match detectRedHatRelease files info with
            | (info, None) => Ok info
            | (_, Some err) => Err ("unable to detect operating system: " +:+ err)
            end
        end in
      match detected with
      | Err err => Err err
      | Ok info =>
          (* Set package manager; check if supported *)
          Ok (checkSupported (setPackageManager info))
      end
  end.

(** *** firewall.go: which firewall is in use *)

Inductive FirewallType :=
| FirewallUFW
| FirewallFirewalld
| FirewallIPTables
| FirewallNone.

Definition FirewallType_string (t : FirewallType) : string :=
  match t with
  | FirewallUFW => "ufw"
  | FirewallFirewalld => "firewalld"
  | FirewallIPTables => "iptables"
  | FirewallNone => "none"
  end.

(** The host as the firewall manager sees it: which commands are on the
    [PATH], which services [systemctl is-active] reports active, which files
    exist, and what a command returns when it is run. *)
Record Host := {
  commandExists : string -> bool;
  isServiceActive : string -> bool;
  FileExists : string -> bool;
  runCommand : string -> list string -> option error;
  getCommandOutput : string -> list string -> result string
}.

(** [detectFirewall]: the value it stores in [fm.firewallType]. *)
Definition detectFirewall (h : Host) : FirewallType :=
  (* Check for UFW (Ubuntu/Debian) *)
  if commandExists h "ufw" then FirewallUFW
  (* Check for firewalld (CentOS/Fedora/RHEL) *)
  else if commandExists h "firewall-cmd" && isServiceActive h "firewalld"
       then FirewallFirewalld
  (* Check for iptables (fallback) *)
  else if commandExists h "iptables" then FirewallIPTables
  else FirewallNone.

(** [%d/%s] *)
Definition port_proto (port : Z) (protocol : string) : string :=
  pretty port +:+ "/" +:+ protocol.

(** [OpenPort]. *)
Definition OpenPort (h : Host) (t : FirewallType) (port : Z) (protocol : string)
  : option error :=
  match t with
  | FirewallUFW => runCommand h "ufw" ["allow"; port_proto port protocol]
  | FirewallFirewalld =>
      runCommand h "firewall-cmd" ["--permanent"; "--add-port"; port_proto port protocol]
  | FirewallIPTables =>
      runCommand h "iptables"
        ["-A"; "INPUT"; "-p"; protocol; "--dport"; pretty port; "-j"; "ACCEPT"]
  | FirewallNone => None
  end.

(** [saveIPTables]. *)
Definition saveIPTables (h : Host) : option error :=
  if commandExists h "netfilter-persistent"
  then runCommand h "netfilter-persistent" ["save"]
  else if FileExists h "/etc/iptables"
  then match getCommandOutput h "iptables-save" [] with
       | Err err => Some err
       | Ok output =>
           runCommand h "sh" ["-c"; "echo '" +:+ output +:+ "' > /etc/iptables/rules.v4"]
       end
  else None.

(** [Apply]. *)
Definition Apply (h : Host) (t : FirewallType) : option error :=
  match t with
  | FirewallUFW => None
  | FirewallFirewalld => runCommand h "firewall-cmd" ["--reload"]
  | FirewallIPTables => saveIPTables h
  | FirewallNone => None
  end.

Fixpoint OpenPorts_loop (h : Host) (t : FirewallType) (ports : list config.PortInfo)
  : option error :=
  match ports with
  | [] => Apply h t
  | port :: rest =>
      match OpenPort h t (config.Port port) (config.Protocol port) with
      | Some err =>
          Some ("failed to open port " +:+ port_proto (config.Port port) (config.Protocol port)
                +:+ ": " +:+ err)
      | None => OpenPorts_loop h t rest
      end
  end.

(** [OpenPorts]. *)
Definition OpenPorts (h : Host) (t : FirewallType) (cfg : config.Config) : option error :=
  OpenPorts_loop h t (config.GetRequiredPorts cfg).

(** *** systemd.go: [Status] *)

Record ServiceStatus := {
  Name : string;
  IsActive : bool;
  IsEnabled : bool
}.

(** [Status].  [is_active] and [is_enabled] say whether
    [systemctl is-active --quiet gost] and [systemctl is-enabled --quiet gost]
    exit with status zero.  The fields read from [systemctl show] are only
    printed and are left out.  The error is always [nil]. *)
Definition Status (is_active is_enabled : bool) : ServiceStatus * option error :=
  ({| Name := "gost"; IsActive := is_active; IsEnabled := is_enabled |}, None).

(** *** network.go: the public IP address *)

(** [IPServices]: the services to query for the public IP. *)
Definition IPServices : list string :=
  [ "https://ifconfig.me";
    "https://icanhazip.com";
    "https://ipinfo.io/ip";
    "https://api.ipify.org";
    "https://ipecho.net/plain" ].

(** [^(\d{1,3}\.){3}\d{1,3}$] *)
Definition ipRegex : regexp.Regexp :=
  regexp.Concat
    (regexp.Exactly 3
       (regexp.Concat (regexp.Repeat 1 3 regexp.Digit) (regexp.Lit ".")))
    (regexp.Repeat 1 3 regexp.Digit).

(** The network: what [client.Get(url)] returns within its ten-second
    timeout (an error, or a response), a response being what
    [io.ReadAll(resp.Body)] returns (an error, or the body). *)
Definition Network : Type := string -> result (result string).

Definition no_public_ip : error := "could not determine public IP address".

Fixpoint GetPublicIP_loop (client : Network) (services : list string)
  : string * option error :=
  match services with
  | [] => ("", Some no_public_ip)
  | service :: rest =>
      match client service with
      | Err _ => GetPublicIP_loop client rest
      | Ok resp =>
          match resp with
          | Err _ => GetPublicIP_loop client rest
          | Ok body =>
              let ip := strings.TrimSpace body in
              if regexp.matches ipRegex ip then (ip, None)
              else GetPublicIP_loop client rest
          end
      end
  end.

(** [GetPublicIP]. *)
Definition GetPublicIP (client : Network) : string * option error :=
  GetPublicIP_loop client IPServices.

End system.

(** ** package system, os.go: the release files *)

Module system_os.

Import system.

Definition set_OS (info : OSInfo) (value : string) : OSInfo :=
  {| OS := value; Version := Version info; PrettyName := PrettyName info;
     Arch := Arch info; GOSTArch := GOSTArch info;
     IsSupported := IsSupported info; PackageManager := PackageManager info |}.

Definition set_Version (info : OSInfo) (value : string) : OSInfo :=
  {| OS := OS info; Version := value; PrettyName := PrettyName info;
     Arch := Arch info; GOSTArch := GOSTArch info;
     IsSupported := IsSupported info; PackageManager := PackageManager info |}.

Definition set_PrettyName (info : OSInfo) (value : string) : OSInfo :=
  {| OS := OS info; Version := Version info; PrettyName := value;
     Arch := Arch info; GOSTArch := GOSTArch info;
     IsSupported := IsSupported info; PackageManager := PackageManager info |}.

(** The body of the loop of [detectOSRelease], for one line. *)
Definition detectOSRelease_line (info : OSInfo) (line : string) : OSInfo :=
  match strings.SplitN line "=" 2 with
  | [key; rest] =>
      let value := strings.Trim rest (Go.bytes [34]) in
      if String.eqb key "ID" then set_OS info value
      else if String.eqb key "VERSION_ID" then set_Version info value
      else if String.eqb key "PRETTY_NAME" then set_PrettyName info value
      else info
  | _ => info
  end.

(** [detectOSRelease].  [file] is [/etc/os-release]: the error of
    [os.Open], or what can be read from the file and the error the read
    ends with, if any. *)
Definition detectOSRelease (file : result (string * option error)) (info : OSInfo)
  : OSInfo * option error :=
  match file with
  | Err err => (info, Some err)
  | Ok (data, read_err) =>
      let '(lines, scanner_Err) := bufio.Scan data read_err in
      let info := fold_left detectOSRelease_line lines info in
      if String.eqb (OS info) "" then (info, Some "could not determine OS ID")
      else (info, scanner_Err)
  end.

(** [detectRedHatRelease].  [file] is what [os.ReadFile] returns for
    [/etc/redhat-release]. *)
Definition detectRedHatRelease (file : result string) (info : OSInfo)
  : OSInfo * option error :=
  match file with
  | Err err => (info, Some err)
  | Ok content =>
      let info := set_OS info "centos" in
      let info := set_PrettyName info (strings.TrimSpace content) in
      (* Try to extract version *)
      let parts := strings.Fields content in
      let info :=
        match List.find (fun part => strings.Contains part ".") parts with
        | Some part => set_Version info (List.hd "" (strings.Split part "."))
        | None => info
        end in
      (info, None)
  end.

(** The two release files of a machine, as [DetectOS] reads them. *)
Definition release_files (os_release : result (string * option error))
  (redhat_release : result string) : ReleaseFiles :=
  {| system.detectOSRelease := detectOSRelease os_release;
     system.detectRedHatRelease := detectRedHatRelease redhat_release |}.

End system_os.

(** ** package security: password generation *)

Module security.

Definition DefaultPasswordLength : Z := 16.

(** The random source: the bytes it will deliver, which of the calls of
    [rand.Read] fail, and how many bytes and calls have been used up. *)
Record Rand := {
  bytes_at : nat -> ascii;
  fails_at : nat -> bool;
  pos : nat;
  calls : nat
}.

(** The [n] bytes of the tape from position [p] on. *)
Fixpoint take_tape (tape : nat -> ascii) (p n : nat) : string :=
  match n with
  | O => EmptyString
  | S n' => String (tape p) (take_tape tape (S p) n')
  end.

Definition entropy_error : error := "entropy source unavailable".

(** [rand.Read(b)] for a slice [b] of [n] bytes: fills all of [b] or fails. *)
Definition Read (n : nat) (r : Rand) : result string * Rand :=
  if fails_at r (calls r)
  then (Err entropy_error,
        {| bytes_at := bytes_at r; fails_at := fails_at r;
           pos := pos r; calls := S (calls r) |})
  else (Ok (take_tape (bytes_at r) (pos r) n),
        {| bytes_at := bytes_at r; fails_at := fails_at r;
           pos := pos r + n; calls := S (calls r) |}).

(** How a call ends: it returns, it panics, or the recursion is still going
    when the fuel is used up. *)
Inductive outcome (A : Type) : Type :=
| Returns (a : A)
| Panics
| OutOfFuel.
Arguments Returns {A} a.
Arguments Panics {A}.
Arguments OutOfFuel {A}.

(** The three [strings.ReplaceAll] calls of [GeneratePassword]. *)
Definition strip (encoded : string) : string :=
  let encoded := strings.ReplaceAll encoded "+" "" in
  let encoded := strings.ReplaceAll encoded "/" "" in
  let encoded := strings.ReplaceAll encoded "=" "" in
  encoded.

(** [GeneratePassword]; [fuel] bounds the depth of the recursion.  The pair
    in [Returns] is Go's [(string, error)]. *)
Fixpoint GeneratePassword (fuel : nat) (length : Z) (r : Rand)
  : outcome (string * option error) * Rand :=
  match fuel with
  | O => (OutOfFuel, r)
  | S fuel' =>
      let length := if (length <=? 0)%Z then DefaultPasswordLength else length in
      (* Use base64 encoding of random bytes for simplicity *)
      match Read (Z.to_nat length) r with
      | (Err err, r1) =>
          (Returns ("", Some ("failed to generate random bytes: " +:+ err)), r1)
      | (Ok bytes, r1) =>
          let encoded := base64.EncodeToString bytes in
          (* Remove characters that might cause issues in URLs or configs *)
          let encoded := strip encoded in
          let slice (encoded : string) : outcome (string * option error) :=
            (* encoded[:length] *)
            if (length <=? Z.of_nat (String.length encoded))%Z
            then Returns (String.substring 0 (Z.to_nat length) encoded, None)
            else Panics in
          if (Z.of_nat (String.length encoded) <? length)%Z
          then
            (* Recursively generate more if needed *)
            match GeneratePassword fuel' (length - Z.of_nat (String.length encoded)) r1 with
            | (Returns (additional, None), r2) => (slice (encoded +:+ additional), r2)
            | (Returns (_, Some err), r2) => (Returns ("", Some err), r2)
            | (Panics, r2) => (Panics, r2)
            | (OutOfFuel, r2) => (OutOfFuel, r2)
            end
          else (slice encoded, r1)
      end
  end.

(** *** Passwords drawn from a character set *)

Definition LowercaseChars : string := "abcdefghijklmnopqrstuvwxyz".
Definition UppercaseChars : string := "ABCDEFGHIJKLMNOPQRSTUVWXYZ".
Definition DigitChars : string := "0123456789".
Definition SpecialChars : string := "!@#$%^&*()_+-=[]{}|;:,.<>?".
Definition AlphanumChars : string := LowercaseChars +:+ UppercaseChars +:+ DigitChars.
Definition AllChars : string := AlphanumChars +:+ SpecialChars.

(** The random source as [rand.Int] draws from it: the raw value behind each
    call, which of the calls fail, and how many calls were made. *)
Record Ints := {
  raw_at : nat -> Z;
  draw_fails_at : nat -> bool;
  draws : nat
}.

Definition drawn (r : Ints) : Ints :=
  {| raw_at := raw_at r; draw_fails_at := draw_fails_at r; draws := S (draws r) |}.

(** [rand.Int(rand.Reader, max)]: a value of [[0, max)] (each of them for
    some raw value), or the error of the source; panics if [max <= 0]. *)
Definition Int (max : Z) (r : Ints) : outcome (result Z) * Ints :=
  if (max <=? 0)%Z then (Panics, r)
  else if draw_fails_at r (draws r) then (Returns (Err entropy_error), drawn r)
  else (Returns (Ok (raw_at r (draws r) mod max)%Z), drawn r).

(** A function that draws from the source and returns Go's [(T, error)], or
    panics. *)
Definition Gen (A : Type) : Type := Ints -> outcome (result A) * Ints.

Definition ret {A} (a : A) : Gen A := fun r => (Returns (Ok a), r).

(** [v, err := m(); if err != nil { return "", err }] *)
Definition bind {A B} (m : Gen A) (f : A -> Gen B) : Gen B :=
  fun r =>
    match m r with
    | (Returns (Ok a), r1) => f a r1
    | (Returns (Err err), r1) => (Returns (Err err), r1)
    | (Panics, r1) => (Panics, r1)
    | (OutOfFuel, r1) => (OutOfFuel, r1)
    end.

Notation "x <- m ;; k" := (bind m (fun x => k))
  (at level 100, m at next level, right associativity).

(** The loop of [generateFromCharset], [n] rounds to go. *)
Fixpoint generateFromCharset_loop (n : nat) (charset password : string) : Gen string :=
  fun r =>
    match n with
    | O => (Returns (Ok password), r)
    | S n' =>
        match Int (Z.of_nat (String.length charset)) r with
        | (Returns (Ok k), r1) =>
            (* password.WriteByte(charset[n.Int64()]) *)
            match String.get (Z.to_nat k) charset with
            | Some c => generateFromCharset_loop n' charset (password +:+ String c "") r1
            | None => (Panics, r1)
            end
        | (Returns (Err err), r1) =>
            (Returns (Err ("failed to generate random number: " +:+ err)), r1)
        | (Panics, r1) => (Panics, r1)
        | (OutOfFuel, r1) => (OutOfFuel, r1)
        end
    end.

(** [generateFromCharset]: a random string from a given charset. *)
Definition generateFromCharset (length : Z) (charset : string) : Gen string :=
  generateFromCharset_loop (Z.to_nat length) charset "".

(** [randomChar] *)
Definition randomChar (charset : string) : Gen string :=
  generateFromCharset 1 charset.

(** [GenerateAlphanumericPassword] *)
Definition GenerateAlphanumericPassword (length : Z) : Gen string :=
  generateFromCharset length AlphanumChars.

(** The loop of [shuffleString], from index [i] down to 1. *)
Fixpoint shuffleString_loop (i : nat) (runes : list Z) : Gen (list Z) :=
  fun r =>
    match i with
    | O => (Returns (Ok runes), r)
    | S i' =>
        match Int (Z.of_nat i + 1) r with
        | (Returns (Ok j), r1) =>
            (* runes[i], runes[j] = runes[j], runes[i] *)
            match runes !! Z.to_nat j, runes !! i with
            | Some rj, Some ri =>
                shuffleString_loop i' (<[Z.to_nat j := ri]> (<[i := rj]> runes)) r1
            | _, _ => (Panics, r1)
            end
        | (Returns (Err err), r1) => (Returns (Err ("failed to shuffle: " +:+ err)), r1)
        | (Panics, r1) => (Panics, r1)
        | (OutOfFuel, r1) => (OutOfFuel, r1)
        end
    end.

(** [shuffleString] *)
Definition shuffleString (s : string) : Gen string :=
  let runes := utf8.runes s in
  let n := List.length runes in
  runes <- shuffleString_loop (n - 1) runes ;;
  ret (utf8.of_runes runes).

(** The loop of [GenerateSecurePassword] that fills the rest with
    alphanumeric characters, [n] rounds to go. *)
Fixpoint GenerateSecurePassword_fill (n : nat) (password : string) : Gen string :=
  match n with
  | O => ret password
  | S n' =>
      char <- randomChar AlphanumChars ;;
      GenerateSecurePassword_fill n' (password +:+ char)
  end.

(** [GenerateSecurePassword]: a password with mixed character types. *)
Definition GenerateSecurePassword (length : Z) : Gen string :=
  let length := if (length <? 8)%Z then 8%Z else length in
  let password := "" in
  (* Add at least one of each type *)
  lowercase <- randomChar LowercaseChars ;;
  let password := password +:+ lowercase in
  uppercase <- randomChar UppercaseChars ;;
  let password := password +:+ uppercase in
  digit <- randomChar DigitChars ;;
  let password := password +:+ digit in
  (* Fill the rest with alphanumeric characters *)
  let remaining := (length - 3)%Z in
  password <- GenerateSecurePassword_fill (Z.to_nat remaining) password ;;
  (* Shuffle the password *)
  shuffleString password.

(** [IsStrongPassword]: at least eight bytes, and a lower-case letter, an
    upper-case letter and a digit among its runes. *)
Definition IsStrongPassword (password : string) : bool :=
  if String.length password <? 8 then false
  else
    let '(hasLower, hasUpper, hasDigit) :=
      fold_left
        (fun '(hasLower, hasUpper, hasDigit) (c : Z) =>
           if (97 <=? c)%Z && (c <=? 122)%Z then (true, hasUpper, hasDigit)
           else if (65 <=? c)%Z && (c <=? 90)%Z then (hasLower, true, hasDigit)
           else if (48 <=? c)%Z && (c <=? 57)%Z then (hasLower, hasUpper, true)
           else (hasLower, hasUpper, hasDigit))
        (utf8.runes password) (false, false, false) in
    hasLower && hasUpper && hasDigit.

(** *** Random tokens *)

(** [GenerateRandomBytes]; [make([]byte, n)] panics for a negative [n]. *)
Definition GenerateRandomBytes (n : Z) (r : Rand) : outcome (result string) * Rand :=
  if (n <? 0)%Z then (Panics, r)
  else
    match Read (Z.to_nat n) r with
    | (Err err, r1) => (Returns (Err ("failed to generate random bytes: " +:+ err)), r1)
    | (Ok bytes, r1) => (Returns (Ok bytes), r1)
    end.

(** [GenerateBase64Token] *)
Definition GenerateBase64Token (byteLength : Z) (r : Rand)
  : outcome (result string) * Rand :=
  match GenerateRandomBytes byteLength r with
  | (Returns (Ok bytes), r1) => (Returns (Ok (base64.EncodeToString bytes)), r1)
  | other => other
  end.

(** [GenerateURLSafeToken] *)
Definition GenerateURLSafeToken (byteLength : Z) (r : Rand)
  : outcome (result string) * Rand :=
  match GenerateRandomBytes byteLength r with
  | (Returns (Ok bytes), r1) => (Returns (Ok (base64.URLEncoding_EncodeToString bytes)), r1)
  | other => other
  end.

End security.

(** ** package cli: the install sequence ([runInstall]) *)

Module cli.

Import config.

(** The calls of [runInstall] that can return an error. *)
Inductive step :=
| CheckRoot                (* checkRoot() *)
| DetectOS                 (* system.DetectOS() *)
| GetPublicIP              (* system.GetPublicIP() *)
| GenerateHTTPPassword     (* security.GeneratePassword(16), HTTP *)
| GenerateSSPassword       (* security.GeneratePassword(16), Shadowsocks *)
| Stop                     (* systemd.Stop(), existing installation *)
| Backup                   (* configGen.Backup(), existing installation *)
| Install                  (* installer.Install() *)
| GenerateSelfSignedCert   (* security.GenerateSelfSignedCert(certOpts) *)
| Validate                 (* configGen.Validate() *)
| Generate                 (* configGen.Generate() *)
| SaveTo                   (* config.SaveTo(config.WTEConfigFile) *)
| CreateService            (* systemd.CreateService(cfg) *)
| DaemonReload             (* systemd.DaemonReload() *)
| Enable                   (* systemd.Enable() *)
| Start                    (* systemd.Start() *)
| OpenPorts                (* firewall.OpenPorts(cfg) *)
| SaveCredentials.         (* credsMgr.Save() *)

(** What a run leaves in its log: a call with the error it returned, a
    [ui.Warning], and the final [printInstallSummary]. *)
Inductive event :=
| Invoke (s : step) (err : option error)
| Warning (msg : string)
| Summary (cfg : Config) (publicIP : string).

(** The command-line flags of [wte install]. *)
Record Flags := {
  installHTTPPort : Z;
  installHTTPUser : string;
  installHTTPPass : string;
  installHTTPNoAuth : bool;
  installSSEnabled : bool;
  installSSPort : Z;
  installSSPassword : string;
  installSSMethod : string;
  installHTTPSEnabled : bool;
  installHTTPSPort : Z;
  installGOSTVersion : string;
  installSkipFirewall : bool
}.

(** The machine the command runs on: what each call outside the process
    answers. *)
Record World := {
  euid : Z;                              (* os.Geteuid() *)
  GOARCH : string;                       (* runtime.GOARCH *)
  files : system.ReleaseFiles;
  client : system.Network;
  http_password : result string;         (* GeneratePassword(16) for HTTP *)
  ss_password : result string;           (* GeneratePassword(16) for Shadowsocks *)
  installed : bool;                      (* installer.IsInstalled() *)
  was_active : bool;                     (* gost active before the install *)
  was_enabled : bool;
  stop : option error;
  backup : result string;
  install : option error;
  certificate : option error;
  generate : option error;
  save_config : option error;
  create_service : option error;
  daemon_reload : option error;
  enable : option error;
  start : option error;
  now_active : bool;                     (* gost active after the start *)
  now_enabled : bool;
  host : system.Host;
  save_credentials : option error
}.

(** The log of a run and what it returns. *)
Definition M (A : Type) : Type := list event * result A.

Definition ret {A} (a : A) : M A := ([], Ok a).

Definition bind {A B} (m : M A) (f : A -> M B) : M B :=
  match m with
  | (log, Err e) => (log, Err e)
  | (log, Ok a) => let '(log', r) := f a in (log ++ log', r)
  end.

Notation "x <- m ;; k" := (bind m (fun x => k))
  (at level 100, m at next level, right associativity).
Notation "m ;;; k" := (bind m (fun _ => k))
  (at level 100, right associativity).

(** [if err := call(); err != nil { return fmt.Errorf(prefix + "%w", err) }] *)
Definition must (s : step) (prefix : string) (err : option error) : M unit :=
  ([Invoke s err],
   match err with
   | Some err => Err (prefix +:+ err)
   | None => Ok tt
   end).

(** [v, err := call(); if err != nil { return fmt.Errorf(prefix + "%w", err) }] *)
Definition must_get {A} (s : step) (prefix : string) (r : result A) : M A :=
  ([Invoke s (result_err r)],
   match r with
   | Err err => Err (prefix +:+ err)
   | Ok a => Ok a
   end).

(** A call whose error the caller looks at itself. *)
Definition observe (s : step) (err : option error) : M unit :=
  ([Invoke s err], Ok tt).

(** [ui.Warning] *)
Definition warning (msg : string) : M unit := ([Warning msg], Ok tt).

(** [checkRoot] *)
Definition checkRoot (w : World) : option error :=
  if negb (euid w =? 0)%Z then Some "this command must be run as root" else None.

(** Step 1: detect OS. *)
Definition runInstall_step1 (w : World) : M system.OSInfo :=
  osInfo <- must_get DetectOS "failed to detect OS: "
              (system.DetectOS (GOARCH w) (files w)) ;;
  (if negb (system.IsSupported osInfo)
   then warning ("OS '" +:+ system.OS osInfo +:+ "' is not officially tested")
   else ret tt) ;;;
  ret osInfo.

(** Step 2: get public IP. *)
Definition runInstall_step2 (w : World) : M string :=
  let '(publicIP, err) := system.GetPublicIP (client w) in
  observe GetPublicIP err ;;;
  match err with
  | Some err =>
      warning ("Could not detect public IP: " +:+ err) ;;;
      ret "YOUR_SERVER_IP"
  | None => ret publicIP
  end.

Definition set_HTTP_Password (cfg : Config) (pass : string) : Config :=
  {| GOST := GOST cfg;
     HTTP := {| HTTP_Enabled := HTTP_Enabled (HTTP cfg);
                HTTP_Port := HTTP_Port (HTTP cfg);
                HTTP_Auth := {| Auth_Enabled := Auth_Enabled (HTTP_Auth (HTTP cfg));
                                Username := Username (HTTP_Auth (HTTP cfg));
                                Auth_Password := pass |} |};
     HTTPS := HTTPS cfg; Shadowsocks := Shadowsocks cfg;
     Firewall := Firewall cfg; Logging := Logging cfg |}.

Definition set_SS_Password (cfg : Config) (pass : string) : Config :=
  {| GOST := GOST cfg; HTTP := HTTP cfg; HTTPS := HTTPS cfg;
     Shadowsocks := {| SS_Enabled := SS_Enabled (Shadowsocks cfg);
                       SS_Port := SS_Port (Shadowsocks cfg);
                       Method := Method (Shadowsocks cfg);
                       SS_Password := pass |};
     Firewall := Firewall cfg; Logging := Logging cfg |}.

Definition set_HTTPS_Auth (cfg : Config) (auth : AuthConfig) : Config :=
  {| GOST := GOST cfg; HTTP := HTTP cfg;
     HTTPS := {| HTTPS_Enabled := HTTPS_Enabled (HTTPS cfg);
                 HTTPS_Port := HTTPS_Port (HTTPS cfg);
                 CertPath := CertPath (HTTPS cfg);
                 KeyPath := KeyPath (HTTPS cfg);
                 HTTPS_Auth := auth |};
     Shadowsocks := Shadowsocks cfg;
     Firewall := Firewall cfg; Logging := Logging cfg |}.

(** The default configuration with the command-line options applied. *)
Definition apply_flags (f : Flags) : Config :=
  let cfg := DefaultConfig in
  {| GOST := {| Version := installGOSTVersion f;
                BinaryPath := BinaryPath (GOST cfg);
                ConfigDir := ConfigDir (GOST cfg);
                ConfigFile := ConfigFile (GOST cfg) |};
     HTTP := {| HTTP_Enabled := HTTP_Enabled (HTTP cfg);
                HTTP_Port := installHTTPPort f;
                HTTP_Auth := {| Auth_Enabled := negb (installHTTPNoAuth f);
                                Username := installHTTPUser f;
                                Auth_Password := Auth_Password (HTTP_Auth (HTTP cfg)) |} |};
     HTTPS := {| HTTPS_Enabled := installHTTPSEnabled f;
                 HTTPS_Port := installHTTPSPort f;
                 CertPath := CertPath (HTTPS cfg);
                 KeyPath := KeyPath (HTTPS cfg);
                 HTTPS_Auth := HTTPS_Auth (HTTPS cfg) |};
     Shadowsocks := {| SS_Enabled := installSSEnabled f;
                       SS_Port := installSSPort f;
                       Method := installSSMethod f;
                       SS_Password := SS_Password (Shadowsocks cfg) |};
     Firewall := {| AutoConfigure := negb (installSkipFirewall f) |};
     Logging := Logging cfg |}.

(** Step 3: prepare configuration. *)
Definition runInstall_step3 (f : Flags) (w : World) : M Config :=
  let cfg := apply_flags f in
  (* Generate passwords if needed *)
  cfg <- (if Auth_Enabled (HTTP_Auth (HTTP cfg))
          then if Go.string_ne (installHTTPPass f) ""
               then ret (set_HTTP_Password cfg (installHTTPPass f))
               else pass <- must_get GenerateHTTPPassword
                              "failed to generate HTTP password: " (http_password w) ;;
                    ret (set_HTTP_Password cfg pass)
          else ret cfg) ;;
  cfg <- (if SS_Enabled (Shadowsocks cfg)
          then if Go.string_ne (installSSPassword f) ""
               then ret (set_SS_Password cfg (installSSPassword f))
               else pass <- must_get GenerateSSPassword
                              "failed to generate Shadowsocks password: " (ss_password w) ;;
                    ret (set_SS_Password cfg pass)
          else ret cfg) ;;
  (* Use same password for HTTPS *)
  ret (set_HTTPS_Auth cfg (HTTP_Auth (HTTP cfg))).

(** Step 4: check existing installation. *)
Definition runInstall_step4 (w : World) : M unit :=
  if installed w
  then
    warning "Existing GOST installation detected" ;;;
    (* Stop service if running *)
    (let '(status, _) := system.Status (was_active w) (was_enabled w) in
     if system.IsActive status
     then observe Stop (stop w) ;;;
          match stop w with
          | Some err => warning ("Could not stop service: " +:+ err)
          | None => ret tt
          end
     else ret tt) ;;;
    (* Backup config *)
    observe Backup (result_err (backup w)) ;;;
    match backup w with
    | Err err => warning ("Could not backup configuration: " +:+ err)
    | Ok _ => ret tt
    end
  else ret tt.

(** Step 5: install GOST. *)
Definition runInstall_step5 (w : World) : M unit :=
  must Install "failed to install GOST: " (install w).

(** Step 6: generate TLS certificates (if HTTPS enabled). *)
Definition runInstall_step6 (w : World) (cfg : Config) : M unit :=
  if HTTPS_Enabled (HTTPS cfg)
  then must GenerateSelfSignedCert "failed to generate certificate: " (certificate w)
  else ret tt.

(** Step 7: generate GOST configuration; save WTE configuration. *)
Definition runInstall_step7 (w : World) (cfg : Config) : M unit :=
  must Validate "configuration validation failed: " (gost.Validate cfg) ;;;
  must Generate "failed to generate configuration: " (generate w) ;;;
  observe SaveTo (save_config w) ;;;
  match save_config w with
  | Some err => warning ("Could not save WTE configuration: " +:+ err)
  | None => ret tt
  end.

(** Step 8: create and start systemd service. *)
Definition runInstall_step8 (w : World) : M unit :=
  must CreateService "failed to create systemd service: " (create_service w) ;;;
  must DaemonReload "failed to reload systemd: " (daemon_reload w) ;;;
  must Enable "failed to enable service: " (enable w) ;;;
  must Start "failed to start service: " (start w) ;;;
  (* Verify service status *)
  let '(status, err) := system.Status (now_active w) (now_enabled w) in
  match err with
  | Some err => warning ("Could not get service status: " +:+ err)
  | None => ret tt
  end.

(** Step 9: configure firewall. *)
Definition runInstall_step9 (w : World) (cfg : Config) : M unit :=
  if AutoConfigure (Firewall cfg)
  then
    let firewall := system.detectFirewall (host w) in
    let err := system.OpenPorts (host w) firewall cfg in
    observe OpenPorts err ;;;
    match err with
    | Some err => warning ("Failed to configure firewall: " +:+ err)
    | None => ret tt
    end
  else ret tt.

(** Save credentials. *)
Definition runInstall_credentials (w : World) : M unit :=
  observe SaveCredentials (save_credentials w) ;;;
  match save_credentials w with
  | Some err => warning ("Could not save credentials file: " +:+ err)
  | None => ret tt
  end.

(** [printInstallSummary(cfg, publicIP)] *)
Definition printInstallSummary (cfg : Config) (publicIP : string) : M unit :=
  ([Summary cfg publicIP], Ok tt).

(** [runInstall] *)
Definition runInstall (f : Flags) (w : World) : M unit :=
  (* Check root *)
  must CheckRoot "" (checkRoot w) ;;;
  osInfo <- runInstall_step1 w ;;
  publicIP <- runInstall_step2 w ;;
  cfg <- runInstall_step3 f w ;;
  runInstall_step4 w ;;;
  runInstall_step5 w ;;;
  runInstall_step6 w cfg ;;;
  runInstall_step7 w cfg ;;;
  runInstall_step8 w ;;;
  runInstall_step9 w cfg ;;;
  runInstall_credentials w ;;;
  (* Print summary *)
  printInstallSummary cfg publicIP ;;;
  ret tt.

(** *** The files the other commands remove

    The state is the set of the regular files that exist; directories are
    not part of it.  [os.Remove] fails on a file that does not exist, with
    an error [os.IsNotExist] recognises, and on a file the machine does not
    let go ([remove_fault]). *)

Record os_error := {
  IsNotExist : bool;
  Error : error
}.

(** [os.Remove] *)
Definition os_Remove (remove_fault : string -> option error) (name : string)
  (files : gset string) : gset string * option os_error :=
  if bool_decide (name ∈ files)
  then match remove_fault name with
       | Some e => (files, Some {| IsNotExist := false;
                                   Error := "remove " +:+ name +:+ ": " +:+ e |})
       | None => (files ∖ {[ name ]}, None)
       end
  else (files, Some {| IsNotExist := true;
                       Error := "remove " +:+ name +:+ ": no such file or directory" |}).

(** [system.FileExists], for regular files. *)
Definition FileExists (name : string) (files : gset string) : bool :=
  bool_decide (name ∈ files).

(** *** [wte uninstall] *)

Record UninstallFlags := {
  uninstallForce : bool;
  uninstallKeepCreds : bool
}.

(** The machine [runUninstall] runs on. *)
Record UninstallWorld := {
  un_euid : Z;                               (* os.Geteuid() *)
  un_confirm : bool;                         (* the answer to ui.Confirm *)
  un_GOARCH : string;
  un_release : system.ReleaseFiles;
  un_is_active : bool;                       (* systemctl is-active --quiet gost *)
  un_is_enabled : bool;                      (* systemctl is-enabled --quiet gost *)
  un_systemctl : list string -> option error; (* the other calls of systemctl *)
  un_remove_fault : string -> option error
}.

(** The files, and the warnings printed so far. *)
Definition UninstallState : Type := gset string * list string.

Definition warn (msg : string) (st : UninstallState) : UninstallState :=
  (fst st, snd st ++ [msg]).

(** [(m *SystemdManager) Remove] *)
Definition systemd_Remove (w : UninstallWorld) (files : gset string)
  : gset string * option error :=
  if negb (FileExists config.SystemdServiceFile files) then (files, None)
  else
    (* Stop and disable first (ignore errors as service might not be running) *)
    let _ := un_systemctl w ["stop"; "gost"] in
    let _ := un_systemctl w ["disable"; "gost"] in
    (* Remove service file *)
    match os_Remove (un_remove_fault w) config.SystemdServiceFile files with
    | (files, Some err) => (files, Some ("failed to remove service file: " +:+ Error err))
    | (files, None) =>
        (* Reload daemon *)
        (files, un_systemctl w ["daemon-reload"])
    end.

(** [(i *Installer) Uninstall] *)
Definition Installer_Uninstall (w : UninstallWorld) (cfg : Config) (files : gset string)
  : gset string * option error :=
  if negb (FileExists (BinaryPath (GOST cfg)) files) then (files, None)
  else
    match os_Remove (un_remove_fault w) (BinaryPath (GOST cfg)) files with
    | (files, Some err) => (files, Some ("failed to remove GOST binary: " +:+ Error err))
    | (files, None) => (files, None)
    end.

(** [err != nil && !os.IsNotExist(err)]: the error, if it is one that
    counts. *)
Definition fatal (err : option os_error) : option error :=
  match err with
  | Some err => if negb (IsNotExist err) then Some (Error err) else None
  | None => None
  end.

(** [(g *ConfigGenerator) Remove]; the directory it removes when it is left
    empty is not part of the state. *)
Definition ConfigGenerator_Remove (w : UninstallWorld) (cfg : Config)
  (files : gset string) : gset string * option error :=
  let '(files, err) := os_Remove (un_remove_fault w) (ConfigFile (GOST cfg)) files in
  match fatal err with
  | Some err => (files, Some ("failed to remove config file: " +:+ err))
  | None => (files, None)
  end.

(** [security.CertificateExists] *)
Definition CertificateExists (certPath keyPath : string) (files : gset string) : bool :=
  if negb (FileExists certPath files) then false
  else if negb (FileExists keyPath files) then false
  else true.

(** [security.RemoveCertificates] *)
Definition RemoveCertificates (w : UninstallWorld) (certPath keyPath : string)
  (files : gset string) : gset string * option error :=
  let '(files, err) := os_Remove (un_remove_fault w) certPath files in
  match fatal err with
  | Some err => (files, Some err)
  | None =>
      let '(files, err) := os_Remove (un_remove_fault w) keyPath files in
      match fatal err with
      | Some err => (files, Some err)
      | None => (files, None)
      end
  end.

(** [(m *CredentialsManager) Remove] *)
Definition CredentialsManager_Remove (w : UninstallWorld) (files : gset string)
  : gset string * option error :=
  let '(files, err) := os_Remove (un_remove_fault w) CredentialsFile files in
  match fatal err with
  | Some err => (files, Some ("failed to remove credentials file: " +:+ err))
  | None => (files, None)
  end.

(** [if err := call(); err != nil { ui.Warning(msg, err) }], for a call
    that works on the files. *)
Definition attempt (msg : string) (call : gset string -> gset string * option error)
  (st : UninstallState) : UninstallState :=
  let '(files, err) := call (fst st) in
  match err with
  | Some err => (files, snd st ++ [msg +:+ err])
  | None => (files, snd st)
  end.

(** [runUninstall]; [cfg] is what [config.Get()] returns.  The result is
    the state the run leaves and the error it returns. *)
Definition runUninstall (fl : UninstallFlags) (w : UninstallWorld) (cfg : Config)
  (files : gset string) : UninstallState * option error :=
  let st : UninstallState := (files, []) in
  (* Check root *)
  if negb (un_euid w =? 0)%Z then (st, Some "this command must be run as root")
  else
    (* Confirmation *)
    let st :=
      if negb (uninstallForce fl)
      then warn "This will completely remove the GOST proxy server installation." st
      else st in
    if negb (uninstallForce fl) && negb (un_confirm w) then (st, None)
    else
      let osInfo := system.DetectOS (un_GOARCH w) (un_release w) in
      let installer := match osInfo with Ok _ => true | Err _ => false end in
      (* Step 1: Stop service *)
      let '(status, _) := system.Status (un_is_active w) (un_is_enabled w) in
      let st :=
        if system.IsActive status
        then attempt "Could not stop service: "
               (fun files => (files, un_systemctl w ["stop"; "gost"])) st
        else st in
      (* Step 2: Disable service *)
      let st :=
        if system.IsEnabled status
        then attempt "Could not disable service: "
               (fun files => (files, un_systemctl w ["disable"; "gost"])) st
        else st in
      (* Step 3: Remove systemd service file *)
      let st :=
        if FileExists SystemdServiceFile (fst st)
        then attempt "Could not remove service file: " (systemd_Remove w) st
        else st in
      (* Step 4: Remove GOST binary *)
      let st :=
        if installer && FileExists (BinaryPath (GOST cfg)) (fst st)
        then attempt "Could not remove binary: " (Installer_Uninstall w cfg) st
        else st in
      (* Step 5: Remove configuration *)
      let st := attempt "Could not remove GOST configuration: "
                  (ConfigGenerator_Remove w cfg) st in
      (* Remove WTE config *)
      let st :=
        if FileExists WTEConfigFile (fst st)
        then attempt "Could not remove WTE configuration: "
               (fun files =>
                  match os_Remove (un_remove_fault w) WTEConfigFile files with
                  | (files, Some err) => (files, Some (Error err))
                  | (files, None) => (files, None)
                  end) st
        else st in
      (* Remove TLS certificates if they exist *)
      let st :=
        if CertificateExists (CertPath (HTTPS cfg)) (KeyPath (HTTPS cfg)) (fst st)
        then attempt "Could not remove certificates: "
               (RemoveCertificates w (CertPath (HTTPS cfg)) (KeyPath (HTTPS cfg))) st
        else st in
      (* Step 6: Remove credentials file *)
      let st :=
        if negb (uninstallKeepCreds fl)
        then if FileExists CredentialsFile (fst st)
             then attempt "Could not remove credentials file: "
                    (CredentialsManager_Remove w) st
             else st
        else st in
      (st, None).

End cli.

(** * Part II: the vocabulary of the properties, and sample machines *)

(** ** Self-update: a swap on a full disk *)

Definition swap_old : updater.file :=
  {| updater.content := "old build"; updater.perm := 493 |}.

Definition swap_fs : gmap string updater.file :=
  <["/usr/local/bin/wte" := swap_old]>
    (<["/tmp/wte-update-1/wte" :=
         {| updater.content := "new build"; updater.perm := 420 |}]> ∅).

Definition swap_disk_full : updater.faults :=
  {| updater.f_backup := None;
     updater.f_copy := updater.WriteFails 3 "no space left on device";
     updater.f_chmod := None;
     updater.f_remove_exec := None;
     updater.f_restore := None;
     updater.f_remove_backup := None |}.

(** ** The configuration file *)

(** No value has been set with [viper.Set], nothing has been read yet. *)
Definition fresh_viper : config.Viper :=
  {| config.v_override := []; config.v_config := None; config.v_defaults := [];
     config.v_configType := "" |}.

Definition no_parse_int : string -> option Z := fun _ => None.
Definition no_parse_bool : string -> option bool := fun _ => None.
Definition no_other_codec : string -> config.node -> result config.node :=
  fun _ _ => Err "not a YAML file".

(** An environment that sets the user name of the HTTP proxy. *)
Definition env_with_username (name : string) : option string :=
  if String.eqb name "WTE_HTTP_AUTH_USERNAME" then Some "admin" else None.

(** ** Firewall, architecture, public IP *)

(** A host with [ufw] installed next to a running firewalld. *)
Definition both_firewalls : system.Host :=
  {| system.commandExists := fun name =>
       String.eqb name "ufw" || String.eqb name "firewall-cmd";
     system.isServiceActive := fun name => String.eqb name "firewalld";
     system.FileExists := fun _ => false;
     system.runCommand := fun _ _ => None;
     system.getCommandOutput := fun _ _ => Ok "" |}.

(** The runtime architectures [detectArch] accepts. *)
Definition supported_arch (arch : string) : Prop :=
  exists info info', system.detectArch arch info = Ok info'.

Definition blank_info : system.OSInfo :=
  {| system.OS := ""; system.Version := ""; system.PrettyName := "";
     system.Arch := "riscv64"; system.GOSTArch := "";
     system.IsSupported := false; system.PackageManager := "" |}.

(** The strings a regular expression stands for. *)
Fixpoint lang (r : regexp.Regexp) (s : string) : Prop :=
  match r with
  | regexp.NoMatch => False
  | regexp.EmptyMatch => s = ""
  | regexp.CharClass p => exists c, s = String c "" /\ p c = true
  | regexp.Concat r1 r2 => exists s1 s2, s = s1 +:+ s2 /\ lang r1 s1 /\ lang r2 s2
  | regexp.Alternate r1 r2 => lang r1 s \/ lang r2 s
  end.

Definition is_digit (c : ascii) : Prop := 48 <= nat_of_ascii c <= 57.

Fixpoint all_digits (s : string) : Prop :=
  match s with
  | EmptyString => True
  | String c s' => is_digit c /\ all_digits s'
  end.

(** One to three decimal digits. *)
Definition digits_1_3 (s : string) : Prop :=
  1 <= String.length s <= 3 /\ all_digits s.

(** Four groups of one to three decimal digits, with dots between them. *)
Definition dotted_quad (s : string) : Prop :=
  exists a b c d,
    s = a +:+ "." +:+ b +:+ "." +:+ c +:+ "." +:+ d
    /\ digits_1_3 a /\ digits_1_3 b /\ digits_1_3 c /\ digits_1_3 d.

(** What one service contributes: the trimmed body, if the request and the
    read succeed and the trimmed body is a dotted quad. *)
Definition answer (client : system.Network) (service : string) : option string :=
  match client service with
  | Ok (Ok body) =>
      if regexp.matches system.ipRegex (strings.TrimSpace body)
      then Some (strings.TrimSpace body) else None
  | _ => None
  end.

(** ** Password generation *)

(** [s] without the occurrences of the byte [c]. *)
Fixpoint delete_byte (c : ascii) (s : string) : string :=
  match s with
  | EmptyString => EmptyString
  | String a s' => if Ascii.eqb a c then delete_byte c s' else String a (delete_byte c s')
  end.

(** Whether the byte [c] occurs in [s]. *)
Fixpoint contains (c : ascii) (s : string) : bool :=
  match s with
  | EmptyString => false
  | String a s' => Ascii.eqb a c || contains c s'
  end.

(** None of '+', '/', '=' occurs in [s]. *)
Definition url_safe (s : string) : Prop :=
  contains "+" s = false /\ contains "/" s = false /\ contains "=" s = false.

(** The length [GeneratePassword] works with. *)
Definition effective_length (length : Z) : Z :=
  if (length <=? 0)%Z then security.DefaultPasswordLength else length.

(** The source never delivers a run of bytes whose encoding is stripped
    down to nothing. *)
Definition productive (tape : nat -> ascii) : Prop :=
  forall p n,
    0 < n -> security.strip (base64.EncodeToString (security.take_tape tape p n)) <> "".

(** A source that delivers the byte 'a' for ever and never fails. *)
Definition steady_source : security.Rand :=
  {| security.bytes_at := fun _ => "a"%char;
     security.fails_at := fun _ => false;
     security.pos := 0;
     security.calls := 0 |}.

(** A source that delivers the byte 255 for ever: with a length that is a
    multiple of three every round encodes to slashes only, nothing is left
    after stripping, and the recursion asks for the same length again. *)
Definition stuck_source (p c : nat) : security.Rand :=
  {| security.bytes_at := fun _ => ascii_of_nat 255;
     security.fails_at := fun _ => false;
     security.pos := p;
     security.calls := c |}.

(** ** The install sequence *)






(** The calls of a log, and those among them that returned an error. *)
Fixpoint invoked (log : list cli.event) : list cli.step :=
  match log with
  | [] => []
  | cli.Invoke s _ :: log' => s :: invoked log'
  | _ :: log' => invoked log'
  end.


(** [wte install] with its default flags. *)
Definition default_flags : cli.Flags :=
  {| cli.installHTTPPort := config.DefaultHTTPPort;
     cli.installHTTPUser := config.DefaultUsername;
     cli.installHTTPPass := "";
     cli.installHTTPNoAuth := false;
     cli.installSSEnabled := true;
     cli.installSSPort := config.DefaultShadowsocksPort;
     cli.installSSPassword := "";
     cli.installSSMethod := config.DefaultShadowsocksMethod;
     cli.installHTTPSEnabled := false;
     cli.installHTTPSPort := config.DefaultHTTPSPort;
     cli.installGOSTVersion := config.DefaultGOSTVersion;
     cli.installSkipFirewall := false |}.

(** The release files of an Ubuntu 22.04 host. *)
Definition ubuntu_release : system.ReleaseFiles :=
  {| system.detectOSRelease := fun info =>
       ({| system.OS := "ubuntu"; system.Version := "22.04";
           system.PrettyName := "Ubuntu 22.04.3 LTS";
           system.Arch := system.Arch info; system.GOSTArch := system.GOSTArch info;
           system.IsSupported := system.IsSupported info;
           system.PackageManager := system.PackageManager info |}, None);
     system.detectRedHatRelease := fun info =>
       (info, Some "open /etc/redhat-release: no such file or directory") |}.

(** A fresh Ubuntu host where every call succeeds, except that [/etc/wte]
    cannot be written. *)
Definition readonly_etc : cli.World :=
  {| cli.euid := 0;
     cli.GOARCH := "amd64";
     cli.files := ubuntu_release;
     cli.client := fun _ => Ok (Ok "203.0.113.7");
     cli.http_password := Ok "q7Zk2mXw9LrT4bNc";
     cli.ss_password := Ok "Jd83hsKq0PzmW1aY";
     cli.installed := false;
     cli.was_active := false;
     cli.was_enabled := false;
     cli.stop := None;
     cli.backup := Ok "";
     cli.install := None;
     cli.certificate := None;
     cli.generate := None;
     cli.save_config := Some "mkdir /etc/wte: read-only file system";
     cli.create_service := None;
     cli.daemon_reload := None;
     cli.enable := None;
     cli.start := None;
     cli.now_active := true;
     cli.now_enabled := true;
     cli.host := both_firewalls;
     cli.save_credentials := None |}.

(** ** Strings and runes *)

(** Every byte of [s] satisfies [P]. *)
Fixpoint all_bytes (P : ascii -> Prop) (s : string) : Prop :=
  match s with
  | EmptyString => True
  | String c s' => P c /\ all_bytes P s'
  end.

(** Every byte of [s] occurs in [charset]. *)
Definition over (charset s : string) : Prop :=
  all_bytes (fun c => contains c charset = true) s.

(** [s] is made of bytes below [0x80]. *)
Definition ascii_only (s : string) : Prop :=
  all_bytes (fun c => (utf8.byte c < 128)%Z) s.

(** [s] has a byte between [lo] and [hi]. *)
Definition has_byte (lo hi : Z) (s : string) : Prop :=
  exists c, contains c s = true /\ (lo <= utf8.byte c <= hi)%Z.

(** ** Drawing from the random source *)

Section Drawing.

Import security.

(** The source after some more calls. *)
Definition later (r r' : Ints) : Prop :=
  raw_at r' = raw_at r /\ draw_fails_at r' = draw_fails_at r /\ draws r <= draws r'.

(** The calls made between [r] and [r'] all succeeded. *)
Definition all_drawn (r r' : Ints) : Prop :=
  forall k, draws r <= k < draws r' -> draw_fails_at r k = false.

(** One of the calls made between [r] and [r'] failed. *)
Definition one_failed (r r' : Ints) : Prop :=
  exists k, draws r <= k < draws r' /\ draw_fails_at r k = true.

(** What a function that draws from the source may do: it does not panic;
    it returns a value that satisfies [Q] after calls that all succeeded, or
    an error that satisfies [E] after a call that failed. *)
Definition draws_to {A} (m : Gen A) (E : error -> Prop) (Q : A -> Prop) : Prop :=
  forall r, exists res r',
    m r = (Returns res, r') /\ later r r'
    /\ match res with
       | Ok a => Q a /\ all_drawn r r'
       | Err err => E err /\ one_failed r r'
       end.

(** The error of [generateFromCharset]. *)
Definition charset_error : error :=
  "failed to generate random number: " +:+ entropy_error.

(** The error of [shuffleString]. *)
Definition shuffle_error : error := "failed to shuffle: " +:+ entropy_error.

End Drawing.

(** A source that never fails. *)
Definition counting_source : security.Ints :=
  {| security.raw_at := fun k => (Z.of_nat k * 7 + 3)%Z;
     security.draw_fails_at := fun _ => false;
     security.draws := 0 |}.

(** ** Release assets *)

(** The names [GetAssetForPlatform] looks for: an archive, a bare binary. *)
Definition archive_name (os arch name : string) : Prop :=
  name = "wte-" +:+ os +:+ "-" +:+ arch +:+ ".tar.gz"
  \/ name = "wte_" +:+ os +:+ "_" +:+ arch +:+ ".tar.gz".

Definition binary_name (os arch name : string) : Prop :=
  name = "wte-" +:+ os +:+ "-" +:+ arch \/ name = "wte_" +:+ os +:+ "_" +:+ arch.

(** None of the assets has a name that satisfies [P]. *)
Definition none_named (P : string -> Prop) (assets : list updater.Asset) : Prop :=
  forall a, In a assets -> ~ P (updater.Asset_Name a).

(** ** The keys of the configuration *)

(** The keys of the configuration file, each with the value of its field
    in [c]. *)
Definition fields (c : config.Config) : list (list string * config.scalar) :=
  [ (["gost"; "version"], config.Str (config.Version (config.GOST c)));
    (["gost"; "binary_path"], config.Str (config.BinaryPath (config.GOST c)));
    (["gost"; "config_dir"], config.Str (config.ConfigDir (config.GOST c)));
    (["gost"; "config_file"], config.Str (config.ConfigFile (config.GOST c)));
    (["http"; "enabled"], config.Bool (config.HTTP_Enabled (config.HTTP c)));
    (["http"; "port"], config.Int (config.HTTP_Port (config.HTTP c)));
    (["http"; "auth"; "enabled"],
     config.Bool (config.Auth_Enabled (config.HTTP_Auth (config.HTTP c))));
    (["http"; "auth"; "username"],
     config.Str (config.Username (config.HTTP_Auth (config.HTTP c))));
    (["http"; "auth"; "password"],
     config.Str (config.Auth_Password (config.HTTP_Auth (config.HTTP c))));
    (["https"; "enabled"], config.Bool (config.HTTPS_Enabled (config.HTTPS c)));
    (["https"; "port"], config.Int (config.HTTPS_Port (config.HTTPS c)));
    (["https"; "cert_path"], config.Str (config.CertPath (config.HTTPS c)));
    (["https"; "key_path"], config.Str (config.KeyPath (config.HTTPS c)));
    (["https"; "auth"; "enabled"],
     config.Bool (config.Auth_Enabled (config.HTTPS_Auth (config.HTTPS c))));
    (["https"; "auth"; "username"],
     config.Str (config.Username (config.HTTPS_Auth (config.HTTPS c))));
    (["https"; "auth"; "password"],
     config.Str (config.Auth_Password (config.HTTPS_Auth (config.HTTPS c))));
    (["shadowsocks"; "enabled"],
     config.Bool (config.SS_Enabled (config.Shadowsocks c)));
    (["shadowsocks"; "port"], config.Int (config.SS_Port (config.Shadowsocks c)));
    (["shadowsocks"; "method"], config.Str (config.Method (config.Shadowsocks c)));
    (["shadowsocks"; "password"],
     config.Str (config.SS_Password (config.Shadowsocks c)));
    (["firewall"; "auto_configure"],
     config.Bool (config.AutoConfigure (config.Firewall c)));
    (["logging"; "level"], config.Str (config.Level (config.Logging c))) ].

(** The value of the key [key] in [c], if [key] is a key of the
    configuration. *)
Definition field (key : list string) (c : config.Config) : option config.scalar :=
  config.assoc_path key (fields c).

(** Two scalars of the same type. *)
Definition same_type (x y : config.scalar) : Prop :=
  match x, y with
  | config.Str _, config.Str _ | config.Int _, config.Int _
  | config.Bool _, config.Bool _ | config.Null, config.Null => True
  | _, _ => False
  end.

(** An environment without variables. *)
Definition no_env : string -> option string := fun _ => None.

(** ** The calls of an install run *)

(** The calls of [runInstall], in the order of the program text. *)
Definition install_order : list cli.step :=
  [ cli.CheckRoot; cli.DetectOS; cli.GetPublicIP; cli.GenerateHTTPPassword;
    cli.GenerateSSPassword; cli.Stop; cli.Backup; cli.Install;
    cli.GenerateSelfSignedCert; cli.Validate; cli.Generate; cli.SaveTo;
    cli.CreateService; cli.DaemonReload; cli.Enable; cli.Start; cli.OpenPorts;
    cli.SaveCredentials ].

(** Whether the flags and the state of the machine leave the call [s] to be
    made: a password is generated when authentication is on and no password
    was given, GOST is stopped and its configuration saved when it is
    installed (and running), a certificate is made for HTTPS, the firewall
    is set up unless it is skipped. *)
Definition may_run (f : cli.Flags) (w : cli.World) (s : cli.step) : bool :=
  match s with
  | cli.GenerateHTTPPassword =>
      negb (cli.installHTTPNoAuth f) && String.eqb (cli.installHTTPPass f) ""
  | cli.GenerateSSPassword =>
      cli.installSSEnabled f && String.eqb (cli.installSSPassword f) ""
  | cli.Stop => cli.installed w && cli.was_active w
  | cli.Backup => cli.installed w
  | cli.GenerateSelfSignedCert => cli.installHTTPSEnabled f
  | cli.OpenPorts => negb (cli.installSkipFirewall f)
  | _ => true
  end.

(** The calls of [m] are among [order], in that order, each at most once. *)
Definition within {A} (order : list cli.step) (m : cli.M A) : Prop :=
  sublist (invoked (fst m)) order.

(** * Part III: the properties *)

(** ** The embedding on known values *)

Example TrimPrefix_v : strings.TrimPrefix "v1.2.3" "v" = "1.2.3".
Proof. reflexivity. Qed.

Example TrimPrefix_none : strings.TrimPrefix "1.2.3" "v" = "1.2.3".
Proof. reflexivity. Qed.

Example ReplaceAll_plus : strings.ReplaceAll "a+b++c" "+" "" = "abc".
Proof. reflexivity. Qed.

Example ReplaceAll_word : strings.ReplaceAll "aaaa" "aa" "b" = "bb".
Proof. reflexivity. Qed.

Example TrimSpace_newline :
  strings.TrimSpace (Go.bytes [32; 9] +:+ "198.51.100.23" +:+ Go.bytes [13; 10])
  = "198.51.100.23".
Proof. reflexivity. Qed.

Example TrimSpace_nbsp :
  strings.TrimSpace (Go.bytes [194; 160] +:+ "a b" +:+ Go.bytes [226; 128; 169]) = "a b".
Proof. reflexivity. Qed.

Example TrimSpace_inner : strings.TrimSpace "a b" = "a b".
Proof. reflexivity. Qed.

(** The test vectors of RFC 4648. *)
Example base64_rfc4648 :
  map base64.EncodeToString [""; "f"; "fo"; "foo"; "foob"; "fooba"; "foobar"]
  = [""; "Zg=="; "Zm8="; "Zm9v"; "Zm9vYg=="; "Zm9vYmE="; "Zm9vYmFy"].
Proof. reflexivity. Qed.

Example base64_high_bytes :
  base64.EncodeToString (Go.bytes [251; 255; 190]) = "+/++".
Proof. reflexivity. Qed.

Example ipRegex_accepts :
  map (regexp.matches system.ipRegex) ["203.0.113.7"; "1.2.3.4"; "999.999.999.999"]
  = [true; true; true].
Proof. reflexivity. Qed.

Example ipRegex_rejects :
  map (regexp.matches system.ipRegex)
    [""; "1.2.3"; "1.2.3.4."; "1234.2.3.4"; "1.2.3.4 "; "a.b.c.d"; "1..2.3"; "1.2.3.4.5"]
  = [false; false; false; false; false; false; false; false].
Proof. reflexivity. Qed.

Example Validate_defaults : gost.Validate config.DefaultConfig = None.
Proof. reflexivity. Qed.

Example GetRequiredPorts_defaults :
  map (fun p => (config.Port p, config.Protocol p))
      (config.GetRequiredPorts config.DefaultConfig)
  = [(8080%Z, "tcp"); (9500%Z, "tcp"); (9500%Z, "udp")].
Proof. reflexivity. Qed.

Example port_conflict_message :
  gost.port_conflict 8080 "Shadowsocks" "HTTP" = "port 8080 conflict: Shadowsocks and HTTP".
Proof. reflexivity. Qed.

Example setPackageManager_centos7 :
  system.PackageManager
    (system.setPackageManager
       {| system.OS := "centos"; system.Version := "7"; system.PrettyName := "";
          system.Arch := ""; system.GOSTArch := ""; system.IsSupported := false;
          system.PackageManager := "" |}) = "yum".
Proof. reflexivity. Qed.

(** ** Strings *)

Lemma string_length_app (a b : string) :
  String.length (a +:+ b) = String.length a + String.length b.
Proof. induction a as [|c a IH]; simpl; [reflexivity | now rewrite IH]. Qed.

Lemma string_app_neq (a b : string) : b <> "" -> a +:+ b <> a.
Proof.
  intros Hb Heq. apply (f_equal String.length) in Heq.
  rewrite string_length_app in Heq. destruct b; [congruence | simpl in Heq; lia].
Qed.

Lemma string_compare_refl (s : string) : String.compare s s = Eq.
Proof.
  pose proof (String.compare_antisym s s) as H.
  destruct (String.compare s s); simpl in H; congruence.
Qed.

Lemma strings_gt_ne (a b : string) :
  Go.string_ne a b && Go.string_gt a b = Go.string_gt a b.
Proof.
  unfold Go.string_ne, Go.string_gt. destruct (String.eqb_spec a b) as [->|_]; simpl.
  - unfold String.ltb. now rewrite string_compare_refl.
  - reflexivity.
Qed.

(** ** Self-update: the version check *)

(** C1. [CheckForUpdate] strips a leading "v" from the release tag and from
    the current version and reports an update exactly when the stripped tag is
    greater than the stripped current version as a byte string (the [!=] test
    adds nothing).  With current version "1.9.0" and tag "v1.10.0" the
    stripped strings are "1.10.0" and "1.9.0", "1.10.0" > "1.9.0" is false,
    and [hasUpdate] is false. *)
Theorem CheckForUpdate_lexicographic :
  (forall u release,
      updater.CheckForUpdate u (Ok release) =
      (Some release,
       Go.string_gt (strings.TrimPrefix (updater.TagName release) "v")
                    (strings.TrimPrefix (updater.currentVersion u) "v"),
       None))
  /\ strings.TrimPrefix "v1.10.0" "v" = "1.10.0"
  /\ strings.TrimPrefix "1.9.0" "v" = "1.9.0"
  /\ Go.string_gt "1.10.0" "1.9.0" = false
  /\ (forall repo body assets,
      updater.CheckForUpdate
        {| updater.currentVersion := "1.9.0"; updater.repoURL := repo |}
        (Ok {| updater.TagName := "v1.10.0"; updater.Body := body;
               updater.Assets := assets |})
      = (Some {| updater.TagName := "v1.10.0"; updater.Body := body;
                 updater.Assets := assets |}, false, None)).
Proof.
  split; [|repeat split].
  intros u release. unfold updater.CheckForUpdate.
  now rewrite strings_gt_ne.
Qed.

(** ** Self-update: the swap of the executable *)

Section UpdateSwap.

Import updater.

Variables (flt : faults) (umask : Z) (binaryPath execPath : string).
Variables (fs : gmap string file) (orig : file).

Let backupPath : string := execPath +:+ ".backup".

Hypothesis exec_present : fs !! execPath = Some orig.
Hypothesis backup_made : f_backup flt = None.

(** The file system once the executable has been moved aside. *)
Let fs1 : gmap string file := <[backupPath := orig]> (delete execPath fs).

Lemma backup_ne_exec : backupPath <> execPath.
Proof. apply string_app_neq. discriminate. Qed.

Lemma fs1_is_backup : Rename (f_backup flt) execPath backupPath fs = (fs1, None).
Proof. unfold Rename. now rewrite backup_made, exec_present. Qed.

Lemma copyFile_frame (cf : copy_fault) (src p : string) (m m' : gmap string file) e :
  copyFile cf umask src execPath m = (m', e) -> p <> execPath -> m' !! p = m !! p.
Proof.
  unfold copyFile, Create. intros H Hp.
  destruct cf; destruct (m !! src) eqn:Hs; try (inversion H; subst; reflexivity);
    destruct (m !! execPath) eqn:Hd; inversion H; subst;
    now rewrite !lookup_insert_ne by congruence.
Qed.

Lemma restore_after (m : gmap string file) :
  m !! backupPath = Some orig ->
  f_restore flt = None ->
  forall m' e, Rename (f_restore flt) backupPath execPath m = (m', e) ->
  m' !! execPath = Some orig /\ m' !! backupPath = None.
Proof.
  intros Hb Hr m' e. unfold Rename. rewrite Hr, Hb. intros [= <- <-].
  pose proof backup_ne_exec.
  rewrite lookup_insert_eq, lookup_insert_ne, lookup_delete_eq by congruence.
  auto.
Qed.

Lemma Update_copy_fails e fs2 :
  copyFile (f_copy flt) umask binaryPath execPath fs1 = (fs2, Some e) ->
  let out := Update flt umask (Ok (binaryPath, execPath)) fs in
  ops out = [OpRename execPath backupPath; OpCopy binaryPath execPath;
             OpRename backupPath execPath]
  /\ returned out = Some ("failed to install new binary: " +:+ e)
  /\ (f_restore flt = None ->
      fs_after out !! execPath = Some orig /\ fs_after out !! backupPath = None).
Proof.
  intros Hc. cbv zeta. unfold Update. fold backupPath.
  rewrite fs1_is_backup, Hc.
  destruct (Rename (f_restore flt) backupPath execPath fs2) as [fs3 e3] eqn:Hr.
  simpl. split; [reflexivity|]. split; [reflexivity|]. intros Hok.
  eapply restore_after in Hr; [exact Hr | | exact Hok].
  rewrite (copyFile_frame _ _ _ _ _ _ Hc backup_ne_exec).
  subst fs1. apply lookup_insert_eq.
Qed.

Lemma Update_chmod_fails e fs2 fs3 :
  copyFile (f_copy flt) umask binaryPath execPath fs1 = (fs2, None) ->
  Chmod (f_chmod flt) execPath 493 fs2 = (fs3, Some e) ->
  let out := Update flt umask (Ok (binaryPath, execPath)) fs in
  ops out = [OpRename execPath backupPath; OpCopy binaryPath execPath;
             OpChmod execPath 493; OpRemove execPath;
             OpRename backupPath execPath]
  /\ returned out = Some ("failed to set permissions: " +:+ e)
  /\ (f_restore flt = None ->
      fs_after out !! execPath = Some orig /\ fs_after out !! backupPath = None).
Proof.
  intros Hc Hm. cbv zeta. unfold Update. fold backupPath.
  rewrite fs1_is_backup, Hc, Hm.
  destruct (Remove (f_remove_exec flt) execPath fs3) as [fs4 e4] eqn:Hrm.
  destruct (Rename (f_restore flt) backupPath execPath fs4) as [fs5 e5] eqn:Hr.
  simpl.
  assert (Hb : fs4 !! backupPath = Some orig).
  { pose proof backup_ne_exec as Hne.
    assert (H3 : fs3 !! backupPath = Some orig).
    { assert (fs3 = fs2) as ->.
      { unfold Chmod in Hm. destruct (f_chmod flt); [congruence|].
        destruct (fs2 !! execPath); congruence. }
      rewrite (copyFile_frame _ _ _ _ _ _ Hc Hne). subst fs1. apply lookup_insert_eq. }
    unfold Remove in Hrm. destruct (f_remove_exec flt); [congruence|].
    destruct (fs3 !! execPath); inversion Hrm; subst; [|assumption].
    now rewrite lookup_delete_ne by congruence. }
  split; [reflexivity|]. split; [reflexivity|]. intros Hok.
  eapply restore_after in Hr; [exact Hr | exact Hb | exact Hok].
Qed.

Lemma Update_swap_succeeds fs2 fs3 :
  copyFile (f_copy flt) umask binaryPath execPath fs1 = (fs2, None) ->
  Chmod (f_chmod flt) execPath 493 fs2 = (fs3, None) ->
  let out := Update flt umask (Ok (binaryPath, execPath)) fs in
  ops out = [OpRename execPath backupPath; OpCopy binaryPath execPath;
             OpChmod execPath 493; OpRemove backupPath]
  /\ returned out = None
  /\ (exists new, fs1 !! binaryPath = Some new
        /\ fs_after out !! execPath = Some {| content := content new; perm := 493 |})
  /\ (f_remove_backup flt = None -> fs_after out !! backupPath = None).
Proof.
  intros Hc Hm. cbv zeta. unfold Update. fold backupPath.
  rewrite fs1_is_backup, Hc, Hm.
  destruct (Remove (f_remove_backup flt) backupPath fs3) as [fs4 e4] eqn:Hrm.
  simpl. pose proof backup_ne_exec as Hne.
  assert (H3 : exists new, fs1 !! binaryPath = Some new
                 /\ fs3 !! execPath = Some {| content := content new; perm := 493 |}).
  { unfold copyFile in Hc.
    destruct (f_copy flt); destruct (fs1 !! binaryPath) as [new|]; try congruence.
    exists new. split; [reflexivity|].
    injection Hc as <-. unfold Chmod in Hm. destruct (f_chmod flt); [congruence|].
    rewrite lookup_insert_eq in Hm. injection Hm as <-.
    now rewrite lookup_insert_eq. }
  assert (H4 : fs4 !! execPath = fs3 !! execPath
               /\ (f_remove_backup flt = None -> fs4 !! backupPath = None)).
  { unfold Remove in Hrm. destruct (f_remove_backup flt).
    - inversion Hrm; subst. split; [reflexivity | discriminate].
    - destruct (fs3 !! backupPath) eqn:Hb; inversion Hrm; subst.
      + rewrite lookup_delete_ne, lookup_delete_eq by congruence. auto.
      + auto. }
  destruct H3 as (new & Hn & Hx). destruct H4 as [H4 H5].
  split; [reflexivity|]. split; [reflexivity|]. split; [|exact H5].
  exists new. split; [assumption|]. now rewrite H4.
Qed.

End UpdateSwap.

(** C5. Self-update swap.  Once the running executable has been renamed to
    its ".backup" sibling: if copying the new binary into place fails, or if
    setting its mode to 0755 fails, [Update] renames the backup back (after
    removing the half-installed file on the chmod path) and returns an error,
    and when that rename goes through the original file is again at the
    executable's path and the backup path is free; if both succeed, [Update]
    returns [nil], the executable's path holds the new binary with mode 0755,
    and the last operation removes the backup. *)
Theorem Update_backup_restore_or_delete :
  forall (flt : updater.faults) (umask : Z) (binaryPath execPath : string)
         (fs : gmap string updater.file) (orig : updater.file),
    fs !! execPath = Some orig ->
    updater.f_backup flt = None ->
    let backupPath := execPath +:+ ".backup" in
    let fs1 := <[backupPath := orig]> (delete execPath fs) in
    let out := updater.Update flt umask (Ok (binaryPath, execPath)) fs in
    updater.Rename (updater.f_backup flt) execPath backupPath fs = (fs1, None)
    /\ (forall e fs2,
          updater.copyFile (updater.f_copy flt) umask binaryPath execPath fs1
            = (fs2, Some e) ->
          updater.ops out =
            [updater.OpRename execPath backupPath;
             updater.OpCopy binaryPath execPath;
             updater.OpRename backupPath execPath]
          /\ updater.returned out = Some ("failed to install new binary: " +:+ e)
          /\ (updater.f_restore flt = None ->
              updater.fs_after out !! execPath = Some orig
              /\ updater.fs_after out !! backupPath = None))
    /\ (forall e fs2 fs3,
          updater.copyFile (updater.f_copy flt) umask binaryPath execPath fs1
            = (fs2, None) ->
          updater.Chmod (updater.f_chmod flt) execPath 493 fs2 = (fs3, Some e) ->
          updater.ops out =
            [updater.OpRename execPath backupPath;
             updater.OpCopy binaryPath execPath;
             updater.OpChmod execPath 493;
             updater.OpRemove execPath;
             updater.OpRename backupPath execPath]
          /\ updater.returned out = Some ("failed to set permissions: " +:+ e)
          /\ (updater.f_restore flt = None ->
              updater.fs_after out !! execPath = Some orig
              /\ updater.fs_after out !! backupPath = None))
    /\ (forall fs2 fs3,
          updater.copyFile (updater.f_copy flt) umask binaryPath execPath fs1
            = (fs2, None) ->
          updater.Chmod (updater.f_chmod flt) execPath 493 fs2 = (fs3, None) ->
          updater.ops out =
            [updater.OpRename execPath backupPath;
             updater.OpCopy binaryPath execPath;
             updater.OpChmod execPath 493;
             updater.OpRemove backupPath]
          /\ updater.returned out = None
          /\ (exists new, fs1 !! binaryPath = Some new
                /\ updater.fs_after out !! execPath
                   = Some {| updater.content := updater.content new;
                             updater.perm := 493 |})
          /\ (updater.f_remove_backup flt = None ->
              updater.fs_after out !! backupPath = None)).
Proof.
  intros flt umask binaryPath execPath fs orig Hx Hb. cbv zeta.
  split; [now apply fs1_is_backup|].
  split; [|split].
  - intros e fs2. now apply Update_copy_fails.
  - intros e fs2 fs3. now apply Update_chmod_fails.
  - intros fs2 fs3. now apply Update_swap_succeeds.
Qed.

Lemma Update_backup_restore_or_delete_witness :
  swap_fs !! "/usr/local/bin/wte" = Some swap_old
  /\ updater.f_backup swap_disk_full = None
  /\ updater.fs_after
       (updater.Update swap_disk_full 18
          (Ok ("/tmp/wte-update-1/wte", "/usr/local/bin/wte")) swap_fs)
       !! "/usr/local/bin/wte" = Some swap_old.
Proof.
  split; [reflexivity|]. split; [reflexivity|].
  pose proof (Update_backup_restore_or_delete swap_disk_full 18
                "/tmp/wte-update-1/wte" "/usr/local/bin/wte" swap_fs swap_old
                eq_refl eq_refl) as H.
  cbv zeta in H. destruct H as (_ & H & _).
  specialize (H "no space left on device"
                (fst (updater.copyFile (updater.f_copy swap_disk_full) 18
                        "/tmp/wte-update-1/wte" "/usr/local/bin/wte"
                        (<["/usr/local/bin/wte" +:+ ".backup" := swap_old]>
                           (delete "/usr/local/bin/wte" swap_fs))))).
  exact (proj1 (proj2 (proj2 (H eq_refl)) eq_refl)).
Defined.

(** ** The configuration generator: [Validate] *)


(** ** The configuration file: save and reload *)

(** C9, as stated, fails: with [WTE_HTTP_AUTH_USERNAME=admin] in the
    environment, saving the default configuration and loading the file again
    gives a configuration whose HTTP user name is "admin", not "proxyuser". *)
Lemma roundtrip_broken_by_environment :
  let g := {| config.cfg := Some config.DefaultConfig; config.ConfigPath := "";
              config.viper := fresh_viper |} in
  let saved := config.SaveTo None None config.WTEConfigFile g ∅ in
  let loaded := config.Load no_parse_int no_parse_bool env_with_username
                  no_other_codec (fst saved) None config.WTEConfigFile g in
  snd saved = None
  /\ snd loaded = None
  /\ config.cfg (fst loaded) <> Some config.DefaultConfig
  /\ (config.Username ∘ config.HTTP_Auth ∘ config.HTTP) <$> config.cfg (fst loaded)
     = Some "admin".
Proof.
  cbv zeta. split; [reflexivity|]. split; [reflexivity|].
  split; [|reflexivity]. intros H.
  apply (f_equal (fmap (config.Username ∘ config.HTTP_Auth ∘ config.HTTP))) in H.
  vm_compute in H. discriminate H.
Qed.

Section RoundTrip.

Import config.

Variable ParseInt : string -> option Z.
Variable ParseBool : string -> option bool.
Variable env : string -> option string.
Variable other_codec : string -> node -> result node.

Hypothesis no_WTE_variable :
  forall name, String.prefix "WTE_" name = true -> env name = None.

Lemma find_saved (v : Viper) (key : list string) :
  v_override v = [] ->
  find env v key =
    match (match v_config v with
           | Some doc =>
               match at_path key doc with
               | Some (Scalar x) => Some x
               | _ => None
               end
           | None => None
           end) with
    | Some x => Some x
    | None => assoc_path key (v_defaults v)
    end.
Proof.
  intros Hov. unfold find. rewrite Hov. simpl.
  rewrite (no_WTE_variable (env_name key)); [reflexivity|].
  unfold env_name. simpl. now destruct (ToUpper _).
Qed.

Lemma Unmarshal_Marshal (c c0 : Config) defaults type :
  Unmarshal ParseInt ParseBool env
    {| v_override := []; v_config := Some (yaml_Marshal (Some c));
       v_defaults := defaults; v_configType := type |} c0 = (c, None).
Proof.
  unfold Unmarshal.
  destruct c as [[gv gb gd gf] [he hp [hae hau hap]] [se sp sc sk [sae sau sap]]
                 [xe xp xm xw] [fa] [ll]].
  cbn [forallb app].
  rewrite !find_saved by reflexivity.
  reflexivity.
Qed.

Lemma SaveTo_Load (fs : gmap string node) (searched : option node)
  (path : string) (g : Globals) (c : Config) :
  path <> "" ->
  getConfigType (viper g) path = "yaml" \/ getConfigType (viper g) path = "yml" ->
  v_override (viper g) = [] ->
  cfg g = Some c ->
  let saved := SaveTo None None path g fs in
  let loaded := Load ParseInt ParseBool env other_codec (fst saved) searched path g in
  snd saved = None
  /\ fst saved !! path = Some (yaml_Marshal (Some c))
  /\ snd loaded = None
  /\ cfg (fst loaded) = Some c.
Proof.
  intros Hpath Htype Hov Hc. cbv zeta. unfold SaveTo, Load, Init. rewrite Hc.
  cbn [fst snd]. rewrite lookup_insert_eq.
  assert (Hne : Go.string_ne path "" = true).
  { unfold Go.string_ne. destruct (String.eqb_spec path ""); [contradiction | reflexivity]. }
  rewrite Hne.
  change (getConfigType (setDefaults (viper g)) path) with (getConfigType (viper g) path).
  change (v_override (setDefaults (viper g))) with (v_override (viper g)).
  rewrite Hov.
  destruct Htype as [-> | ->]; cbn [existsb SupportedExts String.eqb Ascii.eqb Bool.eqb
                                     negb orb andb];
    rewrite Unmarshal_Marshal; auto.
Qed.

End RoundTrip.

(** C9, amended.  When the file is one viper reads as YAML (extension
    [.yaml] or [.yml]), no value has been set with [viper.Set], no
    environment variable whose name starts with [WTE_] is set, and the
    directory and the file can be written, saving a configuration to the
    file with [SaveTo] and reloading it with [Load] (that is, [Init]) gives a
    configuration equal to the saved one in every field, without error. *)
Theorem SaveTo_Load_roundtrip :
  forall (ParseInt : string -> option Z) (ParseBool : string -> option bool)
         (env : string -> option string)
         (other_codec : string -> config.node -> result config.node)
         (fs : gmap string config.node) (searched : option config.node)
         (path : string) (g : config.Globals) (c : config.Config),
    (forall name, String.prefix "WTE_" name = true -> env name = None) ->
    path <> "" ->
    config.getConfigType (config.viper g) path = "yaml"
    \/ config.getConfigType (config.viper g) path = "yml" ->
    config.v_override (config.viper g) = [] ->
    config.cfg g = Some c ->
    let saved := config.SaveTo None None path g fs in
    let loaded := config.Load ParseInt ParseBool env other_codec
                    (fst saved) searched path g in
    snd saved = None
    /\ fst saved !! path = Some (config.yaml_Marshal (Some c))
    /\ snd loaded = None
    /\ config.cfg (fst loaded) = Some c.
Proof.
  intros ParseInt ParseBool env other_codec fs searched path g c Henv Hpath Htype Hov Hc.
  now apply SaveTo_Load.
Qed.

Lemma SaveTo_Load_roundtrip_witness :
  (forall name, String.prefix "WTE_" name = true -> (fun _ : string => None (A:=string)) name = None)
  /\ config.WTEConfigFile <> ""
  /\ (config.getConfigType fresh_viper config.WTEConfigFile = "yaml"
      \/ config.getConfigType fresh_viper config.WTEConfigFile = "yml")
  /\ config.v_override fresh_viper = []
  /\ config.cfg (fst (config.Load no_parse_int no_parse_bool (fun _ => None)
                        no_other_codec
                        (fst (config.SaveTo None None config.WTEConfigFile
                                {| config.cfg := Some config.DefaultConfig;
                                   config.ConfigPath := "";
                                   config.viper := fresh_viper |} ∅))
                        None config.WTEConfigFile
                        {| config.cfg := Some config.DefaultConfig;
                           config.ConfigPath := "";
                           config.viper := fresh_viper |}))
     = Some config.DefaultConfig.
Proof.
  assert (Hpath : config.WTEConfigFile <> "") by discriminate.
  split; [reflexivity|]. split; [exact Hpath|]. split; [left; reflexivity|].
  split; [reflexivity|].
  exact (proj2 (proj2 (proj2
           (SaveTo_Load_roundtrip no_parse_int no_parse_bool (fun _ => None)
              no_other_codec ∅ None config.WTEConfigFile
              {| config.cfg := Some config.DefaultConfig; config.ConfigPath := "";
                 config.viper := fresh_viper |}
              config.DefaultConfig (fun _ _ => eq_refl) Hpath (or_introl eq_refl)
              eq_refl eq_refl)))).
Defined.

(** ** Regular expressions: derivatives and languages *)

Lemma string_app_cons (c : ascii) (s t : string) :
  String c s +:+ t = String c (s +:+ t).
Proof. reflexivity. Qed.

Lemma string_app_nil_l (s : string) : "" +:+ s = s.
Proof. reflexivity. Qed.

Lemma string_app_nil_r (s : string) : s +:+ "" = s.
Proof.
  induction s as [|c s IH]; [reflexivity|]. now rewrite string_app_cons, IH.
Qed.

Lemma string_app_assoc (a b c : string) : (a +:+ b) +:+ c = a +:+ (b +:+ c).
Proof.
  induction a as [|x a IH]; [reflexivity|]. now rewrite !string_app_cons, IH.
Qed.

Lemma string_app_nil (a b : string) : a +:+ b = "" -> a = "" /\ b = "".
Proof. destruct a; [auto | discriminate]. Qed.

Lemma nullable_lang (r : regexp.Regexp) : regexp.nullable r = true <-> lang r "".
Proof.
  induction r as [| |p|r1 IH1 r2 IH2|r1 IH1 r2 IH2]; simpl.
  - split; [discriminate | contradiction].
  - split; reflexivity.
  - split; [discriminate | intros (c & H & _); discriminate].
  - rewrite andb_true_iff, IH1, IH2. split.
    + intros [H1 H2]. now exists "", "".
    + intros (s1 & s2 & H & H1 & H2). symmetry in H.
      apply string_app_nil in H as [-> ->]. auto.
  - rewrite orb_true_iff, IH1, IH2. reflexivity.
Qed.

Lemma deriv_lang (c : ascii) (r : regexp.Regexp) :
  forall s, lang (regexp.deriv c r) s <-> lang r (String c s).
Proof.
  induction r as [| |p|r1 IH1 r2 IH2|r1 IH1 r2 IH2]; intros s; simpl.
  - reflexivity.
  - split; [contradiction | discriminate].
  - destruct (p c) eqn:Hp; simpl.
    + split.
      * intros ->. eauto.
      * intros (c' & [= <- ->] & _). reflexivity.
    + split; [contradiction|]. intros (c' & [= <- ->] & Hc). congruence.
  - assert (Hcons : (exists s1 s2, s = s1 +:+ s2 /\ lang (regexp.deriv c r1) s1 /\ lang r2 s2)
                    \/ (lang r1 "" /\ lang r2 (String c s))
                    <-> exists s1 s2, String c s = s1 +:+ s2 /\ lang r1 s1 /\ lang r2 s2).
    { split.
      - intros [(s1 & s2 & -> & H1 & H2)|[H1 H2]].
        + exists (String c s1), s2. rewrite <- IH1. auto.
        + now exists "", (String c s).
      - intros (s1 & s2 & H & H1 & H2). destruct s1 as [|c' s1].
        + rewrite string_app_nil_l in H. subst s2. auto.
        + rewrite string_app_cons in H. injection H as <- ->.
          left. exists s1, s2. rewrite IH1. auto. }
    destruct (regexp.nullable r1) eqn:Hn; simpl.
    + rewrite <- Hcons, IH2. apply nullable_lang in Hn. tauto.
    + rewrite <- Hcons. split; [auto|]. intros [H|[H _]]; [exact H|].
      apply nullable_lang in H. congruence.
  - now rewrite IH1, IH2.
Qed.

Lemma matches_lang (s : string) :
  forall r, regexp.matches r s = true <-> lang r s.
Proof.
  induction s as [|c s IH]; intros r; simpl.
  - apply nullable_lang.
  - now rewrite IH, deriv_lang.
Qed.

Lemma lang_Digit (s : string) :
  lang regexp.Digit s <-> exists c, s = String c "" /\ is_digit c.
Proof.
  unfold is_digit, regexp.Digit. cbn [lang].
  split; intros (c & -> & H); exists c; (split; [reflexivity|]).
  - apply andb_true_iff in H as [H1 H2].
    apply Nat.leb_le in H1, H2. lia.
  - apply andb_true_iff. split; apply Nat.leb_le; lia.
Qed.

Lemma lang_Lit (a : ascii) (s : string) : lang (regexp.Lit a) s <-> s = String a "".
Proof.
  unfold regexp.Lit. cbn [lang]. split.
  - intros (c & -> & H). apply Ascii.eqb_eq in H. now subst.
  - intros ->. exists a. split; [reflexivity | apply Ascii.eqb_refl].
Qed.

Lemma lang_digits_1_3 (s : string) :
  lang (regexp.Repeat 1 3 regexp.Digit) s <-> digits_1_3 s.
Proof.
  unfold regexp.Repeat, digits_1_3.
  cbn [regexp.Exactly regexp.AtMost Nat.sub lang]. split.
  - intros (s1 & s2 & -> & (d1 & e1 & -> & Hd1 & ->) & H2).
    apply lang_Digit in Hd1 as (c1 & -> & Hc1). simpl.
    destruct H2 as [->|(d2 & r2 & -> & Hd2 & H3)]; [simpl; intuition lia|].
    apply lang_Digit in Hd2 as (c2 & -> & Hc2). simpl.
    destruct H3 as [->|(d3 & r3 & -> & Hd3 & ->)]; [simpl; intuition lia|].
    apply lang_Digit in Hd3 as (c3 & -> & Hc3). simpl. intuition lia.
  - intros [Hlen Hall].
    destruct s as [|c1 [|c2 [|c3 [|c4 s]]]]; simpl in Hlen, Hall; try lia.
    + exists (String c1 ""), "". split; [reflexivity|]. split; [|now left].
      exists (String c1 ""), "". rewrite lang_Digit. intuition eauto.
    + exists (String c1 ""), (String c2 ""). split; [reflexivity|]. split.
      * exists (String c1 ""), "". rewrite lang_Digit. intuition eauto.
      * right. exists (String c2 ""), "". rewrite lang_Digit. intuition eauto.
    + exists (String c1 ""), (String c2 (String c3 "")). split; [reflexivity|]. split.
      * exists (String c1 ""), "". rewrite lang_Digit. intuition eauto.
      * right. exists (String c2 ""), (String c3 ""). rewrite lang_Digit.
        split; [reflexivity|]. split; [intuition eauto|].
        right. exists (String c3 ""), "". rewrite lang_Digit. intuition eauto.
Qed.

Lemma lang_group (s : string) :
  lang (regexp.Concat (regexp.Repeat 1 3 regexp.Digit) (regexp.Lit ".")) s
  <-> exists a, s = a +:+ "." /\ digits_1_3 a.
Proof.
  cbn [lang]. split.
  - intros (a & dot & -> & Ha%lang_digits_1_3 & ->%lang_Lit). eauto.
  - intros (a & -> & Ha). exists a, ".". rewrite lang_digits_1_3, lang_Lit. auto.
Qed.

(** The pattern of [GetPublicIP] accepts exactly the dotted quads. *)
Lemma ipRegex_dotted_quad (s : string) :
  regexp.matches system.ipRegex s = true <-> dotted_quad s.
Proof.
  rewrite matches_lang. unfold system.ipRegex, dotted_quad.
  cbn [regexp.Exactly]. cbn [lang].
  setoid_rewrite lang_group. setoid_rewrite lang_digits_1_3.
  split.
  - intros (g & d & -> & (g1 & t1 & -> & (a & -> & Ha)
                          & (g2 & t2 & -> & (b & -> & Hb)
                             & (g3 & t3 & -> & (c & -> & Hc) & ->))) & Hd).
    exists a, b, c, d. split; [|auto].
    now rewrite string_app_nil_r, !string_app_assoc.
  - intros (a & b & c & d & -> & Ha & Hb & Hc & Hd).
    exists (a +:+ "." +:+ b +:+ "." +:+ c +:+ "."), d.
    split; [now rewrite !string_app_assoc|]. split; [|exact Hd].
    exists (a +:+ "."), (b +:+ "." +:+ c +:+ "."). split; [now rewrite !string_app_assoc|].
    split; [eauto|].
    exists (b +:+ "."), (c +:+ "."). split; [now rewrite !string_app_assoc|].
    split; [eauto|].
    exists (c +:+ "."), "". split; [now rewrite string_app_nil_r|]. eauto.
Qed.

(** ** Firewall detection *)

(** C4. [detectFirewall] selects ufw whenever the [ufw] command exists;
    firewalld only if [ufw] does not exist, [firewall-cmd] exists and the
    firewalld service is active; iptables only if neither of the two was
    selected and [iptables] exists; and "none" otherwise.  In particular a
    host with both [ufw] and an active firewalld gets ufw. *)
Theorem detectFirewall_precedence :
  forall h : system.Host,
    let ufw := system.commandExists h "ufw" in
    let firewalld :=
      system.commandExists h "firewall-cmd" && system.isServiceActive h "firewalld" in
    let iptables := system.commandExists h "iptables" in
    (system.detectFirewall h = system.FirewallUFW <-> ufw = true)
    /\ (system.detectFirewall h = system.FirewallFirewalld <->
          ufw = false /\ firewalld = true)
    /\ (system.detectFirewall h = system.FirewallIPTables <->
          ufw = false /\ firewalld = false /\ iptables = true)
    /\ (system.detectFirewall h = system.FirewallNone <->
          ufw = false /\ firewalld = false /\ iptables = false)
    /\ (system.commandExists h "ufw" = true ->
        system.commandExists h "firewall-cmd" = true ->
        system.isServiceActive h "firewalld" = true ->
        system.detectFirewall h = system.FirewallUFW)
    /\ system.FirewallType_string system.FirewallNone = "none".
Proof.
  intros h ufw firewalld iptables. unfold system.detectFirewall.
  fold ufw firewalld iptables.
  destruct ufw eqn:Hu, firewalld eqn:Hf, iptables eqn:Hi;
    repeat split; intros; try discriminate; try reflexivity;
    repeat match goal with H : _ /\ _ |- _ => destruct H end;
    try discriminate; try congruence.
Qed.

Lemma detectFirewall_precedence_witness :
  system.commandExists both_firewalls "ufw" = true
  /\ system.commandExists both_firewalls "firewall-cmd" = true
  /\ system.isServiceActive both_firewalls "firewalld" = true
  /\ system.detectFirewall both_firewalls = system.FirewallUFW.
Proof.
  split; [reflexivity|]. split; [reflexivity|]. split; [reflexivity|].
  exact (proj1 (proj2 (proj2 (proj2 (proj2
           (detectFirewall_precedence both_firewalls)))))
           eq_refl eq_refl eq_refl).
Defined.

(** ** Architecture detection *)

Lemma supported_arch_inv arch :
  supported_arch arch -> arch = "amd64" \/ arch = "arm64" \/ arch = "arm".
Proof.
  intros (info & info' & H). unfold system.detectArch in H.
  destruct (String.eqb_spec arch "amd64"); [auto|].
  destruct (String.eqb_spec arch "arm64"); [auto|].
  destruct (String.eqb_spec arch "arm"); [auto|]. discriminate.
Qed.

(** C7, as stated, fails: [detectArch] does not have four supported inputs. *)
Lemma detectArch_no_four_inputs :
  ~ exists a b c d : string,
      a <> b /\ a <> c /\ a <> d /\ b <> c /\ b <> d /\ c <> d
      /\ supported_arch a /\ supported_arch b /\ supported_arch c /\ supported_arch d.
Proof.
  intros (a & b & c & d & Hab & Hac & Had & Hbc & Hbd & Hcd & Ha & Hb & Hc & Hd).
  apply supported_arch_inv in Ha, Hb, Hc, Hd.
  destruct Ha as [->|[->| ->]], Hb as [->|[->| ->]], Hc as [->|[->| ->]],
           Hd as [->|[->| ->]]; congruence.
Qed.

(** C7, amended. [detectArch] has exactly three supported inputs, each with
    one artifact architecture: "amd64" gives "amd64" (x86_64), "arm64" gives
    "arm64" (aarch64), "arm" gives "armv7" (armv7l); every other value of
    the runtime architecture fails with the unsupported-architecture error
    and leaves no result. *)
Theorem detectArch_three_entries :
  forall (info : system.OSInfo) (arch : string),
    system.detectArch "amd64" info = Ok (system.set_Arch info "x86_64" "amd64")
    /\ system.detectArch "arm64" info = Ok (system.set_Arch info "aarch64" "arm64")
    /\ system.detectArch "arm" info = Ok (system.set_Arch info "armv7l" "armv7")
    /\ (supported_arch arch <-> arch = "amd64" \/ arch = "arm64" \/ arch = "arm")
    /\ (arch <> "amd64" -> arch <> "arm64" -> arch <> "arm" ->
        system.detectArch arch info = Err ("unsupported architecture: " +:+ arch))
    /\ (forall files, arch <> "amd64" -> arch <> "arm64" -> arch <> "arm" ->
        system.DetectOS arch files = Err ("unsupported architecture: " +:+ arch)).
Proof.
  intros info arch. repeat split; try reflexivity.
  - apply supported_arch_inv.
  - intros [->|[->| ->]]; exists info; eexists; reflexivity.
  - intros H1 H2 H3. unfold system.detectArch.
    destruct (String.eqb_spec arch "amd64"); [contradiction|].
    destruct (String.eqb_spec arch "arm64"); [contradiction|].
    destruct (String.eqb_spec arch "arm"); [contradiction|]. reflexivity.
  - intros H1 H2 H3. unfold system.DetectOS, system.detectArch.
    destruct (String.eqb_spec arch "amd64"); [contradiction|].
    destruct (String.eqb_spec arch "arm64"); [contradiction|].
    destruct (String.eqb_spec arch "arm"); [contradiction|]. reflexivity.
Qed.

Lemma detectArch_three_entries_witness :
  "riscv64" <> "amd64" /\ "riscv64" <> "arm64" /\ "riscv64" <> "arm"
  /\ system.detectArch "riscv64" blank_info
     = Err ("unsupported architecture: " +:+ "riscv64").
Proof.
  assert (H1 : "riscv64" <> "amd64") by discriminate.
  assert (H2 : "riscv64" <> "arm64") by discriminate.
  assert (H3 : "riscv64" <> "arm") by discriminate.
  split; [exact H1|]. split; [exact H2|]. split; [exact H3|].
  exact (proj1 (proj2 (proj2 (proj2 (proj2
           (detectArch_three_entries blank_info "riscv64"))))) H1 H2 H3).
Defined.

(** ** The public IP address *)

Lemma GetPublicIP_loop_none client services :
  Forall (fun s => answer client s = None) services ->
  system.GetPublicIP_loop client services = ("", Some system.no_public_ip).
Proof.
  induction 1 as [|s l Hs _ IH]; simpl; [reflexivity|].
  unfold answer in Hs. destruct (client s) as [[body|]|]; try exact IH.
  destruct (regexp.matches system.ipRegex (strings.TrimSpace body));
    [discriminate | exact IH].
Qed.

Lemma GetPublicIP_loop_first client pre service post ip :
  Forall (fun s => answer client s = None) pre ->
  answer client service = Some ip ->
  system.GetPublicIP_loop client (pre ++ service :: post) = (ip, None).
Proof.
  intros Hpre Hs. induction Hpre as [|s l Hn _ IH]; simpl.
  - unfold answer in Hs. destruct (client service) as [[body|]|]; try discriminate.
    destruct (regexp.matches system.ipRegex (strings.TrimSpace body));
      [congruence | discriminate].
  - unfold answer in Hn. destruct (client s) as [[body|]|]; try exact IH.
    destruct (regexp.matches system.ipRegex (strings.TrimSpace body));
      [discriminate | exact IH].
Qed.

Lemma GetPublicIP_loop_cases client services :
  (Forall (fun s => answer client s = None) services
   /\ system.GetPublicIP_loop client services = ("", Some system.no_public_ip))
  \/ (exists pre service post ip,
        services = pre ++ service :: post
        /\ Forall (fun s => answer client s = None) pre
        /\ answer client service = Some ip
        /\ system.GetPublicIP_loop client services = (ip, None)).
Proof.
  induction services as [|s l IH].
  - left. split; [constructor | reflexivity].
  - destruct (answer client s) as [ip|] eqn:Hs.
    + right. exists [], s, l, ip. repeat split; try constructor; try assumption.
      now apply (GetPublicIP_loop_first client [] s l ip).
    + destruct IH as [[Hall Hl]|(pre & service & post & ip & -> & Hpre & Hsv & Hl)].
      * left. split; [now constructor|].
        apply GetPublicIP_loop_none. now constructor.
      * right. exists (s :: pre), service, post, ip.
        repeat split; try assumption; [now constructor|].
        apply (GetPublicIP_loop_first client (s :: pre)); [now constructor | assumption].
Qed.

(** ** Password generation *)

Section Passwords.

Import security.

Lemma ReplaceAll_fuel_byte c : forall s fuel,
  String.length s <= fuel ->
  strings.ReplaceAll_fuel fuel s (String c "") "" = delete_byte c s.
Proof.
  induction s as [|a s IH]; intros [|fuel] Hf; simpl in *; try reflexivity; try lia.
  rewrite (Ascii.eqb_sym c a).
  destruct (Ascii.eqb a c); simpl; rewrite IH by lia; reflexivity.
Qed.

Lemma ReplaceAll_byte c s : strings.ReplaceAll s (String c "") "" = delete_byte c s.
Proof. unfold strings.ReplaceAll. now apply ReplaceAll_fuel_byte. Qed.

Lemma contains_delete_byte_same c s : contains c (delete_byte c s) = false.
Proof.
  induction s as [|a s IH]; simpl; [reflexivity|].
  destruct (Ascii.eqb a c) eqn:E; simpl; [assumption | now rewrite E].
Qed.

Lemma contains_delete_byte_other c d s :
  contains c s = false -> contains c (delete_byte d s) = false.
Proof.
  induction s as [|a s IH]; simpl; [reflexivity|].
  intros [Ha Hs]%orb_false_iff.
  destruct (Ascii.eqb a d); simpl; [auto | rewrite Ha; auto].
Qed.

Lemma strip_url_safe s : url_safe (strip s).
Proof.
  unfold strip, url_safe. rewrite !ReplaceAll_byte. repeat split.
  - do 2 apply contains_delete_byte_other. apply contains_delete_byte_same.
  - apply contains_delete_byte_other. apply contains_delete_byte_same.
  - apply contains_delete_byte_same.
Qed.

Lemma contains_app c a b : contains c (a +:+ b) = contains c a || contains c b.
Proof.
  induction a as [|x a IH]; simpl; [reflexivity|]. now rewrite IH, orb_assoc.
Qed.

Lemma contains_prefix c s : forall n,
  contains c s = false -> contains c (String.substring 0 n s) = false.
Proof.
  induction s as [|a s IH]; intros [|n]; simpl; try reflexivity.
  intros [Ha Hs]%orb_false_iff. rewrite Ha. simpl. auto.
Qed.

Lemma length_prefix s : forall n,
  n <= String.length s -> String.length (String.substring 0 n s) = n.
Proof.
  induction s as [|a s IH]; intros [|n]; simpl; try reflexivity; try lia.
  intros H. rewrite IH; [reflexivity | lia].
Qed.

Lemma url_safe_app a b : url_safe a -> url_safe b -> url_safe (a +:+ b).
Proof.
  unfold url_safe. intros (?&?&?) (?&?&?). rewrite !contains_app.
  repeat split; apply orb_false_iff; auto.
Qed.

Lemma url_safe_prefix s n : url_safe s -> url_safe (String.substring 0 n s).
Proof.
  unfold url_safe. intros (?&?&?). repeat split; now apply contains_prefix.
Qed.

Lemma Read_source n r x r1 :
  Read n r = (x, r1) -> bytes_at r1 = bytes_at r /\ fails_at r1 = fails_at r.
Proof. unfold Read. destruct (fails_at r (calls r)); intros [= <- <-]; auto. Qed.

Lemma effective_length_pos length : (0 < effective_length length)%Z.
Proof.
  unfold effective_length, DefaultPasswordLength. destruct (Z.leb_spec length 0); lia.
Qed.

Lemma effective_length_id length : (0 < length)%Z -> effective_length length = length.
Proof. unfold effective_length. destruct (Z.leb_spec length 0); lia. Qed.

(** Whatever the source delivers: a call that comes back without error comes
    back with a URL-safe string of the effective length, an error comes from
    a failed read, and the slice never panics. *)
Lemma GeneratePassword_sound : forall fuel length r out r',
  GeneratePassword fuel length r = (out, r') ->
  match out with
  | Returns (s, None) =>
      String.length s = Z.to_nat (effective_length length) /\ url_safe s
  | Returns (s, Some _) => s = "" /\ exists k, fails_at r k = true
  | Panics => False
  | OutOfFuel => True
  end.
Proof.
  induction fuel as [|fuel IH]; intros length r out r'; simpl.
  - intros [= <- <-]. exact I.
  - fold (effective_length length).
    pose proof (effective_length_pos length) as Hpos.
    set (L := effective_length length) in *.
    destruct (Read (Z.to_nat L) r) as [[bytes|err] r1] eqn:HR.
    2:{ intros [= <- <-]. split; [reflexivity|].
        unfold Read in HR. destruct (fails_at r (calls r)) eqn:Hf; [eauto | congruence]. }
    set (encoded := strip (base64.EncodeToString bytes)).
    pose proof (strip_url_safe (base64.EncodeToString bytes)) as Hsafe.
    fold encoded in Hsafe.
    destruct (Z.ltb_spec (Z.of_nat (String.length encoded)) L) as [Hshort|Hlong].
    + destruct (GeneratePassword fuel (L - Z.of_nat (String.length encoded)) r1)
        as [[[additional [err|]]| |] r2] eqn:HG;
        specialize (IH _ _ _ _ HG); simpl in IH.
      * intros [= <- <-]. destruct IH as [_ [k Hk]]. split; [reflexivity|].
        apply Read_source in HR as [_ Hfa]. exists k. now rewrite <- Hfa.
      * destruct IH as [Hlen Hs].
        rewrite effective_length_id in Hlen by lia.
        assert (Htot : String.length (encoded +:+ additional) = Z.to_nat L).
        { rewrite string_length_app, Hlen. lia. }
        destruct (Z.leb_spec L (Z.of_nat (String.length (encoded +:+ additional))));
          [|lia].
        intros [= <- <-]. split.
        -- apply length_prefix. lia.
        -- apply url_safe_prefix. now apply url_safe_app.
      * contradiction.
      * intros [= <- <-]. exact I.
    + destruct (Z.leb_spec L (Z.of_nat (String.length encoded))); [|lia].
      intros [= <- <-]. split.
      * apply length_prefix. lia.
      * now apply url_safe_prefix.
Qed.

(** With a source that never fails and is productive, the recursion ends:
    fuel equal to the effective length is enough. *)
Lemma GeneratePassword_returns : forall n fuel length r,
  productive (bytes_at r) ->
  (forall k, fails_at r k = false) ->
  Z.to_nat (effective_length length) <= n -> n <= fuel ->
  exists s r', GeneratePassword fuel length r = (Returns (s, None), r').
Proof.
  induction n as [|n IH]; intros fuel length r Hprod Hok Hn Hfuel.
  - pose proof (effective_length_pos length). lia.
  - destruct fuel as [|fuel]; [lia|]. simpl.
    fold (effective_length length).
    pose proof (effective_length_pos length) as Hpos.
    set (L := effective_length length) in *.
    destruct (Read (Z.to_nat L) r) as [[bytes|err] r1] eqn:HR.
    2:{ unfold Read in HR. rewrite Hok in HR. congruence. }
    pose proof (Read_source _ _ _ _ HR) as [Hb Hf].
    assert (Hne : strip (base64.EncodeToString bytes) <> "").
    { unfold Read in HR. rewrite Hok in HR. injection HR as <- _.
      apply Hprod. lia. }
    set (encoded := strip (base64.EncodeToString bytes)) in *.
    assert (Hlen : 0 < String.length encoded) by (destruct encoded; simpl; [congruence | lia]).
    destruct (Z.ltb_spec (Z.of_nat (String.length encoded)) L) as [Hshort|Hlong].
    + destruct (IH fuel (L - Z.of_nat (String.length encoded))%Z r1) as (additional & r2 & HG).
      * now rewrite Hb.
      * intros k. now rewrite Hf.
      * rewrite effective_length_id by lia. lia.
      * lia.
      * rewrite HG.
        pose proof (GeneratePassword_sound _ _ _ _ _ HG) as [Hadd _].
        rewrite effective_length_id in Hadd by lia.
        destruct (Z.leb_spec L (Z.of_nat (String.length (encoded +:+ additional))));
          [eauto|].
        rewrite string_length_app, Hadd in *. lia.
    + destruct (Z.leb_spec L (Z.of_nat (String.length encoded))); [eauto | lia].
Qed.


End Passwords.

(** *** Sources that are productive: no byte above 247

    The first character of an encoding is taken from the six high bits of
    the first byte; below 248 these are not 62 or 63, the character is a
    letter or a digit and survives the stripping. *)

Lemma byte_shifted_out (b n : N) : (b < 256)%N -> (8 <= n)%N -> N.shiftr b n = 0%N.
Proof.
  intros Hb Hn. destruct (N.eq_dec b 0) as [->|Hz]; [apply N.shiftr_0_l|].
  apply N.shiftr_eq_0. apply N.lt_le_trans with 8%N; [|assumption].
  apply N.log2_lt_pow2; [lia | exact Hb].
Qed.

Lemma first_sextet (a b c : ascii) :
  N.land (N.shiftr (N.lor (N.lor (N.shiftl (N_of_ascii a) 16)
                                 (N.shiftl (N_of_ascii b) 8))
                          (N_of_ascii c)) 18) 63
  = N.shiftr (N_of_ascii a) 2.
Proof.
  rewrite !N.shiftr_lor, !N.shiftr_shiftl_r by lia.
  rewrite (byte_shifted_out (N_of_ascii b)), (byte_shifted_out (N_of_ascii c))
    by (try apply N_ascii_bounded; lia).
  rewrite !N.lor_0_r.
  destruct a as [[] [] [] [] [] [] [] []]; reflexivity.
Qed.

Lemma EncodeToString_first (a : ascii) (rest : string) :
  exists tail,
    base64.EncodeToString (String a rest)
    = String (base64.encode (N.shiftr (N_of_ascii a) 2)) tail.
Proof.
  destruct rest as [|b [|c rest]]; cbn [base64.EncodeToString]; cbv zeta.
  - pose proof (first_sextet a "000" "000") as H. simpl N_of_ascii in H at 2 3.
    rewrite N.shiftl_0_l, !N.lor_0_r in H. rewrite H. eauto.
  - pose proof (first_sextet a b "000") as H. simpl N_of_ascii in H at 3.
    rewrite N.lor_0_r in H. rewrite H. eauto.
  - rewrite first_sextet. eauto.
Qed.

Lemma encode_survives (a : ascii) :
  (N_of_ascii a < 248)%N ->
  let ch := base64.encode (N.shiftr (N_of_ascii a) 2) in
  Ascii.eqb ch "+" = false /\ Ascii.eqb ch "/" = false /\ Ascii.eqb ch "=" = false.
Proof.
  destruct a as [[] [] [] [] [] [] [] []]; vm_compute; intros H;
    try discriminate H; repeat split.
Qed.

Lemma productive_below_248 (tape : nat -> ascii) :
  (forall i, (N_of_ascii (tape i) < 248)%N) -> productive tape.
Proof.
  intros Hsmall p n Hn. destruct n as [|n]; [lia|]. cbn [security.take_tape].
  destruct (EncodeToString_first (tape p) (security.take_tape tape (S p) n)) as [tail ->].
  destruct (encode_survives (tape p) (Hsmall p)) as (H1 & H2 & H3).
  unfold security.strip. rewrite !ReplaceAll_byte. simpl.
  rewrite H1. simpl. rewrite H2. simpl. rewrite H3. discriminate.
Qed.


Lemma steady_source_productive : productive (security.bytes_at steady_source).
Proof. apply productive_below_248. intros i. reflexivity. Qed.


Remark GeneratePassword_needs_productive :
  forall fuel p c, fst (security.GeneratePassword fuel 3 (stuck_source p c)) = security.OutOfFuel.
Proof.
  induction fuel as [|fuel IH]; intros p c; [reflexivity|].
  specialize (IH (p + 3) (S c)).
  change (security.GeneratePassword (S fuel) 3 (stuck_source p c))
    with (match security.GeneratePassword fuel 3 (stuck_source (p + 3) (S c)) with
          | (security.Returns (additional, None), r2) =>
              (if (3 <=? Z.of_nat (String.length ("" +:+ additional)))%Z
               then security.Returns (String.substring 0 3 ("" +:+ additional), None)
               else security.Panics, r2)
          | (security.Returns (_, Some err), r2) => (security.Returns ("", Some err), r2)
          | (security.Panics, r2) => (security.Panics, r2)
          | (security.OutOfFuel, r2) => (security.OutOfFuel, r2)
          end).
  destruct (security.GeneratePassword fuel 3 (stuck_source (p + 3) (S c)))
    as [[[s [e|]]| |] r2]; simpl in *; congruence.
Qed.

(** C10. For a requested length of zero or less [GeneratePassword] behaves
    exactly as for the default length 16: what it returns without error has
    16 characters (so it is not empty), an error comes from a failed read of
    the random source and never from the length, the call does not panic,
    and with a random source that does not fail it does come back with a
    16-character password. *)
Theorem GeneratePassword_default_length :
  forall (length : Z) (r : security.Rand),
    (length <= 0)%Z ->
    (forall fuel,
        security.GeneratePassword fuel length r
        = security.GeneratePassword fuel security.DefaultPasswordLength r)
    /\ security.DefaultPasswordLength = 16%Z
    /\ (forall fuel s r',
          security.GeneratePassword fuel length r = (security.Returns (s, None), r') ->
          String.length s = 16 /\ s <> "" /\ url_safe s)
    /\ (forall fuel s err r',
          security.GeneratePassword fuel length r = (security.Returns (s, Some err), r') ->
          exists k, security.fails_at r k = true)
    /\ (forall fuel r', security.GeneratePassword fuel length r <> (security.Panics, r'))
    /\ (productive (security.bytes_at r) ->
        (forall k, security.fails_at r k = false) ->
        exists fuel s r',
          security.GeneratePassword fuel length r = (security.Returns (s, None), r')
          /\ String.length s = 16).
Proof.
  intros length r Hle.
  assert (Heff : effective_length length = 16%Z).
  { unfold effective_length. destruct (Z.leb_spec length 0); [reflexivity | lia]. }
  split; [|split; [reflexivity|split; [|split; [|split]]]].
  - intros [|fuel]; [reflexivity|]. simpl.
    destruct (Z.leb_spec length 0); [reflexivity | lia].
  - intros fuel s r' HG. apply GeneratePassword_sound in HG.
    rewrite Heff in HG. destruct HG as [Hlen Hs].
    repeat split; try apply Hs; [exact Hlen|].
    intros ->. discriminate Hlen.
  - intros fuel s err r' HG. apply GeneratePassword_sound in HG. apply HG.
  - intros fuel r' HG. apply GeneratePassword_sound in HG. exact HG.
  - intros Hprod Hok.
    destruct (GeneratePassword_returns 16 16 length r Hprod Hok) as (s & r' & HG);
      [rewrite Heff; simpl; lia | lia |].
    exists 16, s, r'. split; [exact HG|].
    apply GeneratePassword_sound in HG. rewrite Heff in HG. apply HG.
Qed.

Lemma GeneratePassword_default_length_witness :
  (0 <= 0)%Z
  /\ exists fuel s r',
       security.GeneratePassword fuel 0 steady_source = (security.Returns (s, None), r')
       /\ String.length s = 16.
Proof.
  split; [lia|].
  apply (GeneratePassword_default_length 0 steady_source); [lia | |].
  - exact steady_source_productive.
  - reflexivity.
Defined.

(** ** The install sequence *)

Section Policy.

Import cli.










(** *** The steps of [runInstall], one by one *)














End Policy.




(** ** The public IP address, in [GetPublicIP] and in [runInstall] *)

(** C8, as stated, fails: the probe does fail.  When no service can be
    reached [GetPublicIP] returns an error, and the string next to it is
    empty, not a placeholder. *)
Lemma GetPublicIP_fails_when_all_fail :
  system.GetPublicIP (fun _ => Err "context deadline exceeded")
  = ("", Some "could not determine public IP address").
Proof. reflexivity. Qed.

(** C8, amended.  [GetPublicIP] goes through the five services of
    [IPServices] in order and returns the trimmed body of the first one whose
    request and read succeed and whose trimmed body matches the dotted-quad
    pattern (four groups of one to three digits, dots between them); when
    none does, it returns an error.  Its caller in the install
    sequence then prints a warning, carries on with the literal
    "YOUR_SERVER_IP", and the step itself never returns an error. *)
Theorem GetPublicIP_first_match_or_error :
  forall w : cli.World,
    let client := cli.client w in
    List.length system.IPServices = 5
    /\ (forall s, regexp.matches system.ipRegex s = true <-> dotted_quad s)
    /\ (forall ip,
          system.GetPublicIP client = (ip, None) <->
          exists pre service post,
            system.IPServices = pre ++ service :: post
            /\ Forall (fun s => answer client s = None) pre
            /\ answer client service = Some ip)
    /\ (system.GetPublicIP client = ("", Some system.no_public_ip) <->
          Forall (fun s => answer client s = None) system.IPServices)
    /\ (forall ip err, system.GetPublicIP client = (ip, Some err) ->
          ip = "" /\ err = system.no_public_ip)
    /\ match system.GetPublicIP client with
       | (ip, None) =>
           cli.runInstall_step2 w = ([cli.Invoke cli.GetPublicIP None], Ok ip)
       | (_, Some err) =>
           cli.runInstall_step2 w =
             ([cli.Invoke cli.GetPublicIP (Some err);
               cli.Warning ("Could not detect public IP: " +:+ err)],
              Ok "YOUR_SERVER_IP")
       end.
Proof.
  intros w client. unfold system.GetPublicIP.
  pose proof (GetPublicIP_loop_cases client system.IPServices) as Hc.
  split; [reflexivity|]. split; [exact ipRegex_dotted_quad|].
  split; [|split; [|split]].
  - intros ip. split.
    + intros Hip. destruct Hc as [[_ Hn]|(pre & service & post & ip' & Heq & Hpre & Hs & Hl)].
      * rewrite Hn in Hip. discriminate.
      * rewrite Hl in Hip. injection Hip as ->.
        exists pre, service, post. repeat split; assumption.
    + intros (pre & service & post & -> & Hpre & Hs).
      now apply GetPublicIP_loop_first.
  - split.
    + intros Hn. destruct Hc as [[Hall _]|(pre & service & post & ip' & _ & _ & _ & Hl)];
        [assumption|]. rewrite Hl in Hn. discriminate.
    + apply GetPublicIP_loop_none.
  - intros ip err Hip.
    destruct Hc as [[_ Hn]|(pre & service & post & ip' & _ & _ & _ & Hl)];
      rewrite Hip in *; [injection Hn as -> ->; auto | discriminate].
  - unfold cli.runInstall_step2, system.GetPublicIP. fold client.
    destruct (system.GetPublicIP_loop client system.IPServices) as [ip [err|]];
      reflexivity.
Qed.

(** ** Runes *)

Section Runes.

Import utf8.

Lemma byte_range (c : ascii) : (0 <= byte c < 256)%Z.
Proof.
  unfold byte. pose proof (N_ascii_bounded c). lia.
Qed.

Lemma to_byte_byte (c : ascii) : to_byte (byte c) = c.
Proof.
  unfold to_byte. pose proof (byte_range c).
  rewrite Z.mod_small by lia. unfold byte. rewrite N2Z.id. apply ascii_N_embedding.
Qed.

Lemma skip_length (w : nat) (s : string) :
  String.length (skip w s) = String.length s - w.
Proof.
  revert s. induction w as [|w IH]; intros [|c s]; simpl; try lia. apply IH.
Qed.

(** What [decoderune] makes of a string that starts with a byte from [0x80]
    on: a rune from [0x80] on, taken from one to four bytes that are all
    from [0x80] on. *)
Lemma decoderune_high (c : ascii) (s : string) r w :
  (128 <= byte c)%Z ->
  decoderune (String c s) = (r, w) ->
  (128 <= r)%Z /\ 1 <= w <= String.length (String c s)
  /\ forall P : ascii -> bool,
       (forall a, (128 <= byte a)%Z -> P a = false) ->
       existsb P (list_ascii_of_string (String c s))
       = existsb P (list_ascii_of_string (skip w (String c s))).
Proof.
  intros Hc. unfold decoderune, cont, runeError, rune1Max, rune2Max, rune3Max,
    locb, hicb.
  assert (Hone : forall P : ascii -> bool,
             (forall a, (128 <= byte a)%Z -> P a = false) ->
             existsb P (list_ascii_of_string (String c s))
             = existsb P (list_ascii_of_string (skip 1 (String c s)))).
  { intros P HP. simpl. now rewrite (HP c Hc). }
  repeat match goal with
  | |- context [if ?b then _ else _] => destruct b eqn:?
  | |- context [match ?x with EmptyString => _ | String _ _ => _ end] =>
      destruct x as [|? ?]
  | |- (_, _) = (_, _) -> _ => intros [= <- <-]
  end;
  repeat match goal with
  | H : andb _ _ = true |- _ => apply andb_true_iff in H as [? ?]
  | H : (_ <=? _)%Z = true |- _ => apply Z.leb_le in H
  | H : (_ <? _)%Z = true |- _ => apply Z.ltb_lt in H
  end;
  (split; [lia|]); (split; [simpl; lia|]);
  try exact Hone;
  intros P HP; simpl; rewrite ?HP by lia; reflexivity.
Qed.

#[local] Arguments decoderune : simpl never.

(** The runes of a predicate that holds below [0x80] only are the bytes of
    the predicate. *)
Lemma existsb_runes_fuel (P : Z -> bool) :
  (forall r, P r = true -> (r < 128)%Z) ->
  forall fuel s, String.length s <= fuel ->
    existsb P (runes_fuel fuel s)
    = existsb (fun c => P (byte c)) (list_ascii_of_string s).
Proof.
  intros HP. induction fuel as [|fuel IH]; intros [|c s] Hlen; simpl in *;
    try reflexivity; try lia.
  destruct (Z.ltb_spec (byte c) runeSelf) as [Hlow|Hhigh].
  - simpl. rewrite IH by lia. reflexivity.
  - unfold runeSelf in Hhigh.
    destruct (decoderune (String c s)) as [r w] eqn:Hd.
    destruct (decoderune_high c s r w Hhigh Hd) as (Hr & Hw & Hskip).
    assert (Hfalse : forall a, (128 <= byte a)%Z -> P (byte a) = false).
    { intros a Ha. destruct (P (byte a)) eqn:E; [apply HP in E; lia | reflexivity]. }
    assert (Hr' : P r = false).
    { destruct (P r) eqn:E; [apply HP in E; lia | reflexivity]. }
    cbn [existsb]. rewrite Hr'.
    rewrite IH by (rewrite skip_length; simpl in *; lia).
    rewrite <- (Hskip (fun a => P (byte a)) Hfalse). simpl.
    rewrite (Hfalse c Hhigh). reflexivity.
Qed.

Lemma existsb_runes (P : Z -> bool) (s : string) :
  (forall r, P r = true -> (r < 128)%Z) ->
  existsb P (runes s) = existsb (fun c => P (byte c)) (list_ascii_of_string s).
Proof. intros HP. now apply existsb_runes_fuel. Qed.

Lemma runes_fuel_ascii : forall fuel s,
  String.length s <= fuel -> ascii_only s ->
  runes_fuel fuel s = map byte (list_ascii_of_string s).
Proof.
  induction fuel as [|fuel IH]; intros [|c s] Hlen Hs; simpl in *;
    try reflexivity; try lia.
  destruct Hs as [Hc Hs].
  destruct (Z.ltb_spec (byte c) runeSelf) as [_|Hhigh]; [|unfold runeSelf in Hhigh; lia].
  rewrite IH by (assumption || lia). reflexivity.
Qed.

Lemma runes_ascii (s : string) :
  ascii_only s -> runes s = map byte (list_ascii_of_string s).
Proof. now apply runes_fuel_ascii. Qed.

Lemma encoderune_ascii (c : ascii) :
  (byte c < 128)%Z -> encoderune (byte c) = String c "".
Proof.
  intros Hc. unfold encoderune, rune1Max. pose proof (byte_range c).
  rewrite Z.mod_small by lia.
  destruct (Z.leb_spec (byte c) 127); [|lia]. now rewrite to_byte_byte.
Qed.

Lemma of_runes_ascii (l : list ascii) :
  Forall (fun c => (byte c < 128)%Z) l ->
  of_runes (map byte l) = string_of_list_ascii l.
Proof.
  induction 1 as [|c l Hc _ IH]; simpl; [reflexivity|].
  rewrite encoderune_ascii by assumption. rewrite IH. reflexivity.
Qed.

End Runes.

(** ** Password strength *)
Lemma contains_In (c : ascii) (s : string) :
  contains c s = true <-> In c (list_ascii_of_string s).
Proof.
  induction s as [|a s IH]; simpl; [split; [discriminate | tauto]|].
  rewrite orb_true_iff, IH. split; intros [H|H]; auto.
  - left. now apply Ascii.eqb_eq in H.
  - left. now apply Ascii.eqb_eq.
Qed.

Lemma existsb_has_byte (lo hi : Z) (s : string) :
  existsb (fun c => (lo <=? utf8.byte c)%Z && (utf8.byte c <=? hi)%Z)
    (list_ascii_of_string s) = true
  <-> has_byte lo hi s.
Proof.
  unfold has_byte. rewrite existsb_exists. split; intros (c & Hc & H); exists c.
  - apply contains_In in Hc. split; [assumption|].
    apply andb_true_iff in H as [?%Z.leb_le ?%Z.leb_le]. lia.
  - apply contains_In in Hc. split; [assumption|].
    apply andb_true_iff. split; apply Z.leb_le; lia.
Qed.

(** The three flags of [IsStrongPassword] after the loop. *)
Lemma IsStrongPassword_flags (l : list Z) : forall hasLower hasUpper hasDigit,
  fold_left
    (fun '(hasLower, hasUpper, hasDigit) (c : Z) =>
       if (97 <=? c)%Z && (c <=? 122)%Z then (true, hasUpper, hasDigit)
       else if (65 <=? c)%Z && (c <=? 90)%Z then (hasLower, true, hasDigit)
       else if (48 <=? c)%Z && (c <=? 57)%Z then (hasLower, hasUpper, true)
       else (hasLower, hasUpper, hasDigit))
    l (hasLower, hasUpper, hasDigit)
  = (hasLower || existsb (fun c => (97 <=? c)%Z && (c <=? 122)%Z) l,
     hasUpper || existsb (fun c => (65 <=? c)%Z && (c <=? 90)%Z) l,
     hasDigit || existsb (fun c => (48 <=? c)%Z && (c <=? 57)%Z) l).
Proof.
  induction l as [|x l IH]; intros a b c; simpl.
  - now rewrite !orb_false_r.
  - destruct (Z.leb_spec 97 x), (Z.leb_spec x 122), (Z.leb_spec 65 x),
      (Z.leb_spec x 90), (Z.leb_spec 48 x), (Z.leb_spec x 57);
      simpl; try lia; rewrite IH; rewrite ?orb_true_r; reflexivity.
Qed.

Lemma IsStrongPassword_iff (password : string) :
  security.IsStrongPassword password = true
  <-> 8 <= String.length password
      /\ has_byte 97 122 password /\ has_byte 65 90 password
      /\ has_byte 48 57 password.
Proof.
  unfold security.IsStrongPassword.
  rewrite IsStrongPassword_flags. cbn [orb].
  rewrite !existsb_runes
    by (intros r [_ H%Z.leb_le]%andb_true_iff; lia).
  rewrite <- !existsb_has_byte.
  destruct (Nat.ltb_spec (String.length password) 8) as [Hshort|Hlong].
  - split; [discriminate | intros [? _]; lia].
  - rewrite !andb_true_iff. tauto.
Qed.

(** ** Passwords drawn from a character set *)

Section CharsetPasswords.

Import security.

Lemma string_get_Some (s : string) : forall n,
  n < String.length s -> exists c, String.get n s = Some c /\ contains c s = true.
Proof.
  induction s as [|a s IH]; intros [|n] Hn; simpl in *; try lia.
  - exists a. now rewrite Ascii.eqb_refl.
  - destruct (IH n ltac:(lia)) as (c & Hc & Hin). exists c. rewrite Hin.
    now rewrite orb_true_r.
Qed.

Lemma all_bytes_app (P : ascii -> Prop) (a b : string) :
  all_bytes P (a +:+ b) <-> all_bytes P a /\ all_bytes P b.
Proof.
  induction a as [|c a IH].
  - rewrite string_app_nil_l. simpl. tauto.
  - rewrite string_app_cons. simpl. rewrite IH. tauto.
Qed.

Lemma all_bytes_impl (P Q : ascii -> Prop) (s : string) :
  (forall c, P c -> Q c) -> all_bytes P s -> all_bytes Q s.
Proof. intros HPQ. induction s; simpl; [auto | intros [? ?]; auto]. Qed.

Lemma all_bytes_Forall (P : ascii -> Prop) (s : string) :
  all_bytes P s <-> Forall P (list_ascii_of_string s).
Proof.
  induction s as [|c s IH]; simpl.
  - split; [constructor | auto].
  - rewrite Forall_cons_iff, IH. tauto.
Qed.

(** A draw from a non-empty range does not panic, stays in the range and
    leaves the source as it was, one call later. *)
Lemma Int_range (max : Z) (r : Ints) :
  (0 < max)%Z ->
  (exists k, (0 <= k < max)%Z /\ Int max r = (Returns (Ok k), drawn r)
             /\ draw_fails_at r (draws r) = false)
  \/ (Int max r = (Returns (Err entropy_error), drawn r)
      /\ draw_fails_at r (draws r) = true).
Proof.
  intros Hmax. unfold Int. destruct (Z.leb_spec max 0); [lia|].
  destruct (draw_fails_at r (draws r)); [right; auto | left].
  eexists. split; [apply Z.mod_pos_bound; lia | auto].
Qed.

Lemma later_refl r : later r r.
Proof. unfold later. auto. Qed.

Lemma later_drawn r r' : later (drawn r) r' -> later r r'.
Proof. unfold later, drawn. simpl. intros (?&?&?). repeat split; auto; lia. Qed.

Lemma later_trans r1 r2 r3 : later r1 r2 -> later r2 r3 -> later r1 r3.
Proof.
  unfold later. intros (?&?&?) (?&?&?). repeat split; try congruence; lia.
Qed.

Lemma all_drawn_refl r : all_drawn r r.
Proof. intros k Hk. lia. Qed.

Lemma all_drawn_step r r' :
  draw_fails_at r (draws r) = false -> later (drawn r) r' ->
  all_drawn (drawn r) r' -> all_drawn r r'.
Proof.
  intros Hf Hl Ha k Hk. destruct (decide (k = draws r)) as [->|Hne]; [assumption|].
  apply (Ha k). simpl. lia.
Qed.

Lemma all_drawn_trans r1 r2 r3 :
  later r1 r2 -> all_drawn r1 r2 -> all_drawn r2 r3 -> all_drawn r1 r3.
Proof.
  intros (_ & Hf & Hle) H12 H23 k Hk.
  destruct (Nat.lt_ge_cases k (draws r2)); [apply H12; lia|].
  rewrite <- Hf. apply H23. lia.
Qed.

Lemma one_failed_step r r' :
  later (drawn r) r' -> one_failed (drawn r) r' -> one_failed r r'.
Proof. intros _ (k & Hk & Hf). exists k. simpl in *. split; [lia | assumption]. Qed.

Lemma one_failed_after r1 r2 r3 :
  later r1 r2 -> one_failed r2 r3 -> one_failed r1 r3.
Proof.
  intros (_ & Hf & Hle) (k & Hk & Hfail). exists k. rewrite <- Hf. split; [lia | assumption].
Qed.

Lemma one_failed_before r1 r2 r3 :
  later r2 r3 -> one_failed r1 r2 -> one_failed r1 r3.
Proof.
  intros (_ & _ & Hle) (k & Hk & Hfail). exists k. split; [lia | assumption].
Qed.

Lemma draws_to_ret {A} (a : A) E (Q : A -> Prop) : Q a -> draws_to (ret a) E Q.
Proof.
  intros HQ r. exists (Ok a), r. repeat split; auto using later_refl, all_drawn_refl.
Qed.

Lemma draws_to_bind {A B} (m : Gen A) (f : A -> Gen B) E (P : A -> Prop) (Q : B -> Prop) :
  draws_to m E P -> (forall a, P a -> draws_to (f a) E Q) -> draws_to (bind m f) E Q.
Proof.
  intros Hm Hf r. unfold bind.
  destruct (Hm r) as ([a|err] & r1 & -> & Hl1 & H1).
  - destruct H1 as [HP Ha1].
    destruct (Hf a HP r1) as (res & r2 & -> & Hl2 & H2).
    exists res, r2. split; [reflexivity|]. split; [eapply later_trans; eauto|].
    destruct res as [b|err'].
    + destruct H2 as [HQ Ha2]. split; [assumption|]. eapply all_drawn_trans; eauto.
    + destruct H2 as [He Hfail]. split; [assumption|]. eapply one_failed_after; eauto.
  - exists (Err err), r1. auto.
Qed.

Lemma draws_to_weaken {A} (m : Gen A) (E E' : error -> Prop) (P Q : A -> Prop) :
  (forall e, E e -> E' e) -> (forall a, P a -> Q a) -> draws_to m E P -> draws_to m E' Q.
Proof.
  intros HE HPQ Hm r. destruct (Hm r) as ([a|err] & r1 & -> & Hl & H1 & H2).
  - exists (Ok a), r1. auto.
  - exists (Err err), r1. auto.
Qed.

Lemma generateFromCharset_loop_draws (charset : string) :
  charset <> "" ->
  forall n password,
    draws_to (generateFromCharset_loop n charset password) (eq charset_error)
      (fun s => exists suffix,
           s = password +:+ suffix /\ String.length suffix = n /\ over charset suffix).
Proof.
  intros Hne.
  assert (Hlen : (0 < Z.of_nat (String.length charset))%Z).
  { destruct charset; [contradiction | simpl; lia]. }
  induction n as [|n IH]; intros password r; simpl.
  - exists (Ok password), r. split; [reflexivity|]. split; [apply later_refl|].
    split; [|apply all_drawn_refl]. exists "". now rewrite string_app_nil_r.
  - destruct (Int_range _ r Hlen) as [(k & Hk & -> & Hok) | [-> Hfail]].
    + destruct (string_get_Some charset (Z.to_nat k) ltac:(lia)) as (c & -> & Hc).
      destruct (IH (password +:+ String c "") (drawn r))
        as ([s|err] & r' & -> & Hl & H).
      * exists (Ok s), r'. split; [reflexivity|]. split; [now apply later_drawn|].
        destruct H as [(suffix & -> & Hn & Hover) Ha]. split.
        -- exists (String c suffix). rewrite string_app_assoc. simpl.
           repeat split; auto.
        -- now apply all_drawn_step.
      * exists (Err err), r'. split; [reflexivity|]. split; [now apply later_drawn|].
        destruct H as [He Hf]. split; [assumption | now apply one_failed_step].
    + exists (Err charset_error), (drawn r). split; [reflexivity|].
      split; [apply later_drawn, later_refl|]. split; [reflexivity|].
      exists (draws r). simpl. split; [lia | assumption].
Qed.

Lemma generateFromCharset_draws (length : Z) (charset : string) :
  charset <> "" ->
  draws_to (generateFromCharset length charset) (eq charset_error)
    (fun s => String.length s = Z.to_nat length /\ over charset s).
Proof.
  intros Hne. eapply draws_to_weaken;
    [| |apply (generateFromCharset_loop_draws charset Hne (Z.to_nat length) "")].
  - auto.
  - intros s (suffix & -> & Hn & Hover). now rewrite string_app_nil_l.
Qed.

(** *** The shuffle *)

Lemma insert_head_Permutation {A} (l : list A) : forall j a b,
  l !! j = Some b -> b :: <[j := a]> l ≡ₚ a :: l.
Proof.
  induction l as [|x l IH]; intros [|j] a b Hj; simpl in *; try discriminate.
  - injection Hj as ->. apply perm_swap.
  - rewrite (perm_swap x b). rewrite (IH j a b Hj). apply perm_swap.
Qed.

(** [runes[i], runes[j] = runes[j], runes[i]] rearranges the slice. *)
Lemma swap_Permutation {A} (l : list A) : forall i j a b,
  l !! i = Some a -> l !! j = Some b -> <[j := a]> (<[i := b]> l) ≡ₚ l.
Proof.
  induction l as [|x l IH]; intros [|i] [|j] a b Hi Hj; simpl in *; try discriminate.
  - injection Hi as ->. reflexivity.
  - injection Hi as ->. now apply insert_head_Permutation.
  - injection Hj as ->. now apply insert_head_Permutation.
  - f_equiv. eauto.
Qed.

Lemma shuffleString_loop_draws : forall i runes,
  i < List.length runes \/ i = 0 ->
  draws_to (shuffleString_loop i runes) (eq shuffle_error) (fun l => l ≡ₚ runes).
Proof.
  induction i as [|i IH]; intros runes Hi r.
  - exists (Ok runes), r. simpl. repeat split; auto using later_refl, all_drawn_refl.
  - destruct Hi as [Hi|?]; [|lia]. cbn [shuffleString_loop].
    destruct (Int_range (Z.of_nat (S i) + 1) r ltac:(lia))
      as [(k & Hk & -> & Hok) | [-> Hfail]].
    + destruct (lookup_lt_is_Some_2 runes (Z.to_nat k) ltac:(lia)) as [rj Hrj].
      destruct (lookup_lt_is_Some_2 runes (S i) ltac:(lia)) as [ri Hri].
      rewrite Hrj, Hri.
      set (runes' := <[Z.to_nat k := ri]> (<[S i := rj]> runes)).
      assert (Hperm : runes' ≡ₚ runes) by (now apply swap_Permutation).
      destruct (IH runes' ltac:(left; rewrite (Permutation_length Hperm); lia) (drawn r))
        as ([l|err] & r' & -> & Hl & H).
      * exists (Ok l), r'. split; [reflexivity|]. split; [now apply later_drawn|].
        destruct H as [Hp Ha]. split; [now rewrite Hp | now apply all_drawn_step].
      * exists (Err err), r'. split; [reflexivity|]. split; [now apply later_drawn|].
        destruct H as [He Hf]. split; [assumption | now apply one_failed_step].
    + exists (Err shuffle_error), (drawn r). split; [reflexivity|].
      split; [apply later_drawn, later_refl|]. split; [reflexivity|].
      exists (draws r). simpl. split; [lia | assumption].
Qed.

Lemma shuffleString_draws (s : string) :
  draws_to (shuffleString s) (eq shuffle_error)
    (fun q => exists l, l ≡ₚ utf8.runes s /\ q = utf8.of_runes l).
Proof.
  unfold shuffleString.
  apply (draws_to_bind _ _ _ (fun l => l ≡ₚ utf8.runes s)).
  - apply shuffleString_loop_draws. destruct (utf8.runes s); simpl; [right|left]; lia.
  - intros l Hl. apply draws_to_ret. exists l. auto.
Qed.

(** *** Strings of ASCII bytes, shuffled *)

Lemma string_length_list (s : string) :
  String.length s = List.length (list_ascii_of_string s).
Proof. induction s; simpl; congruence. Qed.

Lemma over_mono (cs1 cs2 s : string) :
  (forall c, contains c cs1 = true -> contains c cs2 = true) ->
  over cs1 s -> over cs2 s.
Proof. intros H. now apply all_bytes_impl. Qed.

Lemma over_ascii (charset s : string) :
  ascii_only charset -> over charset s -> ascii_only s.
Proof.
  intros Hcs. apply all_bytes_impl. intros c Hc%contains_In.
  apply all_bytes_Forall in Hcs. rewrite List.Forall_forall in Hcs. now apply Hcs.
Qed.

(** The string made from a rearrangement of the runes of an ASCII string
    is a rearrangement of its bytes. *)
Lemma of_runes_Permutation (s q : string) (l : list Z) :
  ascii_only s -> l ≡ₚ utf8.runes s -> q = utf8.of_runes l ->
  list_ascii_of_string q ≡ₚ list_ascii_of_string s.
Proof.
  intros Hs Hl ->. rewrite runes_ascii in Hl by assumption.
  apply Permutation_map_inv in Hl as (l' & -> & Hl').
  assert (Hascii : Forall (fun c => (utf8.byte c < 128)%Z) l').
  { apply all_bytes_Forall in Hs. now rewrite <- Hl'. }
  rewrite of_runes_ascii by assumption.
  rewrite list_ascii_of_string_of_list_ascii. now symmetry.
Qed.

Lemma Permutation_length_string (s q : string) :
  list_ascii_of_string q ≡ₚ list_ascii_of_string s -> String.length q = String.length s.
Proof. intros H. rewrite !string_length_list. now apply Permutation_length. Qed.

Lemma Permutation_all_bytes (P : ascii -> Prop) (s q : string) :
  list_ascii_of_string q ≡ₚ list_ascii_of_string s -> all_bytes P s -> all_bytes P q.
Proof. intros H. rewrite !all_bytes_Forall. now rewrite H. Qed.

Lemma Permutation_has_byte (lo hi : Z) (s q : string) :
  list_ascii_of_string q ≡ₚ list_ascii_of_string s -> has_byte lo hi s -> has_byte lo hi q.
Proof.
  intros H (c & Hc & Hr). exists c. split; [|assumption].
  apply contains_In. apply contains_In in Hc.
  eapply Permutation_in; [symmetry; exact H | exact Hc].
Qed.

Lemma has_byte_app_l lo hi (a b : string) : has_byte lo hi a -> has_byte lo hi (a +:+ b).
Proof.
  intros (c & Hc & Hr). exists c. rewrite contains_app, Hc. auto.
Qed.

Lemma has_byte_app_r lo hi (a b : string) : has_byte lo hi b -> has_byte lo hi (a +:+ b).
Proof.
  intros (c & Hc & Hr). exists c. rewrite contains_app, Hc, orb_true_r. auto.
Qed.

(** A string of one byte of [charset], when the bytes of [charset] lie
    between [lo] and [hi]. *)
Lemma one_of_charset lo hi (charset s : string) :
  (forall c, contains c charset = true -> (lo <= utf8.byte c <= hi)%Z) ->
  String.length s = 1 -> over charset s -> has_byte lo hi s.
Proof.
  intros Hcs Hlen Hover. destruct s as [|c [|? ?]]; simpl in Hlen; try lia.
  destruct Hover as [Hc _]. exists c. simpl. rewrite Ascii.eqb_refl. auto.
Qed.

Ltac charset_cases H :=
  cbv [LowercaseChars UppercaseChars DigitChars] in H; cbn [contains] in H;
  repeat match type of H with
         | (_ || _ = true) => apply orb_true_iff in H as [H|H]
         end;
  try discriminate H; apply Ascii.eqb_eq in H; subst.

Lemma LowercaseChars_range c :
  contains c LowercaseChars = true -> (97 <= utf8.byte c <= 122)%Z.
Proof. intros H. charset_cases H; unfold utf8.byte; simpl; lia. Qed.

Lemma UppercaseChars_range c :
  contains c UppercaseChars = true -> (65 <= utf8.byte c <= 90)%Z.
Proof. intros H. charset_cases H; unfold utf8.byte; simpl; lia. Qed.

Lemma DigitChars_range c :
  contains c DigitChars = true -> (48 <= utf8.byte c <= 57)%Z.
Proof. intros H. charset_cases H; unfold utf8.byte; simpl; lia. Qed.

Lemma AlphanumChars_parts c :
  contains c AlphanumChars = true
  <-> contains c LowercaseChars = true \/ contains c UppercaseChars = true
      \/ contains c DigitChars = true.
Proof.
  unfold AlphanumChars. rewrite !contains_app, !orb_true_iff. tauto.
Qed.

Lemma AlphanumChars_ascii : ascii_only AlphanumChars.
Proof.
  apply all_bytes_Forall, List.Forall_forall. intros c Hc%contains_In.
  apply AlphanumChars_parts in Hc as [H|[H|H]];
    [apply LowercaseChars_range in H | apply UppercaseChars_range in H
     | apply DigitChars_range in H]; lia.
Qed.

(** *** [GenerateSecurePassword] *)

Lemma randomChar_draws (charset : string) :
  charset <> "" ->
  draws_to (randomChar charset) (eq charset_error)
    (fun s => String.length s = 1 /\ over charset s).
Proof. intros H. now apply (generateFromCharset_draws 1). Qed.

Lemma GenerateSecurePassword_fill_draws : forall n password,
  draws_to (GenerateSecurePassword_fill n password) (eq charset_error)
    (fun s => exists suffix,
         s = password +:+ suffix /\ String.length suffix = n
         /\ over AlphanumChars suffix).
Proof.
  induction n as [|n IH]; intros password; simpl.
  - apply draws_to_ret. exists "". now rewrite string_app_nil_r.
  - eapply draws_to_bind; [apply (randomChar_draws AlphanumChars); discriminate|].
    intros char [Hlen Hover]. eapply draws_to_weaken; [| |apply IH]; [auto|].
    simpl. intros s (suffix & -> & Hn & Hs). exists (char +:+ suffix).
    rewrite string_app_assoc. split; [reflexivity|]. split.
    + rewrite string_length_app. lia.
    + now apply all_bytes_app.
Qed.

Lemma GenerateSecurePassword_draws (length : Z) :
  draws_to (GenerateSecurePassword length)
    (fun e => e = charset_error \/ e = shuffle_error)
    (fun p => String.length p = Z.to_nat (Z.max 8 length)
              /\ IsStrongPassword p = true /\ over AlphanumChars p).
Proof.
  unfold GenerateSecurePassword.
  set (L := if (length <? 8)%Z then 8%Z else length).
  assert (HL : L = Z.max 8 length) by (subst L; destruct (Z.ltb_spec length 8); lia).
  eapply draws_to_bind;
    [eapply draws_to_weaken; [| |apply (randomChar_draws LowercaseChars); discriminate];
     [auto | intros a H; exact H]|].
  intros lowercase [Hl1 Hl2].
  eapply draws_to_bind;
    [eapply draws_to_weaken; [| |apply (randomChar_draws UppercaseChars); discriminate];
     [auto | intros a H; exact H]|].
  intros uppercase [Hu1 Hu2].
  eapply draws_to_bind;
    [eapply draws_to_weaken; [| |apply (randomChar_draws DigitChars); discriminate];
     [auto | intros a H; exact H]|].
  intros digit [Hd1 Hd2].
  eapply draws_to_bind;
    [eapply draws_to_weaken; [| |apply GenerateSecurePassword_fill_draws];
     [auto | intros a H; exact H]|].
  simpl. intros p (rest & -> & Hr1 & Hr2).
  eapply draws_to_weaken; [| |apply shuffleString_draws]; [auto|].
  simpl. intros q (l & Hl & Hq).
  set (p := ((("" +:+ lowercase) +:+ uppercase) +:+ digit) +:+ rest) in *.
  assert (Hover : over AlphanumChars p).
  { subst p. rewrite string_app_nil_l. repeat (apply all_bytes_app; split);
      [eapply over_mono; [|exact Hl2] | eapply over_mono; [|exact Hu2]
       | eapply over_mono; [|exact Hd2] | exact Hr2];
      intros c Hc; apply AlphanumChars_parts; auto. }
  assert (Hperm : list_ascii_of_string q ≡ₚ list_ascii_of_string p).
  { eapply of_runes_Permutation; eauto. eapply over_ascii; eauto using AlphanumChars_ascii. }
  assert (Hlen : String.length q = Z.to_nat L).
  { rewrite (Permutation_length_string _ _ Hperm). subst p.
    rewrite !string_length_app. simpl. lia. }
  split; [now rewrite <- HL|]. split; [|eapply Permutation_all_bytes; eauto].
  apply IsStrongPassword_iff. split; [lia|]. subst p. rewrite string_app_nil_l in *.
  repeat split; apply (Permutation_has_byte _ _ _ _ Hperm).
  - do 3 apply has_byte_app_l.
    eapply one_of_charset; eauto using LowercaseChars_range.
  - do 2 apply has_byte_app_l. apply has_byte_app_r.
    eapply one_of_charset; eauto using UppercaseChars_range.
  - apply has_byte_app_l. apply has_byte_app_r.
    eapply one_of_charset; eauto using DigitChars_range.
Qed.

End CharsetPasswords.

(** X1.  [generateFromCharset] (and with it [randomChar] and
    [GenerateAlphanumericPassword]), for a character set that is not empty:
    it does not panic; when every draw from the random source succeeds it
    returns a string of exactly [length] bytes (none for a [length] below
    one), each of them a byte of the character set; otherwise a draw failed
    and it returns the error of that draw, wrapped. *)
Theorem generateFromCharset_over (length : Z) (charset : string) (r : security.Ints) :
  charset <> "" ->
  exists res r',
    security.generateFromCharset length charset r = (security.Returns res, r')
    /\ match res with
       | Ok s => String.length s = Z.to_nat length /\ over charset s /\ all_drawn r r'
       | Err err => err = charset_error /\ one_failed r r'
       end.
Proof.
  intros Hne.
  destruct (generateFromCharset_draws length charset Hne r) as (res & r' & Heq & _ & H).
  exists res, r'. split; [assumption|]. destruct res; [tauto|].
  destruct H as [<- ?]. auto.
Qed.

Lemma generateFromCharset_over_witness :
  security.AlphanumChars <> ""
  /\ exists res r',
       security.generateFromCharset 12 security.AlphanumChars counting_source
       = (security.Returns res, r')
       /\ match res with
          | Ok s => String.length s = Z.to_nat 12 /\ over security.AlphanumChars s
                    /\ all_drawn counting_source r'
          | Err err => err = charset_error /\ one_failed counting_source r'
          end.
Proof.
  assert (H : security.AlphanumChars <> "") by discriminate.
  split; [exact H|].
  exact (generateFromCharset_over 12 security.AlphanumChars counting_source H).
Defined.

(** X2.  [shuffleString] does not panic.  When every draw succeeds it
    returns the string made from a rearrangement of the runes of its
    argument; for an argument made of ASCII bytes that is a rearrangement of
    its bytes.  Otherwise a draw failed and it returns the error of that
    draw, wrapped. *)
Theorem shuffleString_rearranges (s : string) (r : security.Ints) :
  exists res r',
    security.shuffleString s r = (security.Returns res, r')
    /\ match res with
       | Ok q => (exists l, l ≡ₚ utf8.runes s /\ q = utf8.of_runes l)
                 /\ (ascii_only s -> list_ascii_of_string q ≡ₚ list_ascii_of_string s)
                 /\ all_drawn r r'
       | Err err => err = shuffle_error /\ one_failed r r'
       end.
Proof.
  destruct (shuffleString_draws s r) as (res & r' & Heq & _ & H).
  exists res, r'. split; [assumption|]. destruct res as [q|err].
  - destruct H as [(l & Hl & Hq) Ha]. split; [eauto|]. split; [|assumption].
    intros Hs. eapply of_runes_Permutation; eauto.
  - destruct H as [<- ?]. auto.
Qed.

(** X3.  [GenerateSecurePassword] does not panic.  When every draw from the
    random source succeeds it returns a password of [length] bytes (eight,
    for a [length] below eight) made of letters and digits that
    [IsStrongPassword] accepts; otherwise a draw failed and it returns the
    error of a draw or of the shuffle. *)
Theorem GenerateSecurePassword_strong (length : Z) (r : security.Ints) :
  exists res r',
    security.GenerateSecurePassword length r = (security.Returns res, r')
    /\ match res with
       | Ok p => String.length p = Z.to_nat (Z.max 8 length)
                 /\ security.IsStrongPassword p = true
                 /\ over security.AlphanumChars p
                 /\ all_drawn r r'
       | Err err => (err = charset_error \/ err = shuffle_error) /\ one_failed r r'
       end.
Proof.
  destruct (GenerateSecurePassword_draws length r) as (res & r' & Heq & _ & H).
  exists res, r'. split; [assumption|]. destruct res; tauto.
Qed.

(** X4.  [IsStrongPassword] looks at runes, but what it accepts can be told
    from the bytes: a password is strong exactly when it has at least eight
    bytes and among them a lower-case ASCII letter, an upper-case ASCII
    letter and an ASCII digit. *)
Theorem IsStrongPassword_bytes (password : string) :
  security.IsStrongPassword password = true
  <-> 8 <= String.length password
      /\ has_byte 97 122 password /\ has_byte 65 90 password
      /\ has_byte 48 57 password.
Proof. apply IsStrongPassword_iff. Qed.

(** X5.  Whatever the random source delivers and however much fuel there
    is, [GeneratePassword] does not panic at its slice and never returns a
    partial password: with an error it returns the empty string, and a read
    of the source has failed; without one it returns a string of the
    effective length without '+', '/' and '='. *)
Theorem GeneratePassword_all_or_nothing (fuel : nat) (length : Z) (r : security.Rand) :
  match fst (security.GeneratePassword fuel length r) with
  | security.Returns (s, None) =>
      String.length s = Z.to_nat (effective_length length) /\ url_safe s
  | security.Returns (s, Some _) => s = "" /\ exists k, security.fails_at r k = true
  | security.Panics => False
  | security.OutOfFuel => True
  end.
Proof.
  destruct (security.GeneratePassword fuel length r) as [out r'] eqn:H.
  exact (GeneratePassword_sound fuel length r out r' H).
Qed.

(** ** Random tokens *)

Lemma string_ind3 (P : string -> Prop) :
  P "" -> (forall a, P (String a "")) -> (forall a b, P (String a (String b ""))) ->
  (forall a b c s, P s -> P (String a (String b (String c s)))) ->
  forall s, P s.
Proof.
  intros H0 H1 H2 H3 s.
  assert (H : forall n s, String.length s <= n -> P s).
  { clear s. induction n as [|n IH]; intros [|a [|b [|c s]]] Hlen; simpl in *;
      auto; try lia. apply H3, IH. lia. }
  now apply (H (String.length s)).
Qed.

Lemma sextet_lt (v : N) : (N.land v 63 < 64)%N.
Proof.
  change 63%N with (N.ones 6). rewrite N.land_ones. now apply N.mod_lt.
Qed.

Lemma encode_with_alphabet (encoder : string) (v : N) :
  String.length encoder = 64 ->
  contains (base64.encode_with encoder (N.land v 63)) encoder = true.
Proof.
  intros Hlen. unfold base64.encode_with. pose proof (sextet_lt v).
  destruct (string_get_Some encoder (N.to_nat (N.land v 63)) ltac:(lia)) as (c & -> & Hc).
  exact Hc.
Qed.

Lemma Encoding_EncodeToString_length (encoder src : string) :
  String.length (base64.Encoding_EncodeToString encoder src)
  = 4 * ((String.length src + 2) / 3).
Proof.
  induction src as [|a|a b|a b c s IH] using string_ind3; try reflexivity.
  cbn [base64.Encoding_EncodeToString String.length]. rewrite IH.
  replace (S (S (S (String.length s))) + 2) with (String.length s + 2 + 1 * 3) by lia.
  rewrite Nat.div_add by lia. lia.
Qed.

Lemma EncodeToString_length (src : string) :
  String.length (base64.EncodeToString src) = 4 * ((String.length src + 2) / 3).
Proof.
  induction src as [|a|a b|a b c s IH] using string_ind3; try reflexivity.
  cbn [base64.EncodeToString String.length]. rewrite IH.
  replace (S (S (S (String.length s))) + 2) with (String.length s + 2 + 1 * 3) by lia.
  rewrite Nat.div_add by lia. lia.
Qed.

Lemma Encoding_EncodeToString_over (encoder src : string) :
  String.length encoder = 64 ->
  over (encoder +:+ "=") (base64.Encoding_EncodeToString encoder src).
Proof.
  intros Hlen.
  assert (Henc : forall v, contains (base64.encode_with encoder (N.land v 63))
                             (encoder +:+ "=") = true).
  { intros v. rewrite contains_app, encode_with_alphabet by assumption. reflexivity. }
  assert (Hpad : contains base64.padChar (encoder +:+ "=") = true).
  { rewrite contains_app. simpl. now rewrite orb_true_r. }
  induction src as [|a|a b|a b c s IH] using string_ind3;
    cbn [base64.Encoding_EncodeToString]; unfold over; simpl; auto 10.
Qed.

Lemma take_tape_length tape : forall n p, String.length (security.take_tape tape p n) = n.
Proof. induction n as [|n IH]; intros p; simpl; [reflexivity | now rewrite IH]. Qed.

(** X6.  [GenerateBase64Token] and [GenerateURLSafeToken], for a
    [byteLength] that is not negative and a source that delivers: the token
    is not [byteLength] characters long but four characters for every three
    bytes, rounded up; the URL-safe token is made of letters, digits, '-',
    '_' and the padding '=' only. *)
Theorem tokens_length_alphabet (byteLength : Z) (r : security.Rand) :
  (0 <= byteLength)%Z ->
  security.fails_at r (security.calls r) = false ->
  exists t u r1,
    security.GenerateBase64Token byteLength r = (security.Returns (Ok t), r1)
    /\ security.GenerateURLSafeToken byteLength r = (security.Returns (Ok u), r1)
    /\ String.length t = 4 * ((Z.to_nat byteLength + 2) / 3)
    /\ String.length u = 4 * ((Z.to_nat byteLength + 2) / 3)
    /\ over (base64.encodeURL +:+ "=") u.
Proof.
  intros Hn Hf.
  unfold security.GenerateBase64Token, security.GenerateURLSafeToken,
    security.GenerateRandomBytes, security.Read.
  destruct (Z.ltb_spec byteLength 0); [lia|]. rewrite Hf.
  eexists _, _, _. split; [reflexivity|]. split; [reflexivity|].
  rewrite EncodeToString_length. unfold base64.URLEncoding_EncodeToString.
  rewrite Encoding_EncodeToString_length, take_tape_length.
  repeat split. now apply Encoding_EncodeToString_over.
Qed.

Lemma tokens_length_alphabet_witness :
  (0 <= 32)%Z
  /\ security.fails_at steady_source (security.calls steady_source) = false
  /\ exists t u r1,
       security.GenerateBase64Token 32 steady_source = (security.Returns (Ok t), r1)
       /\ security.GenerateURLSafeToken 32 steady_source = (security.Returns (Ok u), r1)
       /\ String.length t = 4 * ((Z.to_nat 32 + 2) / 3)
       /\ String.length u = 4 * ((Z.to_nat 32 + 2) / 3)
       /\ over (base64.encodeURL +:+ "=") u.
Proof.
  assert (H0 : (0 <= 32)%Z) by lia.
  split; [exact H0|]. split; [reflexivity|].
  exact (tokens_length_alphabet 32 steady_source H0 eq_refl).
Defined.

(** ** Choosing the asset of a release *)

Lemma find_first {A} (f : A -> bool) (l : list A) :
  match List.find f l with
  | Some a => exists pre post, l = pre ++ a :: post /\ f a = true
                               /\ forall x, In x pre -> f x = false
  | None => forall x, In x l -> f x = false
  end.
Proof.
  induction l as [|x l IH]; simpl; [tauto|].
  destruct (f x) eqn:Hx.
  - exists [], l. simpl. tauto.
  - destruct (List.find f l) as [a|].
    + destruct IH as (pre & post & -> & Ha & Hpre).
      exists (x :: pre), post. simpl. repeat split; auto.
      intros y [<-|Hy]; auto.
    + intros y [<-|Hy]; auto.
Qed.

Lemma name_test (name a b : string) :
  String.eqb name a || String.eqb name b = true <-> name = a \/ name = b.
Proof. rewrite orb_true_iff, !String.eqb_eq. tauto. Qed.

Lemma name_test_false (name a b : string) :
  String.eqb name a || String.eqb name b = false <-> ~ (name = a \/ name = b).
Proof. rewrite <- name_test. destruct (_ || _); split; congruence. Qed.

(** X7.  [GetAssetForPlatform] prefers archives: if an asset of the release
    has the archive name of the platform ([wte-OS-ARCH.tar.gz] or
    [wte_OS_ARCH.tar.gz]) it returns the first such asset, even when a bare
    binary is listed before it; otherwise it returns the first asset with
    the name of a bare binary ([wte-OS-ARCH] or [wte_OS_ARCH]); and it
    returns an error exactly when no asset has one of the four names. *)
Theorem GetAssetForPlatform_prefers_archives (GOOS GOARCH : string)
  (release : updater.Release) :
  match updater.GetAssetForPlatform GOOS GOARCH release with
  | Ok asset =>
      exists pre post,
        updater.Assets release = pre ++ asset :: post
        /\ ((archive_name GOOS GOARCH (updater.Asset_Name asset)
             /\ none_named (archive_name GOOS GOARCH) pre)
            \/ (binary_name GOOS GOARCH (updater.Asset_Name asset)
                /\ none_named (archive_name GOOS GOARCH) (updater.Assets release)
                /\ none_named (binary_name GOOS GOARCH) pre))
  | Err err =>
      err = "no asset found for " +:+ GOOS +:+ "/" +:+ GOARCH
      /\ none_named (archive_name GOOS GOARCH) (updater.Assets release)
      /\ none_named (binary_name GOOS GOARCH) (updater.Assets release)
  end.
Proof.
  unfold updater.GetAssetForPlatform, none_named, archive_name, binary_name. cbv zeta.
  match goal with |- context [List.find ?f _] => pose proof (find_first f (updater.Assets release)) as H1 end.
  destruct (List.find _ (updater.Assets release)) as [a|].
  - destruct H1 as (pre & post & Heq & Ha & Hpre). exists pre, post.
    split; [assumption|]. left. split; [now apply name_test|].
    intros x Hx. apply name_test_false. auto.
  - match goal with |- context [List.find ?f _] => pose proof (find_first f (updater.Assets release)) as H2 end.
    destruct (List.find _ (updater.Assets release)) as [a|].
    + destruct H2 as (pre & post & Heq & Ha & Hpre). exists pre, post.
      split; [assumption|]. right. split; [now apply name_test|]. split.
      * intros x Hx. apply name_test_false. auto.
      * intros x Hx. apply name_test_false. auto.
    + split; [reflexivity|]. split; intros x Hx; apply name_test_false; auto.
Qed.

(** ** Validated ports *)

(** X8.  A configuration that [Validate] accepts has something to open, and
    [GetRequiredPorts] lists no port twice for the same protocol: the
    firewall is never asked for the same rule twice. *)
Theorem Validate_ports_distinct (cfg : config.Config) :
  gost.Validate cfg = None ->
  config.GetRequiredPorts cfg <> []
  /\ NoDup (map (fun p => (config.Port p, config.Protocol p))
              (config.GetRequiredPorts cfg)).
Proof.
  destruct cfg as [g [h hp ha] [s sp c k sa] [ss ssp m pw] f l].
  unfold gost.Validate, config.GetRequiredPorts. simpl.
  destruct h, s, ss; simpl;
    repeat match goal with
           | |- _ => rewrite lookup_empty
           | |- context [<[?a := _]> _ !! ?b] =>
               destruct (decide (a = b)) as [->|?];
               [rewrite lookup_insert_eq | rewrite lookup_insert_ne by assumption]
           end; simpl;
    intros H; try discriminate H; (split; [discriminate|]);
    repeat (apply NoDup_cons; split);
    try apply NoDup_nil_2; rewrite ?elem_of_cons, ?elem_of_nil; intros Hin;
    repeat match goal with
           | H : _ \/ _ |- _ => destruct H
           | H : (_, _) = (_, _) |- _ => injection H as ? ?
           end; try congruence; try discriminate; try tauto.
Qed.

Lemma Validate_ports_distinct_witness :
  gost.Validate config.DefaultConfig = None
  /\ config.GetRequiredPorts config.DefaultConfig <> []
  /\ NoDup (map (fun p => (config.Port p, config.Protocol p))
              (config.GetRequiredPorts config.DefaultConfig)).
Proof.
  split; [reflexivity|].
  exact (Validate_ports_distinct config.DefaultConfig eq_refl).
Defined.

(** ** Detecting the operating system *)

Section DetectOS.

Import system.

Lemma detectOSRelease_line_frame (info : OSInfo) (line : string) :
  Arch (system_os.detectOSRelease_line info line) = Arch info
  /\ GOSTArch (system_os.detectOSRelease_line info line) = GOSTArch info.
Proof.
  unfold system_os.detectOSRelease_line.
  destruct (strings.SplitN line "=" 2) as [|key [|rest [|? ?]]]; auto.
  repeat match goal with |- context [if ?b then _ else _] => destruct b end; auto.
Qed.

Lemma detectOSRelease_lines_frame (lines : list string) : forall info,
  Arch (fold_left system_os.detectOSRelease_line lines info) = Arch info
  /\ GOSTArch (fold_left system_os.detectOSRelease_line lines info) = GOSTArch info.
Proof.
  induction lines as [|line lines IH]; intros info; simpl; [auto|].
  destruct (IH (system_os.detectOSRelease_line info line)) as [-> ->].
  apply detectOSRelease_line_frame.
Qed.

(** [detectOSRelease] leaves the architecture alone, and returns [nil] only
    with an operating system found. *)
Lemma detectOSRelease_frame file info info' err :
  system_os.detectOSRelease file info = (info', err) ->
  Arch info' = Arch info /\ GOSTArch info' = GOSTArch info
  /\ (err = None -> OS info' <> "").
Proof.
  unfold system_os.detectOSRelease. destruct file as [[data read_err]|e].
  - destruct (bufio.Scan data read_err) as [lines scanner_Err].
    pose proof (detectOSRelease_lines_frame lines info) as [Ha Hg].
    destruct (String.eqb_spec (OS (fold_left system_os.detectOSRelease_line lines info)) "");
      intros [= <- <-]; repeat split; auto; discriminate.
  - intros [= <- <-]. repeat split; auto; discriminate.
Qed.

Lemma detectRedHatRelease_frame file info info' err :
  system_os.detectRedHatRelease file info = (info', err) ->
  Arch info' = Arch info /\ GOSTArch info' = GOSTArch info
  /\ (err = None -> OS info' = "centos").
Proof.
  unfold system_os.detectRedHatRelease. destruct file as [content|e].
  - destruct (List.find _ _); intros [= <- <-]; simpl; auto.
  - intros [= <- <-]. repeat split; auto; discriminate.
Qed.

Lemma member_In (x : string) (l : list string) : member x l = true <-> In x l.
Proof.
  unfold member. rewrite existsb_exists. split.
  - intros (y & Hy & ->%String.eqb_eq). assumption.
  - intros H. exists x. split; [assumption | apply String.eqb_refl].
Qed.

Lemma setPackageManager_known (info : OSInfo) :
  In (PackageManager (setPackageManager info))
     ["apt"; "dnf"; "yum"; "pacman"; "zypper"; "apk"; "unknown"].
Proof.
  unfold setPackageManager. cbn [PackageManager].
  repeat match goal with |- context [if ?b then _ else _] => destruct b end;
    simpl; tauto.
Qed.

Lemma setPackageManager_supported (info : OSInfo) :
  In (OS info) ["ubuntu"; "debian"; "centos"; "rhel"; "rocky"; "almalinux";
                "fedora"; "arch"; "manjaro"] ->
  In (PackageManager (setPackageManager info)) ["apt"; "dnf"; "yum"; "pacman"].
Proof.
  destruct info as [os v pn a ga sup pm]. cbn [OS].
  intros H. simpl in H.
  repeat match type of H with _ \/ _ => destruct H as [<-|H] end; try contradiction;
    unfold setPackageManager; cbn [PackageManager OS Version member existsb];
    cbn; try (destruct (Go.string_ge v "8")); simpl; tauto.
Qed.

Lemma setPackageManager_frame (info : OSInfo) :
  OS (setPackageManager info) = OS info
  /\ Arch (setPackageManager info) = Arch info
  /\ GOSTArch (setPackageManager info) = GOSTArch info.
Proof. unfold setPackageManager. simpl. auto. Qed.

Lemma DetectOS_well_formed_aux (GOARCH : string) os_release redhat_release info :
  DetectOS GOARCH (system_os.release_files os_release redhat_release) = Ok info ->
  OS info <> ""
  /\ ((GOARCH = "amd64" /\ Arch info = "x86_64" /\ GOSTArch info = "amd64")
      \/ (GOARCH = "arm64" /\ Arch info = "aarch64" /\ GOSTArch info = "arm64")
      \/ (GOARCH = "arm" /\ Arch info = "armv7l" /\ GOSTArch info = "armv7"))
  /\ In (PackageManager info)
        ["apt"; "dnf"; "yum"; "pacman"; "zypper"; "apk"; "unknown"]
  /\ (IsSupported info = true ->
      In (PackageManager info) ["apt"; "dnf"; "yum"; "pacman"]).
Proof.
  unfold DetectOS. cbn [system_os.release_files detectOSRelease detectRedHatRelease].
  set (info0 := {| OS := ""; Version := ""; PrettyName := ""; Arch := GOARCH;
                   GOSTArch := ""; IsSupported := false; PackageManager := "" |}).
  destruct (detectArch GOARCH info0) as [info1|e] eqn:Harch; [|discriminate].
  assert (Hpair : (GOARCH = "amd64" /\ Arch info1 = "x86_64" /\ GOSTArch info1 = "amd64")
      \/ (GOARCH = "arm64" /\ Arch info1 = "aarch64" /\ GOSTArch info1 = "arm64")
      \/ (GOARCH = "arm" /\ Arch info1 = "armv7l" /\ GOSTArch info1 = "armv7")).
  { unfold detectArch in Harch.
    destruct (String.eqb_spec GOARCH "amd64");
      [injection Harch as <-; simpl; auto|].
    destruct (String.eqb_spec GOARCH "arm64");
      [injection Harch as <-; simpl; auto|].
    destruct (String.eqb_spec GOARCH "arm");
      [injection Harch as <-; simpl; auto 6 | discriminate]. }
  assert (Hfinal : forall info2,
             Arch info2 = Arch info1 -> GOSTArch info2 = GOSTArch info1 ->
             OS info2 <> "" ->
             Ok (checkSupported (setPackageManager info2)) = Ok info ->
             OS info <> ""
             /\ ((GOARCH = "amd64" /\ Arch info = "x86_64" /\ GOSTArch info = "amd64")
                 \/ (GOARCH = "arm64" /\ Arch info = "aarch64" /\ GOSTArch info = "arm64")
                 \/ (GOARCH = "arm" /\ Arch info = "armv7l" /\ GOSTArch info = "armv7"))
             /\ In (PackageManager info)
                   ["apt"; "dnf"; "yum"; "pacman"; "zypper"; "apk"; "unknown"]
             /\ (IsSupported info = true ->
                 In (PackageManager info) ["apt"; "dnf"; "yum"; "pacman"])).
  { intros info2 Ha Hg Hos [= <-].
    destruct (setPackageManager_frame info2) as (Ho' & Ha' & Hg').
    unfold checkSupported. cbn [OS Arch GOSTArch PackageManager IsSupported].
    rewrite Ho', Ha', Hg', Ha, Hg. split; [assumption|]. split; [assumption|].
    split; [apply setPackageManager_known|].
    intros Hsup%member_In. now apply setPackageManager_supported. }
  destruct (system_os.detectOSRelease os_release info1) as [info2 [e|]] eqn:Hos.
  - destruct (system_os.detectRedHatRelease redhat_release info2) as [info3 [e'|]] eqn:Hrh;
      [discriminate|].
    apply detectOSRelease_frame in Hos as (Ha & Hg & _).
    apply detectRedHatRelease_frame in Hrh as (Ha' & Hg' & Hc).
    apply Hfinal; try congruence. rewrite Hc by reflexivity. discriminate.
  - apply detectOSRelease_frame in Hos as (Ha & Hg & Hne). apply Hfinal; auto.
Qed.

End DetectOS.

(** X9.  What [DetectOS] returns when it succeeds, on a machine with any
    [/etc/os-release] and [/etc/redhat-release]: an operating system that
    is not empty; the machine and GOST names of one of the three
    architectures, the ones of [runtime.GOARCH]; one of the seven package
    managers the code knows, "unknown" among them; and for an operating
    system marked as supported a package manager that is known (apt, dnf,
    yum or pacman). *)
Theorem DetectOS_well_formed (GOARCH : string)
  (os_release : result (string * option error)) (redhat_release : result string)
  (info : system.OSInfo) :
  system.DetectOS GOARCH (system_os.release_files os_release redhat_release) = Ok info ->
  system.OS info <> ""
  /\ ((GOARCH = "amd64" /\ system.Arch info = "x86_64" /\ system.GOSTArch info = "amd64")
      \/ (GOARCH = "arm64" /\ system.Arch info = "aarch64"
          /\ system.GOSTArch info = "arm64")
      \/ (GOARCH = "arm" /\ system.Arch info = "armv7l" /\ system.GOSTArch info = "armv7"))
  /\ In (system.PackageManager info)
        ["apt"; "dnf"; "yum"; "pacman"; "zypper"; "apk"; "unknown"]
  /\ (system.IsSupported info = true ->
      In (system.PackageManager info) ["apt"; "dnf"; "yum"; "pacman"]).
Proof. apply DetectOS_well_formed_aux. Qed.

Lemma DetectOS_well_formed_witness :
  let info :=
    {| system.OS := "centos"; system.Version := "7";
       system.PrettyName := "CentOS Linux release 7.9.2009 (Core)";
       system.Arch := "aarch64"; system.GOSTArch := "arm64";
       system.IsSupported := true; system.PackageManager := "yum" |} in
  system.DetectOS "arm64"
    (system_os.release_files (Err "open /etc/os-release: no such file or directory")
       (Ok "CentOS Linux release 7.9.2009 (Core)")) = Ok info
  /\ system.OS info <> ""
  /\ In (system.PackageManager info) ["apt"; "dnf"; "yum"; "pacman"].
Proof.
  cbv zeta.
  assert (H : system.DetectOS "arm64"
    (system_os.release_files (Err "open /etc/os-release: no such file or directory")
       (Ok "CentOS Linux release 7.9.2009 (Core)"))
    = Ok {| system.OS := "centos"; system.Version := "7";
            system.PrettyName := "CentOS Linux release 7.9.2009 (Core)";
            system.Arch := "aarch64"; system.GOSTArch := "arm64";
            system.IsSupported := true; system.PackageManager := "yum" |})
    by reflexivity.
  split; [exact H|].
  pose proof (DetectOS_well_formed _ _ _ _ H) as (Hos & _ & _ & Hpm).
  split; [exact Hos | exact (Hpm eq_refl)].
Defined.

(** X10.  For the RHEL family (centos, rhel, rocky, almalinux, oracle)
    [setPackageManager] compares the version as a string with "8": the
    package manager is dnf exactly when the version starts with the byte '8'
    or a greater one, and yum otherwise; so versions 8 and 9 get dnf, and
    7, 10 or an empty version get yum. *)
Theorem setPackageManager_rhel_first_byte (info : system.OSInfo) :
  In (system.OS info) ["centos"; "rhel"; "rocky"; "almalinux"; "oracle"] ->
  system.PackageManager (system.setPackageManager info)
  = match system.Version info with
    | String c _ => if 56 <=? nat_of_ascii c then "dnf" else "yum"
    | EmptyString => "yum"
    end.
Proof.
  destruct info as [os v pn a ga sup pm]. cbn [system.OS system.Version].
  intros H. simpl in H.
  assert (Hv : Go.string_ge v "8"
               = match v with
                 | String c _ => 56 <=? nat_of_ascii c
                 | EmptyString => false
                 end).
  { destruct v as [|c v']; [reflexivity|].
    destruct c as [[] [] [] [] [] [] [] []]; destruct v'; reflexivity. }
  repeat match type of H with _ \/ _ => destruct H as [<-|H] end; try contradiction;
    unfold system.setPackageManager;
    cbn [system.PackageManager system.OS system.Version system.member existsb];
    cbn [String.eqb Ascii.eqb Bool.eqb orb]; rewrite Hv;
    destruct v as [|c v']; try reflexivity; destruct (56 <=? nat_of_ascii c); reflexivity.
Qed.

Lemma setPackageManager_rhel_first_byte_witness :
  let info := {| system.OS := "rocky"; system.Version := "10";
                 system.PrettyName := ""; system.Arch := ""; system.GOSTArch := "";
                 system.IsSupported := false; system.PackageManager := "" |} in
  In (system.OS info) ["centos"; "rhel"; "rocky"; "almalinux"; "oracle"]
  /\ system.PackageManager (system.setPackageManager info) = "yum".
Proof.
  cbv zeta.
  assert (H : In "rocky" ["centos"; "rhel"; "rocky"; "almalinux"; "oracle"])
    by (simpl; tauto).
  split; [exact H|].
  exact (setPackageManager_rhel_first_byte
           {| system.OS := "rocky"; system.Version := "10";
              system.PrettyName := ""; system.Arch := ""; system.GOSTArch := "";
              system.IsSupported := false; system.PackageManager := "" |} H).
Defined.

(** ** The configuration: defaults and overrides *)

Section Defaults.

Import config.

Variable ParseInt : string -> option Z.
Variable ParseBool : string -> option bool.
Variable env : string -> option string.
Variable other_codec : string -> node -> result node.

Hypothesis no_WTE_variable :
  forall name, String.prefix "WTE_" name = true -> env name = None.

Lemma Init_defaults_aux (fs : gmap string node) (g : Globals) :
  v_override (viper g) = [] -> v_config (viper g) = None ->
  exists v,
    Init ParseInt ParseBool env other_codec fs None "" g
    = ({| cfg := Some DefaultConfig; ConfigPath := ""; viper := v |}, None).
Proof.
  intros Hov Hcf. unfold Init. cbn [Go.string_ne String.eqb negb].
  unfold Unmarshal. cbn [forallb app].
  rewrite !(find_saved env no_WTE_variable) by exact Hov.
  cbn [v_config v_defaults setDefaults SetDefault]. rewrite Hcf.
  eexists. reflexivity.
Qed.

End Defaults.

(** X11.  The defaults are the same in both places they are written down:
    in a process that has read no configuration file and set no value, on a
    machine without [WTE_] variables, [Init] with no file to be found gives
    no error and exactly the configuration of [DefaultConfig], which [Get]
    then returns. *)
Theorem Init_defaults :
  forall (ParseInt : string -> option Z) (ParseBool : string -> option bool)
         (env : string -> option string)
         (other_codec : string -> config.node -> result config.node)
         (fs : gmap string config.node) (g : config.Globals),
    (forall name, String.prefix "WTE_" name = true -> env name = None) ->
    config.v_override (config.viper g) = [] ->
    config.v_config (config.viper g) = None ->
    let loaded := config.Init ParseInt ParseBool env other_codec fs None "" g in
    snd loaded = None
    /\ config.cfg (fst loaded) = Some config.DefaultConfig
    /\ snd (config.Get (fst loaded)) = config.DefaultConfig.
Proof.
  intros ParseInt ParseBool env other_codec fs g Henv Hov Hcf. cbv zeta.
  destruct (Init_defaults_aux ParseInt ParseBool env other_codec Henv fs g Hov Hcf)
    as [v ->].
  repeat split.
Qed.

Lemma Init_defaults_witness :
  let g := {| config.cfg := None; config.ConfigPath := "";
              config.viper := fresh_viper |} in
  (forall name, String.prefix "WTE_" name = true -> no_env name = None)
  /\ config.v_override (config.viper g) = []
  /\ config.v_config (config.viper g) = None
  /\ config.cfg (fst (config.Init no_parse_int no_parse_bool no_env no_other_codec
                        ∅ None "" g)) = Some config.DefaultConfig.
Proof.
  cbv zeta. split; [reflexivity|]. split; [reflexivity|]. split; [reflexivity|].
  exact (proj1 (proj2
           (Init_defaults no_parse_int no_parse_bool no_env no_other_codec ∅
              {| config.cfg := None; config.ConfigPath := "";
                 config.viper := fresh_viper |}
              (fun _ _ => eq_refl) eq_refl eq_refl))).
Defined.

Section Overrides.

Import config.

Variable ParseInt : string -> option Z.
Variable ParseBool : string -> option bool.
Variable env : string -> option string.
Variable other_codec : string -> node -> result node.

Lemma path_eqb_eq (p q : list string) : path_eqb p q = true -> p = q.
Proof. unfold path_eqb. destruct (decide (p = q)); [auto | discriminate]. Qed.

Lemma find_override (v : Viper) (key : list string) (value : scalar) :
  assoc_path key (v_override v) = Some value -> find env v key = Some value.
Proof. intros H. unfold find. now rewrite H. Qed.

(** The keys of the configuration, one by one. *)
Ltac each_key H :=
  unfold field, fields in H; cbn [assoc_path] in H;
  repeat match type of H with
         | (if path_eqb ?k ?l then _ else _) = _ =>
             destruct (path_eqb k l) eqn:?E;
             [apply path_eqb_eq in E; subst k | clear E]
         end;
  try discriminate H.

(** A field that viper finds among the values set with [viper.Set] is
    decoded from there. *)
Lemma Unmarshal_override (v : Viper) (c0 : Config) (key : list string)
  (old value : scalar) :
  field key c0 = Some old -> same_type old value ->
  assoc_path key (v_override v) = Some value ->
  field key (fst (Unmarshal ParseInt ParseBool env v c0)) = Some value.
Proof.
  intros Hold Htype Hov. apply find_override in Hov.
  each_key Hold; injection Hold as <-;
    destruct value; try contradiction;
    unfold Unmarshal, field, fields; cbn [fst assoc_path app];
    cbn [GOST HTTP HTTPS Shadowsocks Firewall Logging Version BinaryPath ConfigDir
         ConfigFile HTTP_Enabled HTTP_Port HTTP_Auth Auth_Enabled Username
         Auth_Password HTTPS_Enabled HTTPS_Port CertPath KeyPath HTTPS_Auth
         SS_Enabled SS_Port Method SS_Password AutoConfigure Level];
    rewrite Hov; reflexivity.
Qed.

Lemma Set_override (key : list string) (value : scalar) (g : Globals) :
  assoc_path key (v_override (viper (fst (Set_ ParseInt ParseBool env key value g))))
  = Some value.
Proof.
  unfold Set_. destruct (cfg g) as [c0|]; [destruct (Unmarshal _ _ _ _ _)|];
    cbn [fst viper v_override assoc_path]; unfold path_eqb;
    destruct (decide (key = key)); congruence.
Qed.

Lemma Init_override (fs : gmap string node) (searched : option node) (path : string)
  (g : Globals) (key : list string) :
  v_override (viper (fst (Init ParseInt ParseBool env other_codec fs searched path g)))
  = v_override (viper g).
Proof.
  unfold Init. cbv zeta.
  destruct (Go.string_ne path "").
  - destruct (negb _); [reflexivity|].
    destruct (fs !! path) as [doc|]; [|reflexivity].
    destruct (_ || _); [destruct (Unmarshal _ _ _ _ _); reflexivity|].
    destruct (other_codec _ doc); [destruct (Unmarshal _ _ _ _ _)|]; reflexivity.
  - destruct searched; destruct (Unmarshal _ _ _ _ _); reflexivity.
Qed.

Lemma Init_cfg (fs : gmap string node) (searched : option node) (path : string)
  (g : Globals) :
  cfg (fst (Init ParseInt ParseBool env other_codec fs searched path g)) = cfg g
  \/ exists v, v_override v = v_override (viper g)
               /\ cfg (fst (Init ParseInt ParseBool env other_codec fs searched path g))
                  = Some (fst (Unmarshal ParseInt ParseBool env v zero)).
Proof.
  unfold Init. cbv zeta.
  destruct (Go.string_ne path "").
  - destruct (negb _); [left; reflexivity|].
    destruct (fs !! path) as [doc|]; [|left; reflexivity].
    destruct (_ || _).
    + right. eexists. split; [|destruct (Unmarshal _ _ _ _ _) eqn:E; cbn [fst cfg];
                                rewrite E; reflexivity]. reflexivity.
    + destruct (other_codec _ doc); [|left; reflexivity].
      right. eexists. split; [|destruct (Unmarshal _ _ _ _ _) eqn:E; cbn [fst cfg];
                                rewrite E; reflexivity]. reflexivity.
  - destruct searched.
    + right. eexists. split; [|destruct (Unmarshal _ _ _ _ _) eqn:E; cbn [fst cfg];
                                rewrite E; reflexivity]. reflexivity.
    + right. eexists. split; [|destruct (Unmarshal _ _ _ _ _) eqn:E; cbn [fst cfg];
                                rewrite E; reflexivity]. reflexivity.
Qed.

Lemma field_type (key : list string) (c c' : Config) (x : scalar) :
  field key c = Some x -> exists y, field key c' = Some y /\ same_type y x.
Proof.
  intros H. each_key H; injection H as <-; eexists; (split; [reflexivity | exact I]).
Qed.

Lemma same_type_trans (x y z : scalar) : same_type x y -> same_type y z -> same_type x z.
Proof. destruct x, y, z; simpl; tauto. Qed.

Lemma Set_overrides_aux (key : list string) (value old : scalar) (c0 : Config)
  (g : Globals) :
  cfg g = Some c0 -> field key c0 = Some old -> same_type old value ->
  let g1 := fst (Set_ ParseInt ParseBool env key value g) in
  (exists c1, cfg g1 = Some c1 /\ field key c1 = Some value)
  /\ forall fs searched path,
       exists c2,
         cfg (fst (Init ParseInt ParseBool env other_codec fs searched path g1)) = Some c2
         /\ field key c2 = Some value.
Proof.
  intros Hc Hold Htype. cbv zeta.
  pose proof (Set_override key value g) as Hov.
  assert (H1 : exists c1, cfg (fst (Set_ ParseInt ParseBool env key value g)) = Some c1
                          /\ field key c1 = Some value).
  { clear Hov. unfold Set_. rewrite Hc.
    destruct (Unmarshal _ _ _ _ c0) as [c1 err] eqn:E. exists c1. split; [reflexivity|].
    change c1 with (fst (c1, err)). rewrite <- E.
    eapply Unmarshal_override; eauto.
    cbn [v_override assoc_path]. unfold path_eqb.
    destruct (decide (key = key)); congruence. }
  split; [exact H1|]. intros fs searched path.
  destruct (Init_cfg fs searched path (fst (Set_ ParseInt ParseBool env key value g)))
    as [-> | (v & Hv & ->)]; [exact H1|].
  eexists. split; [reflexivity|].
  destruct (field_type key c0 zero old Hold) as (y & Hy & Hty).
  eapply Unmarshal_override; [exact Hy | eapply same_type_trans; eauto |].
  now rewrite Hv.
Qed.

End Overrides.

(** X12.  A value set with [Set] wins and stays: for a key of the
    configuration and a value of the type of its field, once a configuration
    is loaded, the field has the value after [Set], whatever the
    environment, the configuration file and the defaults say, and it still
    has it after every later [Init] (so after [Load] and [Reload]), from any
    file. *)
Theorem Set_overrides :
  forall (ParseInt : string -> option Z) (ParseBool : string -> option bool)
         (env : string -> option string)
         (other_codec : string -> config.node -> result config.node)
         (key : list string) (value old : config.scalar)
         (c0 : config.Config) (g : config.Globals),
    config.cfg g = Some c0 ->
    field key c0 = Some old ->
    same_type old value ->
    let g1 := fst (config.Set_ ParseInt ParseBool env key value g) in
    (exists c1, config.cfg g1 = Some c1 /\ field key c1 = Some value)
    /\ forall fs searched path,
         exists c2,
           config.cfg (fst (config.Init ParseInt ParseBool env other_codec
                              fs searched path g1)) = Some c2
           /\ field key c2 = Some value.
Proof.
  intros. now apply Set_overrides_aux with (old := old) (c0 := c0).
Qed.

Lemma Set_overrides_witness :
  let g := {| config.cfg := Some config.DefaultConfig; config.ConfigPath := "";
              config.viper := fresh_viper |} in
  config.cfg g = Some config.DefaultConfig
  /\ field ["http"; "port"] config.DefaultConfig = Some (config.Int 8080)
  /\ same_type (config.Int 8080) (config.Int 3128)
  /\ exists c1,
       config.cfg (fst (config.Set_ no_parse_int no_parse_bool env_with_username
                          ["http"; "port"] (config.Int 3128) g)) = Some c1
       /\ field ["http"; "port"] c1 = Some (config.Int 3128).
Proof.
  cbv zeta. split; [reflexivity|]. split; [reflexivity|]. split; [exact I|].
  exact (proj1 (Set_overrides no_parse_int no_parse_bool env_with_username
                  no_other_codec ["http"; "port"] (config.Int 3128) (config.Int 8080)
                  config.DefaultConfig
                  {| config.cfg := Some config.DefaultConfig; config.ConfigPath := "";
                     config.viper := fresh_viper |} eq_refl eq_refl I)).
Defined.

(** ** The install sequence: order and switches *)

Section InstallOrder.

Import cli.

Lemma invoked_app (log1 log2 : list event) :
  invoked (log1 ++ log2) = invoked log1 ++ invoked log2.
Proof.
  induction log1 as [|ev log1 IH]; simpl; [reflexivity|].
  destruct ev; simpl; now rewrite IH.
Qed.

Lemma within_bind {A B} (o1 o2 : list step) (m : M A) (f : A -> M B) :
  within o1 m -> (forall a, within o2 (f a)) -> within (o1 ++ o2) (bind m f).
Proof.
  unfold within. destruct m as [log [a|e]]; simpl; intros Hm Hf.
  - specialize (Hf a). destruct (f a) as [log' r]. simpl in *.
    rewrite invoked_app. now apply sublist_app.
  - now apply sublist_inserts_r.
Qed.

Lemma within_nil_bind {A B} (o : list step) (m : M A) (f : A -> M B) :
  within [] m -> (forall a, within o (f a)) -> within o (bind m f).
Proof. intros Hm Hf. now apply (within_bind [] o). Qed.

Ltac sublists :=
  repeat first [apply sublist_nil | apply sublist_skip | apply sublist_cons].

(** The calls of a step whose conditions have been decided. *)
Ltac decided :=
  unfold within; simpl; sublists.

Variable f : Flags.
Variable w : World.

Local Notation "'segment' l" := (List.filter (may_run f w) l)
  (at level 10, l at level 9, only parsing).

Lemma within_step1 : within (segment [DetectOS]) (runInstall_step1 w).
Proof.
  unfold runInstall_step1.
  destruct (system.DetectOS (GOARCH w) (files w)) as [osInfo|e]; [|decided].
  destruct osInfo as [? ? ? ? ? [] ?]; decided.
Qed.

Lemma within_step2 : within (segment [GetPublicIP]) (runInstall_step2 w).
Proof.
  unfold runInstall_step2.
  destruct (system.GetPublicIP (client w)) as [ip [e|]]; decided.
Qed.

Lemma within_step3 :
  within (segment [GenerateHTTPPassword; GenerateSSPassword]) (runInstall_step3 f w).
Proof.
  unfold runInstall_step3, apply_flags, Go.string_ne. cbn [may_run List.filter].
  cbn [config.HTTP config.HTTP_Auth config.Auth_Enabled config.Shadowsocks
       config.SS_Enabled].
  destruct (installHTTPNoAuth f), (String.eqb (installHTTPPass f) ""),
    (installSSEnabled f), (String.eqb (installSSPassword f) "");
    cbn [negb andb];
    try destruct (http_password w); try destruct (ss_password w); decided.
Qed.

Lemma within_step4 : within (segment [Stop; Backup]) (runInstall_step4 w).
Proof.
  unfold runInstall_step4, system.Status. cbn [may_run List.filter system.IsActive].
  destruct (installed w), (was_active w); cbn [andb];
    try destruct (stop w); try destruct (backup w); decided.
Qed.

Lemma within_step5 : within (segment [Install]) (runInstall_step5 w).
Proof. unfold runInstall_step5. destruct (install w); decided. Qed.

Lemma within_step6 cfg :
  config.HTTPS_Enabled (config.HTTPS cfg) = installHTTPSEnabled f ->
  within (segment [GenerateSelfSignedCert]) (runInstall_step6 w cfg).
Proof.
  intros Hcfg. unfold runInstall_step6. rewrite Hcfg. cbn [may_run List.filter].
  destruct (installHTTPSEnabled f); [destruct (certificate w)|]; decided.
Qed.

Lemma within_step7 cfg :
  within (segment [Validate; Generate; SaveTo]) (runInstall_step7 w cfg).
Proof.
  unfold runInstall_step7.
  destruct (gost.Validate cfg), (generate w), (save_config w); decided.
Qed.

Lemma within_step8 :
  within (segment [CreateService; DaemonReload; Enable; Start]) (runInstall_step8 w).
Proof.
  unfold runInstall_step8, system.Status.
  destruct (create_service w), (daemon_reload w), (enable w), (start w); decided.
Qed.

Lemma within_step9 cfg :
  config.AutoConfigure (config.Firewall cfg) = negb (installSkipFirewall f) ->
  within (segment [OpenPorts]) (runInstall_step9 w cfg).
Proof.
  intros Hcfg. unfold runInstall_step9. rewrite Hcfg. cbn [may_run List.filter].
  destruct (installSkipFirewall f); cbn [negb]; [decided|].
  destruct (system.OpenPorts _ _ _); decided.
Qed.

Lemma within_credentials :
  within (segment [SaveCredentials]) (runInstall_credentials w).
Proof. unfold runInstall_credentials. destruct (save_credentials w); decided. Qed.

(** What step 3 makes of the flags. *)
Lemma runInstall_step3_flags cfg :
  snd (runInstall_step3 f w) = Ok cfg ->
  config.HTTPS_Enabled (config.HTTPS cfg) = installHTTPSEnabled f
  /\ config.AutoConfigure (config.Firewall cfg) = negb (installSkipFirewall f).
Proof.
  unfold runInstall_step3, apply_flags.
  cbn [config.HTTP config.HTTP_Auth config.Auth_Enabled config.Shadowsocks
       config.SS_Enabled].
  destruct (negb (installHTTPNoAuth f)), (Go.string_ne (installHTTPPass f) ""),
    (installSSEnabled f), (Go.string_ne (installSSPassword f) "");
    try destruct (http_password w); try destruct (ss_password w);
    simpl; intros [= <-]; auto.
Qed.

Lemma within_bind_Ok {A B} (o1 o2 : list step) (m : M A) (g : A -> M B) :
  within o1 m -> (forall a, snd m = Ok a -> within o2 (g a)) ->
  within (o1 ++ o2) (bind m g).
Proof.
  unfold within. destruct m as [log [a|e]]; simpl; intros Hm Hg.
  - specialize (Hg a eq_refl). destruct (g a) as [log' r]. simpl in *.
    rewrite invoked_app. now apply sublist_app.
  - now apply sublist_inserts_r.
Qed.

Lemma runInstall_within :
  sublist (invoked (fst (runInstall f w))) (segment install_order).
Proof.
  change install_order with
    ([CheckRoot] ++ [DetectOS] ++ [GetPublicIP]
     ++ [GenerateHTTPPassword; GenerateSSPassword] ++ [Stop; Backup] ++ [Install]
     ++ [GenerateSelfSignedCert] ++ [Validate; Generate; SaveTo]
     ++ [CreateService; DaemonReload; Enable; Start] ++ [OpenPorts]
     ++ [SaveCredentials] ++ []).
  rewrite !List.filter_app.
  change (sublist (invoked (fst (runInstall f w))) ?o) with (within o (runInstall f w)).
  unfold runInstall.
  apply within_bind; [destruct (checkRoot w); decided|]. intros _.
  apply within_bind; [apply within_step1|]. intros osInfo.
  apply within_bind; [apply within_step2|]. intros publicIP.
  apply within_bind_Ok; [apply within_step3|]. intros cfg [Hhttps Hfw]%runInstall_step3_flags.
  apply within_bind; [apply within_step4|]. intros _.
  apply within_bind; [apply within_step5|]. intros _.
  apply within_bind; [now apply within_step6|]. intros _.
  apply within_bind; [apply within_step7|]. intros _.
  apply within_bind; [apply within_step8|]. intros _.
  apply within_bind; [now apply within_step9|]. intros _.
  apply within_bind; [apply within_credentials|]. intros _.
  decided.
Qed.

End InstallOrder.

(** X13.  The calls of an install run are made in the order of
    [install_order], each at most once, and a call the flags or the machine
    switch off is not made: no password is generated when one was given or
    authentication is off, GOST is stopped and its configuration saved only
    when it was installed (and running), a certificate is made only for
    HTTPS, and with [--skip-firewall] the firewall is not touched. *)
Theorem runInstall_order (f : cli.Flags) (w : cli.World) :
  sublist (invoked (fst (cli.runInstall f w)))
          (List.filter (may_run f w) install_order).
Proof. apply runInstall_within. Qed.

(** ** The install sequence: what a run that succeeds has done *)

Section InstallSuccess.

Import cli.

Lemma bind_Ok {A B} (m : M A) (g : A -> M B) (b : B) :
  snd (bind m g) = Ok b ->
  exists a, snd m = Ok a /\ snd (g a) = Ok b /\ fst (bind m g) = fst m ++ fst (g a).
Proof.
  destruct m as [log [a|e]]; simpl; [|discriminate].
  destruct (g a) as [log' r] eqn:E. simpl. intros ->. exists a. now rewrite E.
Qed.

Lemma must_Ok s prefix err :
  snd (must s prefix err) = Ok tt -> fst (must s prefix err) = [Invoke s None].
Proof. destruct err; simpl; [discriminate | reflexivity]. Qed.

Variable f : Flags.
Variable w : World.

Lemma step1_Ok osInfo :
  snd (runInstall_step1 w) = Ok osInfo -> In (Invoke DetectOS None) (fst (runInstall_step1 w)).
Proof.
  unfold runInstall_step1.
  destruct (system.DetectOS (GOARCH w) (files w)) as [i|e]; [|discriminate].
  destruct i as [? ? ? ? ? [] ?]; simpl; auto.
Qed.

Lemma step2_Ok publicIP :
  snd (runInstall_step2 w) = Ok publicIP ->
  publicIP = "YOUR_SERVER_IP" \/ dotted_quad publicIP.
Proof.
  unfold runInstall_step2, system.GetPublicIP.
  destruct (GetPublicIP_loop_cases (client w) system.IPServices)
    as [[_ ->] | (pre & service & post & ip & _ & _ & Hans & ->)]; simpl.
  - intros [= <-]. now left.
  - intros [= <-]. right. unfold answer in Hans.
    destruct (client w service) as [[body|]|]; try discriminate.
    destruct (regexp.matches system.ipRegex (strings.TrimSpace body)) eqn:Hm;
      [|discriminate].
    injection Hans as <-. now apply ipRegex_dotted_quad.
Qed.

Lemma step3_Ok cfg :
  snd (runInstall_step3 f w) = Ok cfg ->
  config.HTTPS_Auth (config.HTTPS cfg) = config.HTTP_Auth (config.HTTP cfg)
  /\ config.HTTP_Port (config.HTTP cfg) = installHTTPPort f
  /\ config.HTTPS_Port (config.HTTPS cfg) = installHTTPSPort f
  /\ config.SS_Port (config.Shadowsocks cfg) = installSSPort f
  /\ config.HTTP_Enabled (config.HTTP cfg) = true
  /\ config.HTTPS_Enabled (config.HTTPS cfg) = installHTTPSEnabled f
  /\ config.SS_Enabled (config.Shadowsocks cfg) = installSSEnabled f.
Proof.
  unfold runInstall_step3, apply_flags.
  cbn [config.HTTP config.HTTP_Auth config.Auth_Enabled config.Shadowsocks
       config.SS_Enabled].
  destruct (negb (installHTTPNoAuth f)), (Go.string_ne (installHTTPPass f) ""),
    (installSSEnabled f), (Go.string_ne (installSSPassword f) "");
    try destruct (http_password w); try destruct (ss_password w);
    simpl; intros [= <-]; simpl; auto 10.
Qed.

Lemma step5_Ok :
  snd (runInstall_step5 w) = Ok tt -> In (Invoke Install None) (fst (runInstall_step5 w)).
Proof. unfold runInstall_step5. destruct (install w); simpl; [discriminate | auto]. Qed.

Lemma step7_Ok cfg :
  snd (runInstall_step7 w cfg) = Ok tt ->
  gost.Validate cfg = None
  /\ In (Invoke Validate None) (fst (runInstall_step7 w cfg))
  /\ In (Invoke Generate None) (fst (runInstall_step7 w cfg)).
Proof.
  unfold runInstall_step7.
  destruct (gost.Validate cfg); [discriminate|].
  destruct (generate w); [discriminate|].
  destruct (save_config w); simpl; auto.
Qed.

Lemma step8_Ok :
  snd (runInstall_step8 w) = Ok tt ->
  Forall (fun s => In (Invoke s None) (fst (runInstall_step8 w)))
    [CreateService; DaemonReload; Enable; Start].
Proof.
  unfold runInstall_step8, system.Status.
  destruct (create_service w); [discriminate|].
  destruct (daemon_reload w); [discriminate|].
  destruct (enable w); [discriminate|].
  destruct (start w); [discriminate|].
  simpl. intros _. repeat (constructor; [tauto|]). constructor.
Qed.

Lemma runInstall_success_aux :
  snd (runInstall f w) = Ok tt ->
  exists pre cfg publicIP,
    fst (runInstall f w) = pre ++ [Summary cfg publicIP]
    /\ gost.Validate cfg = None
    /\ config.HTTPS_Auth (config.HTTPS cfg) = config.HTTP_Auth (config.HTTP cfg)
    /\ (config.HTTP_Port (config.HTTP cfg) = installHTTPPort f
        /\ config.HTTPS_Port (config.HTTPS cfg) = installHTTPSPort f
        /\ config.SS_Port (config.Shadowsocks cfg) = installSSPort f
        /\ config.HTTP_Enabled (config.HTTP cfg) = true
        /\ config.HTTPS_Enabled (config.HTTPS cfg) = installHTTPSEnabled f
        /\ config.SS_Enabled (config.Shadowsocks cfg) = installSSEnabled f)
    /\ (publicIP = "YOUR_SERVER_IP" \/ dotted_quad publicIP)
    /\ Forall (fun s => In (Invoke s None) pre)
         [CheckRoot; DetectOS; Install; Validate; Generate; CreateService;
          DaemonReload; Enable; Start].
Proof.
  unfold runInstall. intros H.
  apply bind_Ok in H as ([] & H0 & H & ->). apply must_Ok in H0.
  apply bind_Ok in H as (osInfo & H1 & H & ->). apply step1_Ok in H1.
  apply bind_Ok in H as (publicIP & H2 & H & ->). apply step2_Ok in H2.
  apply bind_Ok in H as (cfg & H3 & H & ->). apply step3_Ok in H3 as [H3 H3'].
  apply bind_Ok in H as ([] & _ & H & ->).
  apply bind_Ok in H as ([] & H5 & H & ->). apply step5_Ok in H5.
  apply bind_Ok in H as ([] & _ & H & ->).
  apply bind_Ok in H as ([] & H7 & H & ->). apply step7_Ok in H7 as (H7 & H7a & H7b).
  apply bind_Ok in H as ([] & H8 & H & ->). apply step8_Ok in H8.
  apply bind_Ok in H as ([] & _ & H & ->).
  apply bind_Ok in H as ([] & _ & H & ->).
  clear H. cbn [bind printInstallSummary ret fst app].
  rewrite H0.
  match goal with
  | |- exists pre cfg' ip, ?l0 ++ ?l1 ++ ?l2 ++ ?l3 ++ ?l4 ++ ?l5 ++ ?l6 ++ ?l7 ++ ?l8
                          ++ ?l9 ++ ?l10 ++ _ = _ /\ _ =>
      exists (l0 ++ l1 ++ l2 ++ l3 ++ l4 ++ l5 ++ l6 ++ l7 ++ l8 ++ l9 ++ l10),
        cfg, publicIP
  end.
  split; [now rewrite <- !app_assoc|].
  split; [assumption|]. split; [assumption|]. split; [assumption|].
  split; [assumption|].
  rewrite List.Forall_forall in H8.
  repeat (constructor;
          [rewrite !in_app_iff; simpl; auto 20;
           do 8 right; left; apply H8; simpl; tauto|]).
  constructor.
Qed.

End InstallSuccess.

(** X14.  An install run that returns [nil] ends with the summary of a
    configuration that [Validate] has accepted and that has the ports and
    the switches of the flags, with the HTTPS credentials equal to the HTTP
    ones, and of an address that is a dotted quad or the placeholder
    [YOUR_SERVER_IP]; before that, the root check, the detection of the
    operating system, the installation of GOST, the validation and the
    generation of its configuration and the creation, reload, enabling and
    start of the service have all been called and have all succeeded. *)
Theorem runInstall_success (f : cli.Flags) (w : cli.World) :
  snd (cli.runInstall f w) = Ok tt ->
  exists pre cfg publicIP,
    fst (cli.runInstall f w) = pre ++ [cli.Summary cfg publicIP]
    /\ gost.Validate cfg = None
    /\ config.HTTPS_Auth (config.HTTPS cfg) = config.HTTP_Auth (config.HTTP cfg)
    /\ (config.HTTP_Port (config.HTTP cfg) = cli.installHTTPPort f
        /\ config.HTTPS_Port (config.HTTPS cfg) = cli.installHTTPSPort f
        /\ config.SS_Port (config.Shadowsocks cfg) = cli.installSSPort f
        /\ config.HTTP_Enabled (config.HTTP cfg) = true
        /\ config.HTTPS_Enabled (config.HTTPS cfg) = cli.installHTTPSEnabled f
        /\ config.SS_Enabled (config.Shadowsocks cfg) = cli.installSSEnabled f)
    /\ (publicIP = "YOUR_SERVER_IP" \/ dotted_quad publicIP)
    /\ Forall (fun s => In (cli.Invoke s None) pre)
         [cli.CheckRoot; cli.DetectOS; cli.Install; cli.Validate; cli.Generate;
          cli.CreateService; cli.DaemonReload; cli.Enable; cli.Start].
Proof. apply runInstall_success_aux. Qed.

Lemma runInstall_success_witness :
  snd (cli.runInstall default_flags readonly_etc) = Ok tt
  /\ exists pre cfg publicIP,
       fst (cli.runInstall default_flags readonly_etc) = pre ++ [cli.Summary cfg publicIP]
       /\ gost.Validate cfg = None.
Proof.
  assert (H : snd (cli.runInstall default_flags readonly_etc) = Ok tt) by reflexivity.
  split; [exact H|].
  destruct (runInstall_success default_flags readonly_etc H)
    as (pre & cfg & ip & Hlog & Hval & _).
  exists pre, cfg, ip. split; assumption.
Defined.
